(** * Post lifecycle and mutation layer of the blog service

    A shallow embedding of [BlogRepository] (blog.repository.ts) and
    [BlogService] (blog.service.ts) over a model of the Mongoose collection
    declared by [BlogSchema] (blog.model.ts).

    Conventions of the embedding:
    - a [Date] is its number of milliseconds since the epoch;
    - JavaScript numbers that count things (page, limit, total, viewCount)
      are integers of [Z], inside the range in which floating point
      arithmetic on integers is exact;
    - a string is held as its UTF-8 encoding, one character of the Rocq
      string per byte, which covers every string without an unpaired
      surrogate; [length] counts UTF-16 code units and [trim] strips the
      white space of ECMAScript; [toLowerCase] follows the case mappings
      of the engine's Unicode version and is a parameter, the [Js.Engine],
      known on ASCII text;
    - an [async] function is a computation of the monad [M]: it reads and
      writes the [World] (the collection, the clock, the log) and either
      returns a value or throws. *)

From stdpp Require Import gmap strings list fin_maps sorting.
From Stdlib Require Import ZArith Ascii String ssreflect.

#[local] Set Warnings "-rewrite-rw".

Open Scope string_scope.
Open Scope Z_scope.

(* ====================================================================== *)
(** ** JavaScript strings *)
(* ====================================================================== *)

Module Js.

Definition byte (n : N) : string := String (ascii_of_N n) EmptyString.

(** the UTF-8 encoding of a code point *)
Definition utf8 (cp : N) : string :=
  (if cp <? 0x80 then byte cp
   else if cp <? 0x800 then
     byte (0xC0 + cp / 0x40) ++ byte (0x80 + cp mod 0x40)
   else if cp <? 0x10000 then
     byte (0xE0 + cp / 0x1000) ++ byte (0x80 + cp / 0x40 mod 0x40)
     ++ byte (0x80 + cp mod 0x40)
   else
     byte (0xF0 + cp / 0x40000) ++ byte (0x80 + cp / 0x1000 mod 0x40)
     ++ byte (0x80 + cp / 0x40 mod 0x40) ++ byte (0x80 + cp mod 0x40))%N.

(** a byte [10xxxxxx] continues the code point begun before it *)
Definition isContinuation (c : ascii) : bool :=
  let n := nat_of_ascii c in (Nat.leb 128 n && Nat.leb n 191)%bool.

(** whether a string goes on with the code point begun before it *)
Definition continues (s : string) : bool :=
  match s with
  | EmptyString => false
  | String c _ => isContinuation c
  end.

(** the code points of a string, each as the bytes that encode it *)
Fixpoint codePoints (s : string) : list string :=
  match s with
  | EmptyString => []
  | String c r =>
      match codePoints r with
      | p :: l => if continues r then String c p :: l
                  else String c EmptyString :: p :: l
      | [] => [String c EmptyString]
      end
  end.

Definition join (l : list string) : string :=
  foldr String.append EmptyString l.

(** the code points of WhiteSpace and LineTerminator in ECMAScript: TAB,
    LF, VT, FF, CR, SP, NBSP, the other space separators (category Zs),
    LS, PS and ZWNBSP *)
Definition whiteSpace : list N :=
  [0x9; 0xA; 0xB; 0xC; 0xD; 0x20; 0xA0; 0x1680;
   0x2000; 0x2001; 0x2002; 0x2003; 0x2004; 0x2005; 0x2006; 0x2007; 0x2008;
   0x2009; 0x200A; 0x2028; 0x2029; 0x202F; 0x205F; 0x3000; 0xFEFF]%N.

Definition isWhiteSpace (p : string) : bool :=
  existsb (String.eqb p) (utf8 <$> whiteSpace).

Fixpoint dropLeading (l : list string) : list string :=
  match l with
  | [] => []
  | p :: r => if isWhiteSpace p then dropLeading r else l
  end.

Fixpoint dropTrailing (l : list string) : list string :=
  match l with
  | [] => []
  | p :: r =>
      match dropTrailing r with
      | [] => if isWhiteSpace p then [] else [p]
      | r' => p :: r'
      end
  end.

(** [String.prototype.trim] *)
Definition trim (s : string) : string :=
  join (dropTrailing (dropLeading (codePoints s))).

(** the UTF-16 code units of a code point: two above U+FFFF, where the
    encoding begins with a byte [11110xxx], and one below *)
Definition units (p : string) : Z :=
  match p with
  | EmptyString => 0
  | String c _ => if Nat.leb 240 (nat_of_ascii c) then 2 else 1
  end.

(** [s.length], in UTF-16 code units *)
Definition length (s : string) : Z :=
  foldr (λ p n, units p + n) 0 (codePoints s).

Definition isAsciiChar (c : ascii) : bool := Nat.ltb (nat_of_ascii c) 128.

(** text of 7-bit ASCII *)
Fixpoint isAscii (s : string) : bool :=
  match s with
  | EmptyString => true
  | String c r => isAsciiChar c && isAscii r
  end.

Definition lowerChar (c : ascii) : ascii :=
  let n := nat_of_ascii c in
  if (Nat.leb 65 n && Nat.leb n 90)%bool then ascii_of_nat (n + 32) else c.

(** the letters A-Z in lower case, the other bytes as they are *)
Fixpoint lowerAscii (s : string) : string :=
  match s with
  | EmptyString => EmptyString
  | String c r => String (lowerChar c) (lowerAscii r)
  end.

(** [String.prototype.toLowerCase] is the engine's: it follows the case
    mappings of the Unicode version the engine is built with. On text of
    7-bit ASCII every engine lower-cases the letters A-Z and keeps the
    rest. *)
Class Engine := {
  toLowerCase : string → string;
  toLowerCase_ascii : ∀ s, isAscii s = true → toLowerCase s = lowerAscii s;
}.

(** truthiness of a string: only the empty string is falsy *)
Definition truthy (s : string) : bool :=
  match s with EmptyString => false | _ => true end.

(** truthiness of an array: every object, the empty array included, is
    truthy *)
Definition truthyArray {A} (l : list A) : bool := true.

Definition isHexDigit (c : ascii) : bool :=
  let n := nat_of_ascii c in
  ((Nat.leb 48 n && Nat.leb n 57) || (Nat.leb 65 n && Nat.leb n 70)
   || (Nat.leb 97 n && Nat.leb n 102))%bool.

Fixpoint allHex (s : string) : bool :=
  match s with
  | EmptyString => true
  | String c r => isHexDigit c && allHex r
  end.

End Js.

(* ====================================================================== *)
(** ** Object identifiers *)
(* ====================================================================== *)

(** An [ObjectId] is held in its canonical form, the 24 lower-case
    hexadecimal digits that [toString] prints. *)
Abbreviation ObjectId := string (only parsing).

(** a [Date], in milliseconds since the epoch *)
Abbreviation Date := Z (only parsing).

Module Types.

(** [mongoose.Types.ObjectId.isValid(id)] on a string *)
Definition ObjectId_isValid (id : string) : bool :=
  (String.length id =? 24)%nat && Js.allHex id.

(** [toHexString] of the identifier that 24 hexadecimal digits denote: the
    same digits in lower case *)
Abbreviation toHexString := Js.lowerAscii (only parsing).

(** [new Types.ObjectId(id)]: [None] stands for the thrown BSON error *)
Definition ObjectId_new (id : string) : option ObjectId :=
  if ObjectId_isValid id then Some (toHexString id) else None.

Definition hexDigit (n : N) : ascii :=
  ascii_of_N (if (n <? 10)%N then 48 + n else 87 + n)%N.

Fixpoint hexOfN (digits : nat) (n : N) (acc : string) : string :=
  match digits with
  | O => acc
  | S k => hexOfN k (n / 16)%N (String (hexDigit (n mod 16)%N) acc)
  end.

(** the identifier the driver generates for the [n]-th inserted document *)
Definition ObjectId_generate (n : N) : ObjectId := hexOfN 24 n "".

End Types.

(* ====================================================================== *)
(** ** Domain model (blog.entity.ts, blog.model.ts, blog.dto.ts) *)
(* ====================================================================== *)

Inductive IBlogPostStatus := DRAFT | PUBLISHED | ARCHIVED | SCHEDULED.

Inductive IBlogPostVisibility := PUBLIC | PRIVATE | UNLISTED.

Definition IBlogPostStatus_eqb (a b : IBlogPostStatus) : bool :=
  match a, b with
  | DRAFT, DRAFT | PUBLISHED, PUBLISHED | ARCHIVED, ARCHIVED
  | SCHEDULED, SCHEDULED => true
  | _, _ => false
  end.

Record IFeaturedImage := mkFeaturedImage {
  url : string;
  alt : option string;
  caption : option string;
}.

Record IBlogSEO := mkSEO {
  metaTitle : option string;
  metaDescription : option string;
  keywords : list string;
  ogImage : option string;
}.

(** a like as the collection holds it *)
Record IBlogLikeMongo := mkLikeMongo {
  like_user : ObjectId;
  like_likedAt : Date;
}.

(** a like as the domain entity shows it *)
Record IBlogLike := mkLike {
  user : string;
  likedAt : Date;
}.

(** The persisted document, [IBlog]. *)
Module IBlog.
Record t := mk {
  _id : ObjectId;
  title : string;
  slug : string;
  content : string;
  excerpt : option string;
  author : ObjectId;
  category : ObjectId;
  tags : list string;
  featuredImage : option IFeaturedImage;
  status : IBlogPostStatus;
  visibility : IBlogPostVisibility;
  viewCount : Z;
  likes : list IBlogLikeMongo;
  readTime : Z;
  seo : option IBlogSEO;
  publishedAt : option Date;
  scheduledFor : option Date;
  createdAt : Date;
  updatedAt : Date;
}.
End IBlog.

(** The domain entity, [IBlogPostEntity]. *)
Module IBlogPostEntity.
Record t := mk {
  id : string;
  title : string;
  slug : string;
  content : string;
  excerpt : option string;
  author : string;
  category : string;
  tags : list string;
  featuredImage : option IFeaturedImage;
  status : IBlogPostStatus;
  visibility : IBlogPostVisibility;
  viewCount : Z;
  likes : list IBlogLike;
  readTime : Z;
  seo : option IBlogSEO;
  publishedAt : option Date;
  scheduledFor : option Date;
  createdAt : Date;
  updatedAt : Date;
}.
End IBlogPostEntity.

Module ICreateBlogDto.
Record t := mk {
  title : string;
  slug : option string;
  content : string;
  excerpt : option string;
  author : option string;
  category : string;
  tags : option (list string);
  featuredImage : option IFeaturedImage;
  status : option IBlogPostStatus;
  visibility : option IBlogPostVisibility;
  seo : option IBlogSEO;
  scheduledFor : option Date;
}.
End ICreateBlogDto.

(** [IUpdateBlogDto]: an absent key is [None]; a key that admits [null]
    holds an inner option, [Some None] being an explicit [null]. *)
Module IUpdateBlogDto.
Record t := mk {
  title : option string;
  slug : option string;
  content : option string;
  excerpt : option string;
  category : option string;
  tags : option (list string);
  featuredImage : option (option IFeaturedImage);
  status : option IBlogPostStatus;
  visibility : option IBlogPostVisibility;
  seo : option (option IBlogSEO);
  publishedAt : option (option Date);
  scheduledFor : option (option Date);
}.

(** the object literal [{}] *)
Definition empty : t :=
  mk None None None None None None None None None None None None.

(** [Object.keys(updateData).length] *)
Definition keyCount (u : t) : nat :=
  let one {A} (o : option A) :=
    match o with Some _ => 1%nat | None => 0%nat end in
  (one (title u) + one (slug u) + one (content u) + one (excerpt u)
   + one (category u) + one (tags u) + one (featuredImage u)
   + one (status u) + one (visibility u) + one (seo u)
   + one (publishedAt u) + one (scheduledFor u))%nat.
End IUpdateBlogDto.

(** a JavaScript number that the pagination arithmetic can produce *)
Inductive JsNumber := Finite (z : Z) | PosInfinity | NegInfinity | NaN.

(** [Math.ceil(a / b)] on integers *)
Definition Math_ceil_div (a b : Z) : JsNumber :=
  if b =? 0 then
    (if a =? 0 then NaN else if 0 <? a then PosInfinity else NegInfinity)
  else Finite (- ((- a) `div` b)).

Inductive SortOrder := asc | desc.

(** [IQueryParams] (common.dto): every key is optional *)
Module IQueryParams.
Record t := mk {
  page : option Z;
  limit : option Z;
  search : option string;
  sortBy : option string;
  sortOrder : option SortOrder;
}.
End IQueryParams.

Record Pagination := mkPagination {
  pg_page : Z;
  pg_limit : Z;
  pg_total : Z;
  pg_totalPages : JsNumber;
}.

(** [PaginatedData<T>] (common.dto) *)
Record PaginatedData (T : Type) := mkPaginated {
  data : list T;
  pagination : Pagination;
}.
Arguments mkPaginated {T}.
Arguments data {T}.
Arguments pagination {T}.

(* ====================================================================== *)
(** ** Errors *)
(* ====================================================================== *)

(** the members of [ErrorCode] (common/constants/errorCodes) that the blog
    module names *)
Inductive ErrorCode :=
| BAD_REQUEST | UNAUTHORIZED | FORBIDDEN | NOT_FOUND | CONFLICT
| INTERNAL_SERVER_ERROR | OPERATION_FAILED.

(** [new ApiError(message, statusCode, errorCode)] *)
Record ApiError := mkApiError {
  message : string;
  statusCode : Z;
  errorCode : ErrorCode;
}.

(** what the driver and Mongoose throw *)
Inductive StoreError :=
| NetworkError        (* the round trip to the store failed *)
| CastError           (* a value does not cast to its schema type *)
| BSONError           (* [new ObjectId] on a malformed string *)
| ValidationError     (* a schema validator rejected the document *)
| DuplicateKeyError   (* a unique index rejected the write *)
| BadValueError.      (* the server rejected a query option *)

Inductive Exception :=
| StoreExn (e : StoreError)
| ApiExn (e : ApiError).

Inductive Outcome (A : Type) :=
| Return (a : A)
| Throw (e : Exception).
Arguments Return {A}.
Arguments Throw {A}.

(* ====================================================================== *)
(** ** The world an operation runs in *)
(* ====================================================================== *)

(** [blogs] is the collection, keyed by [_id]; [now] the reading of the
    clock; [faults] tells for each coming round trip to the store whether
    it fails (none left: it succeeds); [nextOid] numbers generated
    identifiers; [errorLog] collects what [logger.error] was given. *)
Record World := mkWorld {
  blogs : gmap string IBlog.t;
  now : Date;
  faults : list bool;
  nextOid : N;
  errorLog : list string;
}.

Definition M (A : Type) : Type := World → Outcome A * World.

Definition ret {A} (a : A) : M A := λ w, (Return a, w).

Definition throw {A} (e : Exception) : M A := λ w, (Throw e, w).

Definition bind {A B} (m : M A) (k : A → M B) : M B :=
  λ w, match m w with
       | (Return a, w') => k a w'
       | (Throw e, w') => (Throw e, w')
       end.

(** [try { body } catch (error) { handler }] *)
Definition try_catch {A} (body : M A) (handler : Exception → M A) : M A :=
  λ w, match body w with
       | (Return a, w') => (Return a, w')
       | (Throw e, w') => handler e w'
       end.

Notation "'let*' x ':=' m 'in' k" := (bind m (λ x, k))
  (at level 10, x name, m at level 100, k at level 200, only parsing).
Notation "'try' body 'catch' handler" := (try_catch body handler)
  (at level 10, body at level 100, handler at level 200, only parsing).

Definition set_blogs (b : gmap string IBlog.t) (w : World) : World :=
  mkWorld b (now w) (faults w) (nextOid w) (errorLog w).

Definition set_faults (f : list bool) (w : World) : World :=
  mkWorld (blogs w) (now w) f (nextOid w) (errorLog w).

Definition set_nextOid (n : N) (w : World) : World :=
  mkWorld (blogs w) (now w) (faults w) n (errorLog w).

Definition set_errorLog (l : list string) (w : World) : World :=
  mkWorld (blogs w) (now w) (faults w) (nextOid w) l.

Definition get_blogs : M (gmap string IBlog.t) := λ w, (Return (blogs w), w).

Definition put_blogs (b : gmap string IBlog.t) : M unit :=
  λ w, (Return tt, set_blogs b w).

(** [new Date()] *)
Definition new_Date : M Date := λ w, (Return (now w), w).

(** [logger.error(format, ...)] *)
Definition logger_error (format : string) : M unit :=
  λ w, (Return tt, set_errorLog (errorLog w ++ [format]) w).

(** one round trip to the store: it fails when the next fault is set *)
Definition roundTrip : M unit :=
  λ w, (match faults w with
        | true :: _ => Throw (StoreExn NetworkError)
        | _ => Return tt
        end, set_faults (tail (faults w)) w).

(** a fresh [ObjectId] from the driver *)
Definition generateOid : M ObjectId :=
  λ w, (Return (Types.ObjectId_generate (nextOid w)),
        set_nextOid (N.succ (nextOid w)) w).

Definition lift_option {A} (e : StoreError) (o : option A) : M A :=
  match o with Some a => ret a | None => throw (StoreExn e) end.

(** [Promise.all([a, b])]: both computations run; it rejects when one of
    them does. *)
Definition Promise_all2 {A B} (a : M A) (b : M B) : M (A * B) :=
  λ w, match a w with
       | (ra, w1) =>
           match b w1 with
           | (rb, w2) =>
               (match ra, rb with
                | Return x, Return y => Return (x, y)
                | Throw e, _ => Throw e
                | _, Throw e => Throw e
                end, w2)
           end
       end.

(* ====================================================================== *)
(** ** The collection: the Mongoose model [Blog] of [BlogSchema] *)
(* ====================================================================== *)

(** What the store decides on its own: which documents a text search
    matches (the weighted text index) and how [sort] orders documents on a
    key. A sort only reorders. *)
Class QueryEngine := {
  textMatch : string → IBlog.t → bool;
  sortBlogs : string → SortOrder → list IBlog.t → list IBlog.t;
  sortBlogs_perm : ∀ key order l, sortBlogs key order l ≡ₚ l;
}.

Module Schema.
Section Schema.
Context {js : Js.Engine}.

(** [title: { trim: true }] *)
Definition set_title (s : string) : string := Js.trim s.

(** [slug: { lowercase: true, trim: true }], also [tags] and
    [seo.keywords] *)
Definition set_lower_trim (s : string) : string := Js.toLowerCase (Js.trim s).

(** [FeaturedImageSchema]: [url: { trim: true }] *)
Definition set_featuredImage (i : IFeaturedImage) : IFeaturedImage :=
  mkFeaturedImage (Js.trim (url i)) (alt i) (caption i).

(** [SeoSchema]: [keywords: [{ lowercase: true, trim: true }]] *)
Definition set_seo (s : IBlogSEO) : IBlogSEO :=
  mkSEO (metaTitle s) (metaDescription s) (set_lower_trim <$> keywords s)
        (ogImage s).

(** [{ $set: updates }] as Mongoose casts it against [BlogSchema], with the
    cast [category]. The schema declares [slug] (and [author])
    [immutable: true]: casting removes an immutable path from the update,
    so a [slug] in [updates] is dropped and the stored one stays. String
    setters ([trim], [lowercase]) run on the values set, validators do
    not. [timestamps: true] makes every update stamp [updatedAt]. *)
Definition apply_set (u : IUpdateBlogDto.t) (category' : option ObjectId)
    (at_ : Date) (d : IBlog.t) : IBlog.t :=
  {| IBlog._id := IBlog._id d;
     IBlog.title := from_option set_title (IBlog.title d) (IUpdateBlogDto.title u);
     IBlog.slug := IBlog.slug d;
     IBlog.content := default (IBlog.content d) (IUpdateBlogDto.content u);
     IBlog.excerpt :=
       match IUpdateBlogDto.excerpt u with
       | Some e => Some e
       | None => IBlog.excerpt d
       end;
     IBlog.author := IBlog.author d;
     IBlog.category := default (IBlog.category d) category';
     IBlog.tags :=
       from_option (fmap set_lower_trim) (IBlog.tags d) (IUpdateBlogDto.tags u);
     IBlog.featuredImage :=
       from_option (fmap set_featuredImage) (IBlog.featuredImage d)
                   (IUpdateBlogDto.featuredImage u);
     IBlog.status := default (IBlog.status d) (IUpdateBlogDto.status u);
     IBlog.visibility := default (IBlog.visibility d) (IUpdateBlogDto.visibility u);
     IBlog.viewCount := IBlog.viewCount d;
     IBlog.likes := IBlog.likes d;
     IBlog.readTime := IBlog.readTime d;
     IBlog.seo := from_option (fmap set_seo) (IBlog.seo d) (IUpdateBlogDto.seo u);
     IBlog.publishedAt := default (IBlog.publishedAt d) (IUpdateBlogDto.publishedAt u);
     IBlog.scheduledFor := default (IBlog.scheduledFor d) (IUpdateBlogDto.scheduledFor u);
     IBlog.createdAt := IBlog.createdAt d;
     IBlog.updatedAt := at_ |}.

(** an update of the engagement fields: [likes] and [viewCount] become
    the given values, [updatedAt] the time of the update *)
Definition with_engagement (views : Z) (ls : list IBlogLikeMongo)
    (at_ : Date) (d : IBlog.t) : IBlog.t :=
  {| IBlog._id := IBlog._id d;
     IBlog.title := IBlog.title d;
     IBlog.slug := IBlog.slug d;
     IBlog.content := IBlog.content d;
     IBlog.excerpt := IBlog.excerpt d;
     IBlog.author := IBlog.author d;
     IBlog.category := IBlog.category d;
     IBlog.tags := IBlog.tags d;
     IBlog.featuredImage := IBlog.featuredImage d;
     IBlog.status := IBlog.status d;
     IBlog.visibility := IBlog.visibility d;
     IBlog.viewCount := views;
     IBlog.likes := ls;
     IBlog.readTime := IBlog.readTime d;
     IBlog.seo := IBlog.seo d;
     IBlog.publishedAt := IBlog.publishedAt d;
     IBlog.scheduledFor := IBlog.scheduledFor d;
     IBlog.createdAt := IBlog.createdAt d;
     IBlog.updatedAt := at_ |}.

(** the filter [{ "likes.user": u }], and inside [$not: { $elemMatch }] *)
Definition likedBy (u : ObjectId) (d : IBlog.t) : bool :=
  existsb (λ l, String.eqb (like_user l) u) (IBlog.likes d).

(** the update documents the repository sends *)
Inductive Update :=
| set_ (updates : IUpdateBlogDto.t)    (* { $set: updates } *)
| inc_viewCount (by_ : Z)              (* { $inc: { viewCount: by } } *)
| push_like (l : IBlogLikeMongo)       (* { $push: { likes: l } } *)
| pull_like (u : ObjectId).            (* { $pull: { likes: { user: u } } } *)

(** casting an update against the schema: [None] is a cast error,
    otherwise what the update does to a document at a given time *)
Definition castUpdate (u : Update) : option (Date → IBlog.t → IBlog.t) :=
  match u with
  | set_ updates =>
      match IUpdateBlogDto.category updates with
      | None => Some (apply_set updates None)
      | Some c =>
          match Types.ObjectId_new c with
          | Some c' => Some (apply_set updates (Some c'))
          | None => None
          end
      end
  | inc_viewCount by_ =>
      Some (λ at_ d, with_engagement (IBlog.viewCount d + by_) (IBlog.likes d) at_ d)
  | push_like l =>
      Some (λ at_ d, with_engagement (IBlog.viewCount d) (IBlog.likes d ++ [l]) at_ d)
  | pull_like u =>
      Some (λ at_ d,
            with_engagement (IBlog.viewCount d)
              (List.filter (λ l, negb (String.eqb (like_user l) u)) (IBlog.likes d))
              at_ d)
  end.

Definition required (s : string) : bool := Js.truthy s.

(** casting and validating the argument of [Blog.create]: the schema's
    setters, defaults, [required], [minlength] and [maxlength] *)
Definition castCreate (data : ICreateBlogDto.t) (oid : ObjectId) (at_ : Date)
    : option IBlog.t :=
  let title' := set_title (ICreateBlogDto.title data) in
  let content' := ICreateBlogDto.content data in
  slug' ← set_lower_trim <$> ICreateBlogDto.slug data;
  author' ← ICreateBlogDto.author data ≫= Types.ObjectId_new;
  category' ← Types.ObjectId_new (ICreateBlogDto.category data);
  let image' := set_featuredImage <$> ICreateBlogDto.featuredImage data in
  if required title' && (10 <=? Js.length title') && (Js.length title' <=? 200)
     && required slug'
     && required content' && (100 <=? Js.length content')
     && from_option (λ e, Js.length e <=? 300) true (ICreateBlogDto.excerpt data)
     && from_option (λ i, required (url i)) true image'
  then
    Some {| IBlog._id := oid;
            IBlog.title := title';
            IBlog.slug := slug';
            IBlog.content := content';
            IBlog.excerpt := ICreateBlogDto.excerpt data;
            IBlog.author := author';
            IBlog.category := category';
            IBlog.tags := set_lower_trim <$> default [] (ICreateBlogDto.tags data);
            IBlog.featuredImage := image';
            IBlog.status := default DRAFT (ICreateBlogDto.status data);
            IBlog.visibility := default PUBLIC (ICreateBlogDto.visibility data);
            IBlog.viewCount := 0;
            IBlog.likes := [];
            IBlog.readTime := 0;
            IBlog.seo := set_seo <$> ICreateBlogDto.seo data;
            IBlog.publishedAt := None;
            IBlog.scheduledFor := ICreateBlogDto.scheduledFor data;
            IBlog.createdAt := at_;
            IBlog.updatedAt := at_ |}
  else None.

End Schema.
End Schema.

(** the result of [updateOne] *)
Record UpdateResult := mkUpdateResult {
  matchedCount : Z;
  modifiedCount : Z;
}.

(** the filters of [find] and [countDocuments] *)
Inductive Filter :=
| filter_all                      (* {} *)
| filter_text (search : string).  (* { $text: { $search: search } } *)

Section Collection.
Context {js : Js.Engine} `{QueryEngine}.

(** the documents of the collection in the store's natural order *)
Definition documents (b : gmap string IBlog.t) : list IBlog.t :=
  (map_to_list b).*2.

Definition matches (f : Filter) (d : IBlog.t) : bool :=
  match f with
  | filter_all => true
  | filter_text search => textMatch search d
  end.

(** [Blog.findById(id).lean()] *)
Definition Blog_findById (id : string) : M (option IBlog.t) :=
  let* oid := lift_option CastError (Types.ObjectId_new id) in
  let* _ := roundTrip in
  let* b := get_blogs in
  ret (b !! oid).

(** [Blog.findOne({ slug }).lean()] *)
Definition Blog_findOne_slug (slug : string) : M (option IBlog.t) :=
  let slug' := Schema.set_lower_trim slug in
  let* _ := roundTrip in
  let* b := get_blogs in
  ret (List.find (λ d, String.eqb (IBlog.slug d) slug') (documents b)).

(** [Blog.findByIdAndUpdate(id, update, { new: returnNew })]: the
    document after the update when [returnNew], else the one before *)
Definition Blog_findByIdAndUpdate (id : string) (update : Schema.Update)
    (returnNew : bool) : M (option IBlog.t) :=
  let* oid := lift_option CastError (Types.ObjectId_new id) in
  let* change := lift_option CastError (Schema.castUpdate update) in
  let* at_ := new_Date in
  let* _ := roundTrip in
  let* b := get_blogs in
  match b !! oid with
  | None => ret None
  | Some d =>
      let* _ := put_blogs (<[oid := change at_ d]> b) in
      ret (Some (if returnNew then change at_ d else d))
  end.

(** [Blog.findByIdAndDelete(id)] *)
Definition Blog_findByIdAndDelete (id : string) : M (option IBlog.t) :=
  let* oid := lift_option CastError (Types.ObjectId_new id) in
  let* _ := roundTrip in
  let* b := get_blogs in
  match b !! oid with
  | None => ret None
  | Some d =>
      let* _ := put_blogs (base.delete oid b) in
      ret (Some d)
  end.

(** [Blog.updateOne({ _id: oid, ...guard }, update)]: one atomic step of
    the store, the guard and the update together. The two updates it is
    used with, a push and a pull of an element the guard found, always
    modify the document they match, so [modifiedCount] is [matchedCount]. *)
Definition Blog_updateOne (oid : ObjectId) (guard : IBlog.t → bool)
    (update : Schema.Update) : M UpdateResult :=
  let* change := lift_option CastError (Schema.castUpdate update) in
  let* at_ := new_Date in
  let* _ := roundTrip in
  let* b := get_blogs in
  match b !! oid with
  | Some d =>
      if guard d then
        let* _ := put_blogs (<[oid := change at_ d]> b) in
        ret (mkUpdateResult 1 1)
      else ret (mkUpdateResult 0 0)
  | None => ret (mkUpdateResult 0 0)
  end.

(** [Blog.find(filter).sort({ [sortBy]: order }).skip(skip).limit(limit)
    .lean()]: the server rejects a negative skip; a limit of 0 is no
    limit, a negative one is its absolute value. *)
Definition Blog_find (f : Filter) (sortBy : string) (order : SortOrder)
    (skip limit : Z) : M (list IBlog.t) :=
  let* _ := roundTrip in
  if skip <? 0 then throw (StoreExn BadValueError)
  else
    let* b := get_blogs in
    let sorted := sortBlogs sortBy order (List.filter (matches f) (documents b)) in
    let skipped := drop (Z.to_nat skip) sorted in
    ret (if limit =? 0 then skipped else take (Z.to_nat (Z.abs limit)) skipped).

(** [Blog.countDocuments(filter)] *)
Definition Blog_countDocuments (f : Filter) : M Z :=
  let* _ := roundTrip in
  let* b := get_blogs in
  ret (Z.of_nat (List.length (List.filter (matches f) (documents b)))).

(** [Blog.create(data)]: the unique indexes on [_id] and [slug] reject a
    duplicate *)
Definition Blog_create (data : ICreateBlogDto.t) : M IBlog.t :=
  let* oid := generateOid in
  let* at_ := new_Date in
  let* doc := lift_option ValidationError (Schema.castCreate data oid at_) in
  let* _ := roundTrip in
  let* b := get_blogs in
  if bool_decide (is_Some (b !! oid))
     || existsb (λ d, String.eqb (IBlog.slug d) (IBlog.slug doc)) (documents b)
  then throw (StoreExn DuplicateKeyError)
  else
    let* _ := put_blogs (<[oid := doc]> b) in
    ret doc.

End Collection.

(* ====================================================================== *)
(** ** The repository (blog.repository.ts) *)
(* ====================================================================== *)

(** [boolean | null]: the three outcomes of a guarded mutation *)
Inductive TriState :=
| js_true      (* the mutation was applied *)
| js_null      (* nothing matched: not found, or not applicable *)
| js_false.    (* the store failed *)

(** [!value] on a [boolean | null] *)
Definition TriState_falsy (v : TriState) : bool :=
  match v with js_true => false | js_null | js_false => true end.

(** the interface [IBlogRepository] the service is constructed with *)
Module IBlogRepository.
Record t := mk {
  create : ICreateBlogDto.t → M (option IBlogPostEntity.t);
  findAll : IQueryParams.t → M (PaginatedData IBlogPostEntity.t);
  findById : string → M (option IBlogPostEntity.t);
  findBySlug : string → M (option IBlogPostEntity.t);
  updateById : string → IUpdateBlogDto.t → M (option IBlogPostEntity.t);
  deleteById : string → M bool;
  incrementViewCount : string → M TriState;
  addLike : string → string → M TriState;
  removeLike : string → string → M TriState;
  schedule : string → Date → M (option IBlogPostEntity.t);
  publish : string → M (option IBlogPostEntity.t);
  archive : string → M (option IBlogPostEntity.t);
}.
End IBlogRepository.

Module BlogRepository.
Section BlogRepository.
Context {js : Js.Engine} `{QueryEngine}.

Definition normalize (blog : IBlog.t) : IBlogPostEntity.t :=
  {| IBlogPostEntity.id := IBlog._id blog;
     IBlogPostEntity.title := IBlog.title blog;
     IBlogPostEntity.slug := IBlog.slug blog;
     IBlogPostEntity.content := IBlog.content blog;
     IBlogPostEntity.excerpt := IBlog.excerpt blog;
     IBlogPostEntity.author := IBlog.author blog;
     IBlogPostEntity.category := IBlog.category blog;
     IBlogPostEntity.tags := IBlog.tags blog;
     IBlogPostEntity.featuredImage := IBlog.featuredImage blog;
     IBlogPostEntity.status := IBlog.status blog;
     IBlogPostEntity.visibility := IBlog.visibility blog;
     IBlogPostEntity.viewCount := IBlog.viewCount blog;
     IBlogPostEntity.likes :=
       (λ l, mkLike (like_user l) (like_likedAt l)) <$> IBlog.likes blog;
     IBlogPostEntity.readTime := IBlog.readTime blog;
     IBlogPostEntity.seo := IBlog.seo blog;
     IBlogPostEntity.publishedAt := IBlog.publishedAt blog;
     IBlogPostEntity.scheduledFor := IBlog.scheduledFor blog;
     IBlogPostEntity.createdAt := IBlog.createdAt blog;
     IBlogPostEntity.updatedAt := IBlog.updatedAt blog |}.

Definition create (data : ICreateBlogDto.t) : M (option IBlogPostEntity.t) :=
  try
    (let* blog := Blog_create data in
     ret (Some (normalize blog)))
  catch (λ error,
    let* _ := logger_error "Error creating blog post: %o" in
    ret None).

Definition findAll (params : IQueryParams.t)
    : M (PaginatedData IBlogPostEntity.t) :=
  try
    (let page := default 1 (IQueryParams.page params) in
     let limit := default 10 (IQueryParams.limit params) in
     let search := default "" (IQueryParams.search params) in
     let sortBy := default "createdAt" (IQueryParams.sortBy params) in
     let sortOrder := default desc (IQueryParams.sortOrder params) in
     let skip := (page - 1) * limit in
     let filter :=
       if Js.truthy (Js.trim search) then filter_text search else filter_all in
     let direction := match sortOrder with asc => asc | desc => desc end in
     let* found :=
       Promise_all2 (Blog_find filter sortBy direction skip limit)
                    (Blog_countDocuments filter) in
     let blogs := found.1 in
     let total := found.2 in
     ret {| data := normalize <$> blogs;
            pagination :=
              {| pg_page := page;
                 pg_limit := limit;
                 pg_total := total;
                 pg_totalPages := Math_ceil_div total limit |} |})
  catch (λ error,
    let* _ := logger_error "Error fetching blogs: %o" in
    ret {| data := [];
           pagination :=
             {| pg_page := 1;
                pg_limit := 10;
                pg_total := 0;
                pg_totalPages := Finite 0 |} |}).

Definition findById (id : string) : M (option IBlogPostEntity.t) :=
  try
    (if negb (Types.ObjectId_isValid id) then ret None
     else
       let* blog := Blog_findById id in
       ret (normalize <$> blog))
  catch (λ error,
    let* _ := logger_error "Error finding blog by id %s: %o" in
    ret None).

Definition findBySlug (slug : string) : M (option IBlogPostEntity.t) :=
  try
    (let* blog := Blog_findOne_slug slug in
     ret (normalize <$> blog))
  catch (λ error,
    let* _ := logger_error "Error finding blog by slug %s: %o" in
    ret None).

Definition updateById (id : string) (updates : IUpdateBlogDto.t)
    : M (option IBlogPostEntity.t) :=
  try
    (let* updated := Blog_findByIdAndUpdate id (Schema.set_ updates) true in
     ret (normalize <$> updated))
  catch (λ error,
    let* _ := logger_error "Error updating blog %s: %o" in
    ret None).

Definition deleteById (id : string) : M bool :=
  try
    (let* deleted := Blog_findByIdAndDelete id in
     ret (bool_decide (is_Some deleted)))
  catch (λ error,
    let* _ := logger_error "Error deleting blog %s: %o" in
    ret false).

Definition incrementViewCount (id : string) : M TriState :=
  try
    (let* result := Blog_findByIdAndUpdate id (Schema.inc_viewCount 1) false in
     match result with
     | None => ret js_null
     | Some _ => ret js_true
     end)
  catch (λ error,
    let* _ := logger_error "Error incrementing view count for %s: %o" in
    ret js_false).

Definition addLike (postId userId : string) : M TriState :=
  try
    (let* postObjectId := lift_option BSONError (Types.ObjectId_new postId) in
     let* userObjectId := lift_option BSONError (Types.ObjectId_new userId) in
     let* likedAt := new_Date in
     let* result :=
       Blog_updateOne postObjectId
         (λ d, negb (Schema.likedBy userObjectId d))
         (Schema.push_like (mkLikeMongo userObjectId likedAt)) in
     if (matchedCount result =? 0) || (modifiedCount result =? 0)
     then ret js_null
     else ret js_true)
  catch (λ error,
    let* _ := logger_error "Error adding like to %s: %o" in
    ret js_false).

Definition removeLike (postId userId : string) : M TriState :=
  try
    (let* postObjectId := lift_option BSONError (Types.ObjectId_new postId) in
     let* userObjectId := lift_option BSONError (Types.ObjectId_new userId) in
     let* result :=
       Blog_updateOne postObjectId
         (Schema.likedBy userObjectId)
         (Schema.pull_like userObjectId) in
     if (matchedCount result =? 0) || (modifiedCount result =? 0)
     then ret js_null
     else ret js_true)
  catch (λ error,
    let* _ := logger_error "Error removing like from %s: %o" in
    ret js_false).

Definition schedule (postId : string) (publishDate : Date)
    : M (option IBlogPostEntity.t) :=
  updateById postId
    {| IUpdateBlogDto.title := None; IUpdateBlogDto.slug := None;
       IUpdateBlogDto.content := None; IUpdateBlogDto.excerpt := None;
       IUpdateBlogDto.category := None; IUpdateBlogDto.tags := None;
       IUpdateBlogDto.featuredImage := None;
       IUpdateBlogDto.status := Some SCHEDULED;
       IUpdateBlogDto.visibility := None; IUpdateBlogDto.seo := None;
       IUpdateBlogDto.publishedAt := None;
       IUpdateBlogDto.scheduledFor := Some (Some publishDate) |}.

Definition publish (postId : string) : M (option IBlogPostEntity.t) :=
  let* publishedAt := new_Date in
  let* scheduledFor := new_Date in
  updateById postId
    {| IUpdateBlogDto.title := None; IUpdateBlogDto.slug := None;
       IUpdateBlogDto.content := None; IUpdateBlogDto.excerpt := None;
       IUpdateBlogDto.category := None; IUpdateBlogDto.tags := None;
       IUpdateBlogDto.featuredImage := None;
       IUpdateBlogDto.status := Some PUBLISHED;
       IUpdateBlogDto.visibility := None; IUpdateBlogDto.seo := None;
       IUpdateBlogDto.publishedAt := Some (Some publishedAt);
       IUpdateBlogDto.scheduledFor := Some (Some scheduledFor) |}.

Definition archive (postId : string) : M (option IBlogPostEntity.t) :=
  updateById postId
    {| IUpdateBlogDto.title := None; IUpdateBlogDto.slug := None;
       IUpdateBlogDto.content := None; IUpdateBlogDto.excerpt := None;
       IUpdateBlogDto.category := None; IUpdateBlogDto.tags := None;
       IUpdateBlogDto.featuredImage := None;
       IUpdateBlogDto.status := Some ARCHIVED;
       IUpdateBlogDto.visibility := None; IUpdateBlogDto.seo := None;
       IUpdateBlogDto.publishedAt := None;
       IUpdateBlogDto.scheduledFor := None |}.

(** [new BlogRepository()] *)
Definition new : IBlogRepository.t :=
  {| IBlogRepository.create := create;
     IBlogRepository.findAll := findAll;
     IBlogRepository.findById := findById;
     IBlogRepository.findBySlug := findBySlug;
     IBlogRepository.updateById := updateById;
     IBlogRepository.deleteById := deleteById;
     IBlogRepository.incrementViewCount := incrementViewCount;
     IBlogRepository.addLike := addLike;
     IBlogRepository.removeLike := removeLike;
     IBlogRepository.schedule := schedule;
     IBlogRepository.publish := publish;
     IBlogRepository.archive := archive |}.

End BlogRepository.
End BlogRepository.

(* ====================================================================== *)
(** ** The service (blog.service.ts) *)
(* ====================================================================== *)

Module BlogService.
Section BlogService.
(** [constructor(private readonly blogRepository: IBlogRepository)] *)
Variable blogRepository : IBlogRepository.t.

(** [slugify(title, { lower: true, strict: true })] of the slugify
    package *)
Variable slugify : string → string.

Definition ApiError_new {A} (msg : string) (code : Z) (e : ErrorCode) : M A :=
  throw (ApiExn (mkApiError msg code e)).

Definition create (post : ICreateBlogDto.t) : M IBlogPostEntity.t :=
  if negb (Js.truthy (ICreateBlogDto.title post))
     || negb (Js.truthy (ICreateBlogDto.content post))
  then ApiError_new "Title and content are required" 400 BAD_REQUEST
  else
    let slug :=
      match ICreateBlogDto.slug post with
      | Some s => s
      | None => slugify (ICreateBlogDto.title post)
      end in
    let payload :=
      {| ICreateBlogDto.title := ICreateBlogDto.title post;
         ICreateBlogDto.slug := Some slug;
         ICreateBlogDto.content := ICreateBlogDto.content post;
         ICreateBlogDto.excerpt := ICreateBlogDto.excerpt post;
         ICreateBlogDto.author := ICreateBlogDto.author post;
         ICreateBlogDto.category := ICreateBlogDto.category post;
         ICreateBlogDto.tags := ICreateBlogDto.tags post;
         ICreateBlogDto.featuredImage := ICreateBlogDto.featuredImage post;
         ICreateBlogDto.status := Some (default DRAFT (ICreateBlogDto.status post));
         ICreateBlogDto.visibility :=
           Some (default PUBLIC (ICreateBlogDto.visibility post));
         ICreateBlogDto.seo := ICreateBlogDto.seo post;
         ICreateBlogDto.scheduledFor := ICreateBlogDto.scheduledFor post |} in
    let* created := IBlogRepository.create blogRepository payload in
    match created with
    | None => ApiError_new "Failed to create blog post" 500 INTERNAL_SERVER_ERROR
    | Some created => ret created
    end.

Definition getById (id : string) (includeDrafts : bool)
    : M IBlogPostEntity.t :=
  let* blog := IBlogRepository.findById blogRepository id in
  match blog with
  | None => ApiError_new "Blog post not found" 404 NOT_FOUND
  | Some blog =>
      if negb includeDrafts
         && IBlogPostStatus_eqb (IBlogPostEntity.status blog) DRAFT
      then ApiError_new "Blog post is not published" 403 FORBIDDEN
      else ret blog
  end.

Definition getBySlug (slug : string) (includeDrafts : bool)
    : M IBlogPostEntity.t :=
  let* blog := IBlogRepository.findBySlug blogRepository slug in
  match blog with
  | None => ApiError_new "Blog post not found" 404 NOT_FOUND
  | Some blog =>
      if negb includeDrafts
         && IBlogPostStatus_eqb (IBlogPostEntity.status blog) DRAFT
      then ApiError_new "Blog post is not published" 403 FORBIDDEN
      else ret blog
  end.

Definition getAll (query : IQueryParams.t)
    : M (PaginatedData IBlogPostEntity.t) :=
  let* result := IBlogRepository.findAll blogRepository query in
  if negb (Js.truthyArray (data result))
  then ApiError_new "No blog posts found" 404 NOT_FOUND
  else ret result.

Definition update (id : string) (updateData : IUpdateBlogDto.t)
    : M IBlogPostEntity.t :=
  if negb (Js.truthy id)
  then ApiError_new "Blog ID is required" 400 BAD_REQUEST
  else if (IUpdateBlogDto.keyCount updateData =? 0)%nat
  then ApiError_new "No update data provided" 400 BAD_REQUEST
  else
    let* existing := IBlogRepository.findById blogRepository id in
    match existing with
    | None => ApiError_new "Blog post not found" 404 NOT_FOUND
    | Some _ =>
        let* updated := IBlogRepository.updateById blogRepository id updateData in
        match updated with
        | None => ApiError_new "Failed to update blog post" 500 INTERNAL_SERVER_ERROR
        | Some updated => ret updated
        end
    end.

Definition delete (id : string) : M bool :=
  let* deleted := IBlogRepository.deleteById blogRepository id in
  if negb deleted
  then ApiError_new "Blog post not found" 404 NOT_FOUND
  else ret true.

Definition incrementViewCount (id : string) : M bool :=
  let* result := IBlogRepository.incrementViewCount blogRepository id in
  match result with
  | js_null => ApiError_new "Blog post not found" 404 NOT_FOUND
  | js_false =>
      ApiError_new "Failed to increment view count" 500 INTERNAL_SERVER_ERROR
  | js_true => ret true
  end.

Definition addLike (postId userId : string) : M bool :=
  let* post := IBlogRepository.findById blogRepository postId in
  match post with
  | None => ApiError_new "Blog post not found" 404 NOT_FOUND
  | Some _ =>
      let* success := IBlogRepository.addLike blogRepository postId userId in
      if TriState_falsy success
      then ApiError_new "Blog already liked" 409 CONFLICT
      else ret true
  end.

Definition removeLike (postId userId : string) : M bool :=
  let* post := IBlogRepository.findById blogRepository postId in
  match post with
  | None => ApiError_new "Blog post not found" 404 NOT_FOUND
  | Some _ =>
      let* success := IBlogRepository.removeLike blogRepository postId userId in
      if TriState_falsy success
      then ApiError_new "Like not found" 409 CONFLICT
      else ret true
  end.

Definition schedule (postId : string) (publishDate : Date)
    : M IBlogPostEntity.t :=
  let* today := new_Date in
  if publishDate <=? today
  then ApiError_new "Publish date must be in the future" 400 BAD_REQUEST
  else
    let* post := IBlogRepository.findById blogRepository postId in
    match post with
    | None => ApiError_new "Blog post not found" 404 NOT_FOUND
    | Some _ =>
        let* scheduled :=
          IBlogRepository.schedule blogRepository postId publishDate in
        match scheduled with
        | None =>
            ApiError_new "Failed to schedule blog post" 500 INTERNAL_SERVER_ERROR
        | Some scheduled => ret scheduled
        end
    end.

Definition publish (postId : string) : M IBlogPostEntity.t :=
  let* post := IBlogRepository.findById blogRepository postId in
  match post with
  | None => ApiError_new "Blog post not found" 404 NOT_FOUND
  | Some post =>
      if IBlogPostStatus_eqb (IBlogPostEntity.status post) PUBLISHED
      then ApiError_new "Blog post already published" 409 CONFLICT
      else
        let* published := IBlogRepository.publish blogRepository postId in
        match published with
        | None =>
            ApiError_new "Failed to publish blog post" 500 INTERNAL_SERVER_ERROR
        | Some published => ret published
        end
  end.

Definition archive (postId : string) : M IBlogPostEntity.t :=
  let* post := IBlogRepository.findById blogRepository postId in
  match post with
  | None => ApiError_new "Blog post not found" 404 NOT_FOUND
  | Some _ =>
      let* archived := IBlogRepository.archive blogRepository postId in
      match archived with
      | None =>
          ApiError_new "Failed to archive blog post" 500 INTERNAL_SERVER_ERROR
      | Some archived => ret archived
      end
  end.

End BlogService.
End BlogService.

(* ====================================================================== *)
(** ** The controller (blog.controller.ts) *)
(* ====================================================================== *)

(** [IAuthUser] (auth.dto): the controller reads its [id] only *)
Record IAuthUser := mkAuthUser {
  auth_id : string;
}.

(** what [ApiResponse.success(res, message, data, statusCode)] was given;
    the status code may be left out *)
Record ApiResponse (T : Type) := mkApiResponse {
  res_message : string;
  res_data : T;
  res_statusCode : option Z;
}.
Arguments mkApiResponse {T}.
Arguments res_message {T}.
Arguments res_data {T}.
Arguments res_statusCode {T}.

Module BlogController.
Section BlogController.
(** the service, [new BlogService(blogRepository)] *)
Variable blogRepository : IBlogRepository.t.
Variable slugify : string → string.

(** [create(req, res)], with [req.user] and [req.body] *)
Definition create (user : option IAuthUser) (body : option ICreateBlogDto.t)
    : M (ApiResponse IBlogPostEntity.t) :=
  match user with
  | None => BlogService.ApiError_new "Unauthorized" 401 UNAUTHORIZED
  | Some authUser =>
      match body with
      | None => BlogService.ApiError_new "Request body is required" 400 BAD_REQUEST
      | Some data =>
          let* blog :=
            BlogService.create blogRepository slugify
              {| ICreateBlogDto.title := ICreateBlogDto.title data;
                 ICreateBlogDto.slug := ICreateBlogDto.slug data;
                 ICreateBlogDto.content := ICreateBlogDto.content data;
                 ICreateBlogDto.excerpt := ICreateBlogDto.excerpt data;
                 ICreateBlogDto.author := Some (auth_id authUser);
                 ICreateBlogDto.category := ICreateBlogDto.category data;
                 ICreateBlogDto.tags := ICreateBlogDto.tags data;
                 ICreateBlogDto.featuredImage := ICreateBlogDto.featuredImage data;
                 ICreateBlogDto.status := ICreateBlogDto.status data;
                 ICreateBlogDto.visibility := ICreateBlogDto.visibility data;
                 ICreateBlogDto.seo := ICreateBlogDto.seo data;
                 ICreateBlogDto.scheduledFor := ICreateBlogDto.scheduledFor data |} in
          ret (mkApiResponse "Blog post created successfully" blog (Some 201))
      end
  end.

End BlogController.
End BlogController.

(* ====================================================================== *)
(** ** The exposed operations (the DI chain of blog.routes.ts) *)
(* ====================================================================== *)

(** a call of one of the twelve operations of [IBlogService] *)
Inductive Request :=
| Create (post : ICreateBlogDto.t)
| GetById (id : string) (includeDrafts : bool)
| GetBySlug (slug : string) (includeDrafts : bool)
| GetAll (query : IQueryParams.t)
| Update (id : string) (updateData : IUpdateBlogDto.t)
| Delete (id : string)
| IncrementViewCount (id : string)
| AddLike (postId userId : string)
| RemoveLike (postId userId : string)
| Schedule (postId : string) (publishDate : Date)
| Publish (postId : string)
| Archive (postId : string).

Section Wiring.
Context {js : Js.Engine} `{QueryEngine}.
Variable slugify : string → string.

(** [const blogRepository = new BlogRepository()] *)
Definition blogRepository : IBlogRepository.t := BlogRepository.new.

Definition discard {A} (m : M A) : M unit :=
  let* _ := m in ret tt.

(** the service [new BlogService(blogRepository)] serving a request, its
    value dropped *)
Definition serve (r : Request) : M unit :=
  match r with
  | Create post => discard (BlogService.create blogRepository slugify post)
  | GetById id includeDrafts =>
      discard (BlogService.getById blogRepository id includeDrafts)
  | GetBySlug slug includeDrafts =>
      discard (BlogService.getBySlug blogRepository slug includeDrafts)
  | GetAll query => discard (BlogService.getAll blogRepository query)
  | Update id updateData =>
      discard (BlogService.update blogRepository id updateData)
  | Delete id => discard (BlogService.delete blogRepository id)
  | IncrementViewCount id =>
      discard (BlogService.incrementViewCount blogRepository id)
  | AddLike postId userId =>
      discard (BlogService.addLike blogRepository postId userId)
  | RemoveLike postId userId =>
      discard (BlogService.removeLike blogRepository postId userId)
  | Schedule postId publishDate =>
      discard (BlogService.schedule blogRepository postId publishDate)
  | Publish postId => discard (BlogService.publish blogRepository postId)
  | Archive postId => discard (BlogService.archive blogRepository postId)
  end.

End Wiring.

(* ====================================================================== *)
(** ** Vocabulary of the statements *)
(* ====================================================================== *)

(** the post a string identifier denotes in a world, if any *)
Definition stored (w : World) (id : string) : option IBlog.t :=
  Types.ObjectId_new id ≫= λ oid, blogs w !! oid.

(** the post a slug denotes in a world, if any *)
Definition storedBySlug `{Js.Engine} (w : World) (slug : string)
    : option IBlog.t :=
  List.find (λ d, String.eqb (IBlog.slug d) (Schema.set_lower_trim slug))
            (documents (blogs w)).

(** the next [n] round trips to the store succeed *)
Definition healthy (n : nat) (w : World) : Prop :=
  Forall (λ fault, fault = false) (take n (faults w)).

(** one of the next [n] round trips to the store fails *)
Definition failing (n : nat) (w : World) : Prop :=
  Exists (λ fault, fault = true) (take n (faults w)).

(** a post holds at most one like of each user *)
Definition likesUnique (d : IBlog.t) : Prop :=
  NoDup (like_user <$> IBlog.likes d).

(** every post of the collection holds at most one like of each user *)
Definition LikesInvariant (w : World) : Prop :=
  map_Forall (λ _ d, likesUnique d) (blogs w).

(** the service errors by kind *)
Definition NotFound (msg : string) : Exception :=
  ApiExn (mkApiError msg 404 NOT_FOUND).
Definition Forbidden (msg : string) : Exception :=
  ApiExn (mkApiError msg 403 FORBIDDEN).
Definition Conflict (msg : string) : Exception :=
  ApiExn (mkApiError msg 409 CONFLICT).
Definition BadRequest (msg : string) : Exception :=
  ApiExn (mkApiError msg 400 BAD_REQUEST).
Definition InternalError (msg : string) : Exception :=
  ApiExn (mkApiError msg 500 INTERNAL_SERVER_ERROR).

(** the world once a round trip is over *)
Definition tick (w : World) : World := set_faults (tail (faults w)) w.

(** a computation that never changes the collection *)
Definition Silent {A} (m : M A) : Prop :=
  ∀ w, blogs (m w).2 = blogs w.

(** how one operation may change the collection: a post that is there
    afterwards either was there with the same slug, and has at most one
    like of each user if it had, or is new and has no like *)
Definition Evolves (b b' : gmap string IBlog.t) : Prop :=
  ∀ oid d', b' !! oid = Some d' →
    match b !! oid with
    | Some d => IBlog.slug d' = IBlog.slug d ∧ (likesUnique d → likesUnique d')
    | None => IBlog.likes d' = []
    end.

Definition Evolving {A} (m : M A) : Prop :=
  ∀ w, Evolves (blogs w) (blogs (m w).2).

(** the page [findAll] answers with when the store failed *)
Definition emptyPage : PaginatedData IBlogPostEntity.t :=
  {| data := [];
     pagination :=
       {| pg_page := 1; pg_limit := 10; pg_total := 0;
          pg_totalPages := Finite 0 |} |}.

(** the page and the page size of a query, with the defaults of [findAll] *)
Definition pageOf (params : IQueryParams.t) : Z :=
  default 1 (IQueryParams.page params).

Definition limitOf (params : IQueryParams.t) : Z :=
  default 10 (IQueryParams.limit params).

(** the filter [findAll] builds from the search term of a query *)
Definition filterOf (params : IQueryParams.t) : Filter :=
  let search := default "" (IQueryParams.search params) in
  if Js.truthy (Js.trim search) then filter_text search else filter_all.

(** the posts a query matches, in the order [findAll] sorts them *)
Definition matching `{QueryEngine} (params : IQueryParams.t) (w : World)
    : list IBlog.t :=
  sortBlogs (default "createdAt" (IQueryParams.sortBy params))
            (default desc (IQueryParams.sortOrder params))
            (List.filter (matches (filterOf params)) (documents (blogs w))).

(** the fields of a post other than [status], [publishedAt],
    [scheduledFor] and [updatedAt] are the same *)
Definition sameContent (d d' : IBlog.t) : Prop :=
  IBlog._id d' = IBlog._id d ∧ IBlog.title d' = IBlog.title d
  ∧ IBlog.slug d' = IBlog.slug d ∧ IBlog.content d' = IBlog.content d
  ∧ IBlog.excerpt d' = IBlog.excerpt d ∧ IBlog.author d' = IBlog.author d
  ∧ IBlog.category d' = IBlog.category d ∧ IBlog.tags d' = IBlog.tags d
  ∧ IBlog.featuredImage d' = IBlog.featuredImage d
  ∧ IBlog.visibility d' = IBlog.visibility d
  ∧ IBlog.viewCount d' = IBlog.viewCount d ∧ IBlog.likes d' = IBlog.likes d
  ∧ IBlog.readTime d' = IBlog.readTime d ∧ IBlog.seo d' = IBlog.seo d
  ∧ IBlog.createdAt d' = IBlog.createdAt d.

(* ====================================================================== *)
(** ** Vocabulary of the further statements *)
(* ====================================================================== *)

(** what a write to a post keeps: its identity, slug, author and creation
    time; its views do not go down; its likes stay unique per user *)
Definition Kept (d d' : IBlog.t) : Prop :=
  IBlog._id d' = IBlog._id d
  ∧ IBlog.slug d' = IBlog.slug d
  ∧ IBlog.author d' = IBlog.author d
  ∧ IBlog.createdAt d' = IBlog.createdAt d
  ∧ IBlog.viewCount d ≤ IBlog.viewCount d'
  ∧ (likesUnique d → likesUnique d').

(** what a post inserted under [oid] is: it carries that identifier, has
    no view and no like, and its slug is the slug of no post there *)
Definition Fresh (b : gmap string IBlog.t) (oid : string) (d' : IBlog.t)
    : Prop :=
  IBlog._id d' = oid
  ∧ IBlog.viewCount d' = 0
  ∧ IBlog.likes d' = []
  ∧ ∀ o d, b !! o = Some d → IBlog.slug d ≠ IBlog.slug d'.

(** the collection after one operation: as it was, or with one post
    written, or one deleted, or one inserted *)
Inductive Step (b : gmap string IBlog.t) : gmap string IBlog.t → Prop :=
| step_none : Step b b
| step_write oid d d' :
    b !! oid = Some d → Kept d d' → Step b (<[oid := d']> b)
| step_delete oid : Step b (base.delete oid b)
| step_insert oid d' :
    b !! oid = None → Fresh b oid d' → Step b (<[oid := d']> b).

Definition Stepping {A} (m : M A) : Prop :=
  ∀ w, Step (blogs w) (blogs (m w).2).

(** every post is stored under its own identifier *)
Definition WellKeyed (b : gmap string IBlog.t) : Prop :=
  ∀ oid d, b !! oid = Some d → IBlog._id d = oid.

(** no two posts have the same slug *)
Definition SlugsUnique (b : gmap string IBlog.t) : Prop :=
  ∀ o1 o2 d1 d2, b !! o1 = Some d1 → b !! o2 = Some d2 →
    IBlog.slug d1 = IBlog.slug d2 → o1 = o2.

(** no post has a negative number of views *)
Definition ViewsNonNegative (b : gmap string IBlog.t) : Prop :=
  ∀ oid d, b !! oid = Some d → 0 ≤ IBlog.viewCount d.

(** the fields of a post other than [viewCount], [likes] and [updatedAt]
    are the same *)
Definition sameButEngagement (d d' : IBlog.t) : Prop :=
  IBlog._id d' = IBlog._id d ∧ IBlog.title d' = IBlog.title d
  ∧ IBlog.slug d' = IBlog.slug d ∧ IBlog.content d' = IBlog.content d
  ∧ IBlog.excerpt d' = IBlog.excerpt d ∧ IBlog.author d' = IBlog.author d
  ∧ IBlog.category d' = IBlog.category d ∧ IBlog.tags d' = IBlog.tags d
  ∧ IBlog.featuredImage d' = IBlog.featuredImage d
  ∧ IBlog.status d' = IBlog.status d
  ∧ IBlog.visibility d' = IBlog.visibility d
  ∧ IBlog.readTime d' = IBlog.readTime d ∧ IBlog.seo d' = IBlog.seo d
  ∧ IBlog.publishedAt d' = IBlog.publishedAt d
  ∧ IBlog.scheduledFor d' = IBlog.scheduledFor d
  ∧ IBlog.createdAt d' = IBlog.createdAt d.

(** the world after [n] calls of an operation, one after the other *)
Definition repeatedly {A} (n : nat) (m : M A) (w : World) : World :=
  Nat.iter n (λ w', (m w').2) w.

(** a query for another page *)
Definition withPage (params : IQueryParams.t) (page : Z) : IQueryParams.t :=
  {| IQueryParams.page := Some page;
     IQueryParams.limit := IQueryParams.limit params;
     IQueryParams.search := IQueryParams.search params;
     IQueryParams.sortBy := IQueryParams.sortBy params;
     IQueryParams.sortOrder := IQueryParams.sortOrder params |}.

(** a query with another search term *)
Definition withSearch (params : IQueryParams.t) (search : option string)
    : IQueryParams.t :=
  {| IQueryParams.page := IQueryParams.page params;
     IQueryParams.limit := IQueryParams.limit params;
     IQueryParams.search := search;
     IQueryParams.sortBy := IQueryParams.sortBy params;
     IQueryParams.sortOrder := IQueryParams.sortOrder params |}.

(** the items of the pages 1 to [n] of a query, each asked of the world
    [w] *)
Definition pagesUpTo `{QueryEngine} (params : IQueryParams.t) (w : World)
    (n : nat) : list IBlogPostEntity.t :=
  List.concat ((λ p, match (BlogRepository.findAll
                         (withPage params (Z.of_nat p)) w).1 with
                | Return r => data r
                | Throw _ => []
                end) <$> seq 1 n).

(* ====================================================================== *)
(** ** Validation (blog.validation.ts) *)
(* ====================================================================== *)

Module Validation.

(** the class [[a-z0-9]] *)
Definition isSlugChar (c : ascii) : bool :=
  let n := nat_of_ascii c in
  ((Nat.leb 48 n && Nat.leb n 57) || (Nat.leb 97 n && Nat.leb n 122))%bool.

(** the rest of a match of [[a-z0-9]+(?:-[a-z0-9]+)*$]: [inWord] tells
    whether the character before was of the class, so that the string may
    end, or a hyphen follow *)
Fixpoint slugRest (s : string) (inWord : bool) : bool :=
  match s with
  | EmptyString => inWord
  | String c r =>
      if isSlugChar c then slugRest r true
      else if Ascii.eqb c "-"%char then inWord && slugRest r false
      else false
  end.

(** the slug pattern of [createBlogSchema] and [updateBlogSchema],
    [/^[a-z0-9]+(?:-[a-z0-9]+)*$/] *)
Definition slugPattern (s : string) : bool := slugRest s false.

End Validation.

(* ====================================================================== *)
(** ** A query engine to run the model with *)
(* ====================================================================== *)

(** A small engine for concrete runs: a text search matches the posts
    whose title contains the term, and the sortable keys are the numeric
    ones. The statements below hold for every engine. *)
Module ReferenceEngine.

Fixpoint contains (needle hay : string) : bool :=
  String.prefix needle hay
  || match hay with
     | EmptyString => false
     | String _ rest => contains needle rest
     end.

Definition sortKey (key : string) (d : IBlog.t) : Z :=
  if String.eqb key "createdAt" then IBlog.createdAt d
  else if String.eqb key "updatedAt" then IBlog.updatedAt d
  else if String.eqb key "viewCount" then IBlog.viewCount d
  else if String.eqb key "readTime" then IBlog.readTime d
  else 0.

Definition before (key : string) (order : SortOrder) (a b : IBlog.t) : Prop :=
  match order with
  | asc => sortKey key a ≤ sortKey key b
  | desc => sortKey key b ≤ sortKey key a
  end.

#[export] Instance before_dec key order : RelDecision (before key order).
Proof. intros a b. destruct order; simpl; apply _. Defined.

(** an engine to lower-case text of 7-bit ASCII with, as the sample
    collections need it; other text it keeps as it is *)
#[export] Instance js : Js.Engine :=
  {| Js.toLowerCase := Js.lowerAscii;
     Js.toLowerCase_ascii s _ := eq_refl |}.

#[export] Instance engine : QueryEngine :=
  {| textMatch search d := contains search (IBlog.title d);
     sortBlogs key order := merge_sort (before key order);
     sortBlogs_perm key order l := merge_sort_Permutation (before key order) l |}.

End ReferenceEngine.
Export ReferenceEngine.

(* ====================================================================== *)
(** ** Concrete collections *)
(* ====================================================================== *)

Module Sample.

Definition postId : string := "64b7f0c2a1d3e4f5a6b7c8d9".
Definition userA : string := "64b7f0c2a1d3e4f5a6b7c8e0".
Definition author : string := "64b7f0c2a1d3e4f5a6b7c8ff".
Definition category : string := "64b7f0c2a1d3e4f5a6b7c800".

(** a post of the user [author], created at time 100 *)
Definition post (oid : ObjectId) (slug : string) (status : IBlogPostStatus)
    (publishedAt scheduledFor : option Date) (likes : list IBlogLikeMongo)
    : IBlog.t :=
  {| IBlog._id := oid;
     IBlog.title := "A first long-form post";
     IBlog.slug := slug;
     IBlog.content := "Lorem ipsum";
     IBlog.excerpt := None;
     IBlog.author := author;
     IBlog.category := category;
     IBlog.tags := [];
     IBlog.featuredImage := None;
     IBlog.status := status;
     IBlog.visibility := PUBLIC;
     IBlog.viewCount := 0;
     IBlog.likes := likes;
     IBlog.readTime := 0;
     IBlog.seo := None;
     IBlog.publishedAt := publishedAt;
     IBlog.scheduledFor := scheduledFor;
     IBlog.createdAt := 100;
     IBlog.updatedAt := 100 |}.

Definition draft : IBlog.t :=
  post postId "a-first-post" DRAFT None None [].

(** scheduled for the time 5000 *)
Definition scheduled : IBlog.t :=
  post postId "a-first-post" SCHEDULED None (Some 5000) [].

Definition published : IBlog.t :=
  post postId "a-first-post" PUBLISHED (Some 500) None [].

Definition liked : IBlog.t :=
  post postId "a-first-post" PUBLISHED (Some 500) None [mkLikeMongo userA 600].

(** a collection of one post, at time 1000, with the given faults ahead *)
Definition world (d : IBlog.t) (faults : list bool) : World :=
  {| blogs := {[ IBlog._id d := d ]};
     now := 1000;
     faults := faults;
     nextOid := 1;
     errorLog := [] |}.

(** a collection of [n] published posts *)
Definition posts (n : nat) : list (string * IBlog.t) :=
  (λ i, let oid := Types.ObjectId_generate (N.of_nat i) in
        (oid, post oid oid PUBLISHED (Some 500) None [])) <$> seq 0 n.

Definition library (n : nat) : World :=
  {| blogs := list_to_map (posts n);
     now := 1000;
     faults := [];
     nextOid := N.of_nat n;
     errorLog := [] |}.

(** a collection without posts *)
Definition empty : World :=
  {| blogs := ∅; now := 1000; faults := []; nextOid := 0; errorLog := [] |}.

(** a stand-in for the slugify package *)
Definition slugify (title : string) : string :=
  Js.lowerAscii (Js.trim title).

(** the query for a page of ten *)
Definition pageOfTen (page : Z) : IQueryParams.t :=
  {| IQueryParams.page := Some page;
     IQueryParams.limit := Some 10;
     IQueryParams.search := None;
     IQueryParams.sortBy := None;
     IQueryParams.sortOrder := None |}.

(** a post to create, with a title of 22 characters and a content of 100 *)
Definition newPost : ICreateBlogDto.t :=
  {| ICreateBlogDto.title := "  A Second Long-Form Post  ";
     ICreateBlogDto.slug := Some "a-second-post";
     ICreateBlogDto.content :=
       "0123456789012345678901234567890123456789012345678901234567890123456789012345678901234567890123456789";
     ICreateBlogDto.excerpt := None;
     ICreateBlogDto.author := Some author;
     ICreateBlogDto.category := category;
     ICreateBlogDto.tags := Some ["Rocq"; " proofs "];
     ICreateBlogDto.featuredImage := None;
     ICreateBlogDto.status := None;
     ICreateBlogDto.visibility := None;
     ICreateBlogDto.seo := None;
     ICreateBlogDto.scheduledFor := None |}.

(** the same post under the slug of the sample posts *)
Definition clash : ICreateBlogDto.t :=
  {| ICreateBlogDto.title := ICreateBlogDto.title newPost;
     ICreateBlogDto.slug := Some "A-First-Post";
     ICreateBlogDto.content := ICreateBlogDto.content newPost;
     ICreateBlogDto.excerpt := None;
     ICreateBlogDto.author := Some author;
     ICreateBlogDto.category := category;
     ICreateBlogDto.tags := None;
     ICreateBlogDto.featuredImage := None;
     ICreateBlogDto.status := None;
     ICreateBlogDto.visibility := None;
     ICreateBlogDto.seo := None;
     ICreateBlogDto.scheduledFor := None |}.

(** a no-break space, U+00A0 *)
Definition nbsp : string := Js.utf8 0xA0.

(** a post whose title is wrapped in no-break spaces: trimmed, it has 10
    UTF-16 code units, in 12 bytes *)
Definition accented : ICreateBlogDto.t :=
  {| ICreateBlogDto.title := nbsp ++ "Café crème" ++ nbsp;
     ICreateBlogDto.slug := Some "cafe-creme";
     ICreateBlogDto.content := ICreateBlogDto.content newPost;
     ICreateBlogDto.excerpt := None;
     ICreateBlogDto.author := Some author;
     ICreateBlogDto.category := category;
     ICreateBlogDto.tags := None;
     ICreateBlogDto.featuredImage := None;
     ICreateBlogDto.status := None;
     ICreateBlogDto.visibility := None;
     ICreateBlogDto.seo := None;
     ICreateBlogDto.scheduledFor := None |}.


(** an update payload whose title is wrapped in no-break spaces *)
Definition retitle : IUpdateBlogDto.t :=
  {| IUpdateBlogDto.title := Some (nbsp ++ "Une idée fixe" ++ nbsp);
     IUpdateBlogDto.slug := None;
     IUpdateBlogDto.content := None; IUpdateBlogDto.excerpt := None;
     IUpdateBlogDto.category := None; IUpdateBlogDto.tags := None;
     IUpdateBlogDto.featuredImage := None; IUpdateBlogDto.status := None;
     IUpdateBlogDto.visibility := None; IUpdateBlogDto.seo := None;
     IUpdateBlogDto.publishedAt := None; IUpdateBlogDto.scheduledFor := None |}.

(** an update payload whose category is a UUID *)
Definition recategorise : IUpdateBlogDto.t :=
  {| IUpdateBlogDto.title := None; IUpdateBlogDto.slug := None;
     IUpdateBlogDto.content := None; IUpdateBlogDto.excerpt := None;
     IUpdateBlogDto.category := Some "123e4567-e89b-42d3-a456-426614174000";
     IUpdateBlogDto.tags := None;
     IUpdateBlogDto.featuredImage := None; IUpdateBlogDto.status := None;
     IUpdateBlogDto.visibility := None; IUpdateBlogDto.seo := None;
     IUpdateBlogDto.publishedAt := None; IUpdateBlogDto.scheduledFor := None |}.

(** a query for everything, with a page size of 0 *)
Definition unbounded : IQueryParams.t :=
  {| IQueryParams.page := Some 1;
     IQueryParams.limit := Some 0;
     IQueryParams.search := None;
     IQueryParams.sortBy := None;
     IQueryParams.sortOrder := None |}.

(** an update payload that names a slug *)
Definition rename : IUpdateBlogDto.t :=
  {| IUpdateBlogDto.title := Some "Another title for it";
     IUpdateBlogDto.slug := Some "another-slug";
     IUpdateBlogDto.content := None; IUpdateBlogDto.excerpt := None;
     IUpdateBlogDto.category := None; IUpdateBlogDto.tags := None;
     IUpdateBlogDto.featuredImage := None; IUpdateBlogDto.status := None;
     IUpdateBlogDto.visibility := None; IUpdateBlogDto.seo := None;
     IUpdateBlogDto.publishedAt := None; IUpdateBlogDto.scheduledFor := None |}.

End Sample.

(* ====================================================================== *)
(** ** Running the monad *)
(* ====================================================================== *)

(** unfolds the operations of the monad, round trips included *)
Ltac unfold_monad :=
  rewrite /bind /try_catch /ret /throw /lift_option /get_blogs /put_blogs
          /new_Date /logger_error /generateOid /roundTrip /Promise_all2
          /BlogService.ApiError_new /discard /=.

Create HintDb silent discriminated.

Section Combinators.
Context {A B : Type}.

Lemma Silent_ret (a : A) : Silent (ret a).
Proof. done. Qed.

Lemma Silent_throw (e : Exception) : Silent (@throw A e).
Proof. done. Qed.

Lemma Silent_lift_option (e : StoreError) (o : option A) :
  Silent (lift_option e o).
Proof. by destruct o. Qed.

Lemma Silent_bind (m : M A) (k : A → M B) :
  Silent m → (∀ a, Silent (k a)) → Silent (bind m k).
Proof.
  intros Hm Hk w. rewrite /bind. specialize (Hm w).
  destruct (m w) as [[a|e] w1]; simpl in *; [|done].
  by rewrite Hk.
Qed.

Lemma Silent_try_catch (body : M A) (handler : Exception → M A) :
  Silent body → (∀ e, Silent (handler e)) → Silent (try_catch body handler).
Proof.
  intros Hm Hk w. rewrite /try_catch. specialize (Hm w).
  destruct (body w) as [[a|e] w1]; simpl in *; [done|].
  by rewrite Hk.
Qed.

Lemma Silent_Promise_all2 (a : M A) (b : M B) :
  Silent a → Silent b → Silent (Promise_all2 a b).
Proof.
  intros Ha Hb w. rewrite /Promise_all2. specialize (Ha w).
  destruct (a w) as [ra w1]. specialize (Hb w1).
  destruct (b w1) as [rb w2]. simpl in *. congruence.
Qed.

Lemma Evolves_refl (b : gmap string IBlog.t) : Evolves b b.
Proof. intros oid d' ->. done. Qed.

Lemma Silent_Evolving (m : M A) : Silent m → Evolving m.
Proof. intros Hm w. rewrite Hm. apply Evolves_refl. Qed.

Lemma Evolving_after (m : M A) (k : A → M B) :
  Silent m → (∀ a, Evolving (k a)) → Evolving (bind m k).
Proof.
  intros Hm Hk w. rewrite /bind. specialize (Hm w).
  destruct (m w) as [[a|e] w1]; simpl in *.
  - rewrite -Hm. apply Hk.
  - rewrite Hm. apply Evolves_refl.
Qed.

Lemma Evolving_before (m : M A) (k : A → M B) :
  Evolving m → (∀ a, Silent (k a)) → Evolving (bind m k).
Proof.
  intros Hm Hk w. rewrite /bind. specialize (Hm w).
  destruct (m w) as [[a|e] w1]; simpl in *; [|done].
  by rewrite Hk.
Qed.

Lemma Evolving_try_catch (body : M A) (handler : Exception → M A) :
  Evolving body → (∀ e, Silent (handler e)) →
  Evolving (try_catch body handler).
Proof.
  intros Hm Hk w. rewrite /try_catch. specialize (Hm w).
  destruct (body w) as [[a|e] w1]; simpl in *; [done|].
  by rewrite Hk.
Qed.

End Combinators.

Lemma Silent_roundTrip : Silent roundTrip.
Proof. done. Qed.

Lemma Silent_get_blogs : Silent get_blogs.
Proof. done. Qed.

Lemma Silent_new_Date : Silent new_Date.
Proof. done. Qed.

Lemma Silent_generateOid : Silent generateOid.
Proof. done. Qed.

Lemma Silent_logger_error (format : string) : Silent (logger_error format).
Proof. done. Qed.

Lemma Silent_ApiError_new {A} msg code e :
  Silent (@BlogService.ApiError_new A msg code e).
Proof. done. Qed.

#[export] Hint Resolve Silent_ret Silent_throw Silent_lift_option
  Silent_roundTrip Silent_get_blogs Silent_new_Date Silent_generateOid
  Silent_logger_error Silent_ApiError_new : silent.

(** discharges [Silent] for a computation built from silent parts *)
Ltac silent :=
  repeat first
    [ progress intros
    | apply Silent_bind
    | apply Silent_try_catch
    | apply Silent_Promise_all2
    | progress auto with silent
    | case_match ].

(* ====================================================================== *)
(** ** Facts about the collection *)
(* ====================================================================== *)

Lemma Evolves_insert_old (b : gmap string IBlog.t) oid d d' :
  b !! oid = Some d →
  IBlog.slug d' = IBlog.slug d →
  (likesUnique d → likesUnique d') →
  Evolves b (<[oid := d']> b).
Proof.
  intros Hd Hs Hl k x. rewrite lookup_insert. case_decide as Hk.
  - intros [= <-]. subst k. by rewrite Hd.
  - intros ->. done.
Qed.

Lemma Evolves_insert_new (b : gmap string IBlog.t) oid d' :
  b !! oid = None →
  IBlog.likes d' = [] →
  Evolves b (<[oid := d']> b).
Proof.
  intros Hd Hl k x. rewrite lookup_insert. case_decide as Hk.
  - intros [= <-]. subst k. by rewrite Hd.
  - intros ->. done.
Qed.

Lemma Evolves_delete (b : gmap string IBlog.t) oid :
  Evolves b (base.delete oid b).
Proof.
  intros k x. rewrite lookup_delete. case_decide as Hk; [done|].
  intros ->. done.
Qed.

Lemma likedBy_elem_of (u : ObjectId) (d : IBlog.t) :
  Schema.likedBy u d = true ↔ u ∈ like_user <$> IBlog.likes d.
Proof.
  rewrite /Schema.likedBy existsb_exists list_elem_of_fmap. split.
  - intros (l & Hin & Heq). apply String.eqb_eq in Heq. exists l.
    split; [done|]. by apply list_elem_of_In.
  - intros (l & -> & Hin). exists l. split; [by apply list_elem_of_In|].
    apply String.eqb_refl.
Qed.

(** a push keeps the likes unique when the guard saw no like of the user *)
Lemma push_like_unique (u : ObjectId) (t : Date) (d : IBlog.t) :
  Schema.likedBy u d = false →
  likesUnique d →
  NoDup (like_user <$> (IBlog.likes d ++ [mkLikeMongo u t])%list).
Proof.
  rewrite /likesUnique fmap_app /=. intros Hg Hu.
  apply NoDup_app. split_and!; [done| |apply NoDup_singleton].
  intros x Hx ->%list_elem_of_singleton.
  apply likedBy_elem_of in Hx. congruence.
Qed.

(** a pull keeps the likes unique *)
Lemma pull_like_unique (u : ObjectId) (d : IBlog.t) :
  likesUnique d →
  NoDup (like_user <$>
           List.filter (λ l, negb (String.eqb (like_user l) u)) (IBlog.likes d)).
Proof.
  rewrite /likesUnique. induction (IBlog.likes d) as [|l ls IH]; simpl; [done|].
  intros [Hl Hls]%NoDup_cons. destruct (negb _); simpl; [|by apply IH].
  apply NoDup_cons. split; [|by apply IH].
  intros (l' & Heq & Hin)%list_elem_of_fmap. apply Hl.
  apply list_elem_of_fmap. exists l'. split; [done|].
  apply list_elem_of_In in Hin. apply filter_In in Hin as [Hin _].
  by apply list_elem_of_In.
Qed.

(** what a cast update of the content of a post leaves alone *)
Lemma castUpdate_set_frame `{Js.Engine} updates change t d :
  Schema.castUpdate (Schema.set_ updates) = Some change →
  IBlog._id (change t d) = IBlog._id d
  ∧ IBlog.slug (change t d) = IBlog.slug d
  ∧ IBlog.author (change t d) = IBlog.author d
  ∧ IBlog.likes (change t d) = IBlog.likes d
  ∧ IBlog.viewCount (change t d) = IBlog.viewCount d
  ∧ IBlog.createdAt (change t d) = IBlog.createdAt d
  ∧ IBlog.updatedAt (change t d) = t.
Proof.
  rewrite /Schema.castUpdate. intros Hc.
  repeat case_match; simplify_eq/=; done.
Qed.

Section CollectionFacts.
Context {js : Js.Engine} `{QueryEngine}.

Lemma Silent_Blog_findById id : Silent (Blog_findById id).
Proof. rewrite /Blog_findById. silent. Qed.

Lemma Silent_Blog_findOne_slug slug : Silent (Blog_findOne_slug slug).
Proof. rewrite /Blog_findOne_slug. silent. Qed.

Lemma Silent_Blog_find f sortBy order skip limit :
  Silent (Blog_find f sortBy order skip limit).
Proof. rewrite /Blog_find. silent. Qed.

Lemma Silent_Blog_countDocuments f : Silent (Blog_countDocuments f).
Proof. rewrite /Blog_countDocuments. silent. Qed.

Lemma Evolving_Blog_findByIdAndUpdate id update returnNew :
  (∀ change t d, Schema.castUpdate update = Some change →
     IBlog.slug (change t d) = IBlog.slug d
     ∧ IBlog.likes (change t d) = IBlog.likes d) →
  Evolving (Blog_findByIdAndUpdate id update returnNew).
Proof.
  intros Hc w. rewrite /Blog_findByIdAndUpdate. unfold_monad.
  destruct (Types.ObjectId_new id) as [oid|]; simpl; [|apply Evolves_refl].
  destruct (Schema.castUpdate update) as [change|] eqn:Hu; simpl;
    [|apply Evolves_refl].
  destruct (faults w) as [|[] ?]; simpl; try apply Evolves_refl.
  all: destruct (blogs w !! oid) as [d|] eqn:Hd; simpl; try apply Evolves_refl.
  all: destruct (Hc change (now w) d eq_refl) as [Hs Hl].
  all: apply (Evolves_insert_old _ _ d); [exact Hd|exact Hs|by rewrite /likesUnique Hl].
Qed.

Lemma Evolving_Blog_findByIdAndDelete id :
  Evolving (Blog_findByIdAndDelete id).
Proof.
  intros w. rewrite /Blog_findByIdAndDelete. unfold_monad.
  destruct (Types.ObjectId_new id) as [oid|]; simpl; [|apply Evolves_refl].
  destruct (faults w) as [|[] ?]; simpl; try apply Evolves_refl.
  all: destruct (blogs w !! oid) as [d|] eqn:Hd; simpl; try apply Evolves_refl.
  all: apply Evolves_delete.
Qed.

Lemma Evolving_Blog_updateOne oid guard update :
  (∀ change t d, Schema.castUpdate update = Some change → guard d = true →
     IBlog.slug (change t d) = IBlog.slug d
     ∧ (likesUnique d → likesUnique (change t d))) →
  Evolving (Blog_updateOne oid guard update).
Proof.
  intros Hc w. rewrite /Blog_updateOne. unfold_monad.
  destruct (Schema.castUpdate update) as [change|] eqn:Hu; simpl;
    [|apply Evolves_refl].
  destruct (faults w) as [|[] ?]; simpl; try apply Evolves_refl.
  all: destruct (blogs w !! oid) as [d|] eqn:Hd; simpl; try apply Evolves_refl.
  all: destruct (guard d) eqn:Hg; simpl; try apply Evolves_refl.
  all: destruct (Hc change (now w) d eq_refl Hg) as [Hs Hl].
  all: by apply (Evolves_insert_old _ _ d).
Qed.

Lemma castCreate_likes data oid t doc :
  Schema.castCreate data oid t = Some doc → IBlog.likes doc = [].
Proof.
  rewrite /Schema.castCreate. intros Hc.
  repeat (case_match || simplify_option_eq); simplify_eq/=; done.
Qed.

Lemma Evolving_Blog_create data : Evolving (Blog_create data).
Proof.
  intros w. rewrite /Blog_create. unfold_monad.
  destruct (Schema.castCreate _ _ _) as [doc|] eqn:Hc; simpl;
    [|apply Evolves_refl].
  apply castCreate_likes in Hc.
  destruct (faults w) as [|[] ?]; simpl; try apply Evolves_refl.
  all: case_bool_decide as Hin; simpl; try apply Evolves_refl.
  all: destruct (existsb _ _); simpl; try apply Evolves_refl.
  all: apply Evolves_insert_new; [|done].
  all: by apply eq_None_not_Some.
Qed.

End CollectionFacts.

(* ====================================================================== *)
(** ** What every operation preserves *)
(* ====================================================================== *)

Section Preservation.
Context {js : Js.Engine} `{QueryEngine}.

Lemma Silent_findById id : Silent (BlogRepository.findById id).
Proof.
  rewrite /BlogRepository.findById. pose proof Silent_Blog_findById. silent.
Qed.

Lemma Silent_findBySlug slug : Silent (BlogRepository.findBySlug slug).
Proof.
  rewrite /BlogRepository.findBySlug. pose proof Silent_Blog_findOne_slug.
  silent.
Qed.

Lemma Silent_findAll params : Silent (BlogRepository.findAll params).
Proof.
  rewrite /BlogRepository.findAll.
  pose proof Silent_Blog_find. pose proof Silent_Blog_countDocuments. silent.
Qed.

Lemma Evolving_create data : Evolving (BlogRepository.create data).
Proof.
  rewrite /BlogRepository.create. apply Evolving_try_catch; [|by silent].
  apply Evolving_before; [apply Evolving_Blog_create|by silent].
Qed.

Lemma Evolving_updateById id updates :
  Evolving (BlogRepository.updateById id updates).
Proof.
  rewrite /BlogRepository.updateById. apply Evolving_try_catch; [|by silent].
  apply Evolving_before; [|by silent].
  apply Evolving_Blog_findByIdAndUpdate. intros change t d Hc.
  by destruct (castUpdate_set_frame _ _ t d Hc) as (_ & ? & _ & ? & _).
Qed.

Lemma Evolving_deleteById id : Evolving (BlogRepository.deleteById id).
Proof.
  rewrite /BlogRepository.deleteById. apply Evolving_try_catch; [|by silent].
  apply Evolving_before; [apply Evolving_Blog_findByIdAndDelete|by silent].
Qed.

Lemma Evolving_incrementViewCount id :
  Evolving (BlogRepository.incrementViewCount id).
Proof.
  rewrite /BlogRepository.incrementViewCount.
  apply Evolving_try_catch; [|by silent].
  apply Evolving_before; [|by silent].
  apply Evolving_Blog_findByIdAndUpdate. by intros change t d [= <-].
Qed.

Lemma Evolving_addLike postId userId :
  Evolving (BlogRepository.addLike postId userId).
Proof.
  rewrite /BlogRepository.addLike. apply Evolving_try_catch; [|by silent].
  do 3 (apply Evolving_after; [by silent|intros ?]).
  apply Evolving_before; [|by silent].
  apply Evolving_Blog_updateOne. intros change t d [= <-] Hg. split; [done|].
  apply push_like_unique. by destruct (Schema.likedBy _ _).
Qed.

Lemma Evolving_removeLike postId userId :
  Evolving (BlogRepository.removeLike postId userId).
Proof.
  rewrite /BlogRepository.removeLike. apply Evolving_try_catch; [|by silent].
  do 2 (apply Evolving_after; [by silent|intros ?]).
  apply Evolving_before; [|by silent].
  apply Evolving_Blog_updateOne. intros change t d [= <-] Hg. split; [done|].
  apply pull_like_unique.
Qed.

Lemma Evolving_schedule postId publishDate :
  Evolving (BlogRepository.schedule postId publishDate).
Proof. apply Evolving_updateById. Qed.

Lemma Evolving_publish postId : Evolving (BlogRepository.publish postId).
Proof.
  rewrite /BlogRepository.publish.
  do 2 (apply Evolving_after; [by silent|intros ?]).
  apply Evolving_updateById.
Qed.

Lemma Evolving_archive postId : Evolving (BlogRepository.archive postId).
Proof. apply Evolving_updateById. Qed.

(** every exposed operation changes the collection only in the ways
    [Evolves] allows *)
Lemma Evolving_serve slugify (r : Request) : Evolving (serve slugify r).
Proof.
  pose proof Silent_findById. pose proof Silent_findBySlug.
  pose proof Silent_findAll.
  destruct r; rewrite /serve /discard /blogRepository;
    (apply Evolving_before; [|by silent]).
  - rewrite /BlogService.create /=. case_match; [by apply Silent_Evolving|].
    apply Evolving_before; [apply Evolving_create|by silent].
  - rewrite /BlogService.getById /=. apply Silent_Evolving. silent.
  - rewrite /BlogService.getBySlug /=. apply Silent_Evolving. silent.
  - rewrite /BlogService.getAll /=. apply Silent_Evolving. silent.
  - rewrite /BlogService.update /=.
    do 2 (case_match; [by apply Silent_Evolving|]).
    apply Evolving_after; [done|intros [post|]]; [|by apply Silent_Evolving].
    apply Evolving_before; [apply Evolving_updateById|by silent].
  - rewrite /BlogService.delete /=.
    apply Evolving_before; [apply Evolving_deleteById|by silent].
  - rewrite /BlogService.incrementViewCount /=.
    apply Evolving_before; [apply Evolving_incrementViewCount|by silent].
  - rewrite /BlogService.addLike /=.
    apply Evolving_after; [done|intros [post|]]; [|by apply Silent_Evolving].
    apply Evolving_before; [apply Evolving_addLike|by silent].
  - rewrite /BlogService.removeLike /=.
    apply Evolving_after; [done|intros [post|]]; [|by apply Silent_Evolving].
    apply Evolving_before; [apply Evolving_removeLike|by silent].
  - rewrite /BlogService.schedule /=.
    apply Evolving_after; [by silent|intros today].
    case_match; [by apply Silent_Evolving|].
    apply Evolving_after; [done|intros [post|]]; [|by apply Silent_Evolving].
    apply Evolving_before; [apply Evolving_schedule|by silent].
  - rewrite /BlogService.publish /=.
    apply Evolving_after; [done|intros [post|]]; [|by apply Silent_Evolving].
    case_match; [by apply Silent_Evolving|].
    apply Evolving_before; [apply Evolving_publish|by silent].
  - rewrite /BlogService.archive /=.
    apply Evolving_after; [done|intros [post|]]; [|by apply Silent_Evolving].
    apply Evolving_before; [apply Evolving_archive|by silent].
Qed.

End Preservation.

(* ====================================================================== *)
(** ** Round trips *)
(* ====================================================================== *)

Lemma healthy_S n w : healthy (S n) w → healthy 1 w ∧ healthy n (tick w).
Proof.
  rewrite /healthy /tick. destruct (faults w) as [|f fs]; simpl.
  - by rewrite take_nil.
  - intros [Hf Hfs]%Forall_cons. rewrite take_0. by repeat constructor.
Qed.

Lemma roundTrip_eq w :
  roundTrip w
  = (match faults w with
     | true :: _ => Throw (StoreExn NetworkError)
     | _ => Return tt
     end, tick w).
Proof. done. Qed.

Lemma roundTrip_ok w : healthy 1 w → roundTrip w = (Return tt, tick w).
Proof.
  rewrite /healthy roundTrip_eq. destruct (faults w) as [|[] fs]; simpl;
    [done| |done].
  intros Hf. by apply Forall_cons in Hf as [? _].
Qed.

Lemma roundTrip_failed w fs :
  faults w = true :: fs → roundTrip w = (Throw (StoreExn NetworkError), tick w).
Proof. rewrite roundTrip_eq. by intros ->. Qed.

(** from here on a round trip is taken as a whole *)
#[local] Opaque roundTrip.

(** runs a computation up to its next round trip *)
Ltac run := rewrite /bind /try_catch /ret /throw /lift_option /get_blogs
  /put_blogs /new_Date /logger_error /generateOid /Promise_all2
  /BlogService.ApiError_new /discard /=.

Lemma stored_Some w id d :
  stored w id = Some d ↔
  Types.ObjectId_isValid id = true ∧ blogs w !! Types.toHexString id = Some d.
Proof.
  rewrite /stored /Types.ObjectId_new.
  destruct (Types.ObjectId_isValid id); simpl; split; try done.
  all: by intros [? ?].
Qed.

(* ====================================================================== *)
(** ** Reading a post *)
(* ====================================================================== *)

Section Reading.
Context {js : Js.Engine} `{QueryEngine}.

Lemma findById_found id w d :
  healthy 1 w → stored w id = Some d →
  BlogRepository.findById id w
  = (Return (Some (BlogRepository.normalize d)), tick w).
Proof.
  intros Hh [Hv Hd]%stored_Some.
  rewrite /BlogRepository.findById /Blog_findById /Types.ObjectId_new Hv.
  rewrite /try_catch /bind /= roundTrip_ok //= Hd //.
Qed.

Lemma findById_absent id w :
  stored w id = None →
  ∃ w', BlogRepository.findById id w = (Return None, w')
        ∧ blogs w' = blogs w ∧ now w' = now w.
Proof.
  rewrite /stored /BlogRepository.findById /Blog_findById /Types.ObjectId_new.
  destruct (Types.ObjectId_isValid id); simpl; [|by eauto].
  intros Hd. run. rewrite roundTrip_eq.
  destruct (faults w) as [|[] fs]; simpl; rewrite ?Hd; eauto.
Qed.

Lemma findBySlug_found slug w d :
  healthy 1 w → storedBySlug w slug = Some d →
  BlogRepository.findBySlug slug w
  = (Return (Some (BlogRepository.normalize d)), tick w).
Proof.
  intros Hh Hd.
  rewrite /BlogRepository.findBySlug /Blog_findOne_slug.
  rewrite /try_catch /bind /= roundTrip_ok //=.
  by rewrite /storedBySlug in Hd; rewrite Hd.
Qed.

Lemma findBySlug_absent slug w :
  storedBySlug w slug = None →
  ∃ w', BlogRepository.findBySlug slug w = (Return None, w')
        ∧ blogs w' = blogs w.
Proof.
  rewrite /storedBySlug /BlogRepository.findBySlug /Blog_findOne_slug.
  intros Hd. run. rewrite roundTrip_eq.
  destruct (faults w) as [|[] fs]; simpl; rewrite ?Hd; eauto.
Qed.

(** C7. A draft is refused as [Forbidden] unless drafts were asked for, in
    which case it is returned; a scheduled, published or archived post is
    returned whatever the flag; all that while the store answers. An
    absent post is [NotFound]. The same holds by identifier and by slug. *)
Theorem draft_visibility_gate (w : World) (id slug : string) :
  (∀ d, healthy 1 w → stored w id = Some d → IBlog.status d = DRAFT →
     (BlogService.getById blogRepository id false w).1
     = Throw (Forbidden "Blog post is not published"))
  ∧ (∀ d, healthy 1 w → stored w id = Some d →
     (BlogService.getById blogRepository id true w).1
     = Return (BlogRepository.normalize d))
  ∧ (∀ d includeDrafts, healthy 1 w → stored w id = Some d →
     IBlog.status d ≠ DRAFT →
     (BlogService.getById blogRepository id includeDrafts w).1
     = Return (BlogRepository.normalize d))
  ∧ (∀ includeDrafts, stored w id = None →
     (BlogService.getById blogRepository id includeDrafts w).1
     = Throw (NotFound "Blog post not found"))
  ∧ (∀ d, healthy 1 w → storedBySlug w slug = Some d →
     IBlog.status d = DRAFT →
     (BlogService.getBySlug blogRepository slug false w).1
     = Throw (Forbidden "Blog post is not published"))
  ∧ (∀ d, healthy 1 w → storedBySlug w slug = Some d →
     (BlogService.getBySlug blogRepository slug true w).1
     = Return (BlogRepository.normalize d))
  ∧ (∀ d includeDrafts, healthy 1 w → storedBySlug w slug = Some d →
     IBlog.status d ≠ DRAFT →
     (BlogService.getBySlug blogRepository slug includeDrafts w).1
     = Return (BlogRepository.normalize d))
  ∧ (∀ includeDrafts, storedBySlug w slug = None →
     (BlogService.getBySlug blogRepository slug includeDrafts w).1
     = Throw (NotFound "Blog post not found")).
Proof.
  rewrite /BlogService.getById /BlogService.getBySlug /blogRepository /bind /=.
  split_and!.
  - intros d Hh Hd Hs. rewrite (findById_found _ _ d) //= Hs //.
  - intros d Hh Hd. rewrite (findById_found _ _ d) //=.
  - intros d flag Hh Hd Hs. rewrite (findById_found _ _ d) //=.
    destruct (IBlog.status d), flag; done.
  - intros flag Hd. by destruct (findById_absent id w Hd) as (w' & -> & _).
  - intros d Hh Hd Hs. rewrite (findBySlug_found _ _ d) //= Hs //.
  - intros d Hh Hd. rewrite (findBySlug_found _ _ d) //=.
  - intros d flag Hh Hd Hs. rewrite (findBySlug_found _ _ d) //=.
    destruct (IBlog.status d), flag; done.
  - intros flag Hd. by destruct (findBySlug_absent slug w Hd) as (w' & -> & _).
Qed.

End Reading.

(* ====================================================================== *)
(** ** Updating, publishing and scheduling *)
(* ====================================================================== *)

Section Lifecycle.
Context {js : Js.Engine} `{QueryEngine}.

Lemma updateById_ok id updates change w d :
  healthy 1 w → stored w id = Some d →
  Schema.castUpdate (Schema.set_ updates) = Some change →
  BlogRepository.updateById id updates w
  = (Return (Some (BlogRepository.normalize (change (now w) d))),
     set_blogs (<[Types.toHexString id := change (now w) d]> (blogs w)) (tick w)).
Proof.
  intros Hh [Hv Hd]%stored_Some Hc.
  rewrite /BlogRepository.updateById /Blog_findByIdAndUpdate
          /Types.ObjectId_new Hv Hc.
  run. rewrite roundTrip_ok //=. run. by rewrite Hd.
Qed.

Lemma updateById_plain id updates w d :
  healthy 1 w → stored w id = Some d →
  IUpdateBlogDto.category updates = None →
  BlogRepository.updateById id updates w
  = (Return (Some (BlogRepository.normalize
                     (Schema.apply_set updates None (now w) d))),
     set_blogs (<[Types.toHexString id :=
                    Schema.apply_set updates None (now w) d]> (blogs w))
               (tick w)).
Proof.
  intros Hh Hd Hc. apply updateById_ok; [done..|].
  by rewrite /Schema.castUpdate Hc.
Qed.

Lemma stored_set_blogs_insert w w' id d d' :
  stored w id = Some d →
  stored (set_blogs (<[Types.toHexString id := d']> (blogs w)) w') id = Some d'.
Proof.
  intros [Hv Hd]%stored_Some. apply stored_Some. split; [done|].
  by rewrite /= lookup_insert_eq.
Qed.

(** C2, as the code has it. Publishing an existing post, while the store
    answers, sets [status] to published and [publishedAt] to the current
    time; it also sets [scheduledFor] to the current time, and the store
    stamps [updatedAt]. Every other field of the post, and every other
    post, is left as it was. *)
Theorem publish_sets_status_and_dates (w : World) (postId : string)
    (d : IBlog.t) :
  healthy 1 w → stored w postId = Some d →
  ∃ d' w',
    BlogRepository.publish postId w
    = (Return (Some (BlogRepository.normalize d')), w')
    ∧ blogs w' = <[Types.toHexString postId := d']> (blogs w)
    ∧ stored w' postId = Some d'
    ∧ IBlog.status d' = PUBLISHED
    ∧ IBlog.publishedAt d' = Some (now w)
    ∧ IBlog.scheduledFor d' = Some (now w)
    ∧ IBlog.updatedAt d' = now w
    ∧ sameContent d d'.
Proof.
  intros Hh Hd. rewrite /BlogRepository.publish. run.
  rewrite (updateById_plain _ _ _ d) //.
  do 2 eexists. split; [done|]. split; [done|].
  split; [by apply (stored_set_blogs_insert w _ _ d)|].
  rewrite /sameContent /=. done.
Qed.

(** C5. Publishing a post that is already published, while the store
    answers, fails with [Conflict]; the collection is not written to and
    the post, its [publishedAt] included, is as it was. *)
Theorem publish_published_conflict (w : World) (postId : string)
    (d : IBlog.t) :
  healthy 1 w → stored w postId = Some d → IBlog.status d = PUBLISHED →
  ∃ w', BlogService.publish blogRepository postId w
        = (Throw (Conflict "Blog post already published"), w')
        ∧ blogs w' = blogs w
        ∧ stored w' postId = Some d
        ∧ errorLog w' = errorLog w.
Proof.
  intros Hh Hd Hs. rewrite /BlogService.publish /blogRepository /bind /=.
  rewrite (findById_found _ _ d) //= Hs /=. by eexists.
Qed.

(** C6. A publish date that is not after the current time is refused as
    [BadRequest] with the world as it was: no round trip to the store was
    made. For an existing post and a later date, while the store answers,
    the post comes back scheduled for that date, and so it is stored. *)
Theorem schedule_validation (w : World) (postId : string) (publishDate : Date) :
  (publishDate ≤ now w →
     BlogService.schedule blogRepository postId publishDate w
     = (Throw (BadRequest "Publish date must be in the future"), w))
  ∧ (∀ d, now w < publishDate → healthy 2 w → stored w postId = Some d →
     ∃ d' w',
       BlogService.schedule blogRepository postId publishDate w
       = (Return (BlogRepository.normalize d'), w')
       ∧ stored w' postId = Some d'
       ∧ IBlog.status d' = SCHEDULED
       ∧ IBlog.scheduledFor d' = Some publishDate
       ∧ IBlogPostEntity.status (BlogRepository.normalize d') = SCHEDULED
       ∧ IBlogPostEntity.scheduledFor (BlogRepository.normalize d')
         = Some publishDate).
Proof.
  rewrite /BlogService.schedule /blogRepository. split.
  - intros Hle. run. by rewrite (proj2 (Z.leb_le _ _) Hle).
  - intros d Hlt [Hh1 Hh2]%healthy_S Hd. run.
    rewrite (proj2 (Z.leb_gt _ _) Hlt) (findById_found _ _ d) //=.
    rewrite /BlogRepository.schedule.
    rewrite (updateById_plain _ _ _ d) //=.
    do 2 eexists. split; [done|].
    split; [by apply (stored_set_blogs_insert w _ _ d)|]. done.
Qed.

End Lifecycle.

(* ====================================================================== *)
(** ** Likes *)
(* ====================================================================== *)

Lemma stored_blogs_eq w w' id : blogs w' = blogs w → stored w' id = stored w id.
Proof. rewrite /stored. by intros ->. Qed.

Lemma likedBy_push u t views d at_ :
  Schema.likedBy u
    (Schema.with_engagement views (IBlog.likes d ++ [mkLikeMongo u t])%list at_ d)
  = true.
Proof.
  rewrite /Schema.likedBy /= existsb_app /= String.eqb_refl.
  by rewrite orb_true_r.
Qed.

Section Likes.
Context {js : Js.Engine} `{QueryEngine}.

Lemma addLike_already postId userId u w d :
  healthy 1 w → stored w postId = Some d →
  Types.ObjectId_new userId = Some u → Schema.likedBy u d = true →
  BlogRepository.addLike postId userId w = (Return js_null, tick w).
Proof.
  intros Hh [Hv Hd]%stored_Some Hu Hl.
  rewrite /BlogRepository.addLike /Blog_updateOne {1}/Types.ObjectId_new Hv Hu.
  run. rewrite roundTrip_ok //=. run. by rewrite Hd Hl.
Qed.

Lemma addLike_already_blogs postId userId u w d :
  stored w postId = Some d →
  Types.ObjectId_new userId = Some u → Schema.likedBy u d = true →
  blogs (BlogRepository.addLike postId userId w).2 = blogs w.
Proof.
  intros [Hv Hd]%stored_Some Hu Hl.
  rewrite /BlogRepository.addLike /Blog_updateOne {1}/Types.ObjectId_new Hv Hu.
  run. rewrite roundTrip_eq. destruct (faults w) as [|[] fs]; simpl; [|done|].
  all: run; by rewrite Hd Hl.
Qed.

Lemma removeLike_absent postId userId u w d :
  healthy 1 w → stored w postId = Some d →
  Types.ObjectId_new userId = Some u → Schema.likedBy u d = false →
  BlogRepository.removeLike postId userId w = (Return js_null, tick w).
Proof.
  intros Hh [Hv Hd]%stored_Some Hu Hl.
  rewrite /BlogRepository.removeLike /Blog_updateOne {1}/Types.ObjectId_new Hv Hu.
  run. rewrite roundTrip_ok //=. run. by rewrite Hd Hl.
Qed.

(** when the round trip of the mutation fails, the repository answers
    [false] *)
Lemma addLike_failed postId userId w fs :
  faults w = true :: fs →
  ∃ w', BlogRepository.addLike postId userId w = (Return js_false, w')
        ∧ blogs w' = blogs w.
Proof.
  intros Hf. rewrite /BlogRepository.addLike /Blog_updateOne. run.
  destruct (Types.ObjectId_new postId); simpl; [|by eauto].
  destruct (Types.ObjectId_new userId); simpl; [|by eauto].
  rewrite (roundTrip_failed _ fs) //=. by eauto.
Qed.

Lemma removeLike_failed postId userId w fs :
  faults w = true :: fs →
  ∃ w', BlogRepository.removeLike postId userId w = (Return js_false, w')
        ∧ blogs w' = blogs w.
Proof.
  intros Hf. rewrite /BlogRepository.removeLike /Blog_updateOne. run.
  destruct (Types.ObjectId_new postId); simpl; [|by eauto].
  destruct (Types.ObjectId_new userId); simpl; [|by eauto].
  rewrite (roundTrip_failed _ fs) //=. by eauto.
Qed.

(** the sibling operation tells the store failure apart: it is
    [InternalError] there *)
Lemma incrementViewCount_failed id w fs :
  Types.ObjectId_isValid id = true → faults w = true :: fs →
  (BlogService.incrementViewCount blogRepository id w).1
  = Throw (InternalError "Failed to increment view count").
Proof.
  intros Hv Hf.
  rewrite /BlogService.incrementViewCount /blogRepository /=.
  rewrite /BlogRepository.incrementViewCount /Blog_findByIdAndUpdate
          /Types.ObjectId_new Hv.
  run. by rewrite (roundTrip_failed _ fs).
Qed.

(** a malformed user identifier makes the repository answer [false] too *)
Lemma addLike_malformed_user postId userId w :
  Types.ObjectId_new userId = None →
  (BlogRepository.addLike postId userId w).1 = Return js_false.
Proof.
  intros Hu. rewrite /BlogRepository.addLike Hu. run.
  by destruct (Types.ObjectId_new postId).
Qed.

(** C1, the behaviour of the code. For a post that exists, when the round
    trip of the guarded mutation fails the repository answers [false], and
    the service turns that into [Conflict], the very error of the
    not-applicable outcome, where a store failure is [InternalError]. An
    absent post is [NotFound]. *)
Theorem like_store_failure_is_conflict (w : World) (postId userId : string)
    (d : IBlog.t) (fs : list bool) :
  stored w postId = Some d → faults w = false :: true :: fs →
  (BlogRepository.addLike postId userId (tick w)).1 = Return js_false
  ∧ (BlogService.addLike blogRepository postId userId w).1
    = Throw (Conflict "Blog already liked")
  ∧ (BlogRepository.removeLike postId userId (tick w)).1 = Return js_false
  ∧ (BlogService.removeLike blogRepository postId userId w).1
    = Throw (Conflict "Like not found").
Proof.
  intros Hd Hf.
  assert (healthy 1 w) as Hh.
  { rewrite /healthy Hf /=. by repeat constructor. }
  assert (faults (tick w) = true :: fs) as Hf' by by rewrite /= Hf.
  destruct (addLike_failed postId userId (tick w) fs Hf') as (w1 & Ha & _).
  destruct (removeLike_failed postId userId (tick w) fs Hf') as (w2 & Hr & _).
  rewrite /BlogService.addLike /BlogService.removeLike /blogRepository /bind /=.
  rewrite (findById_found _ _ d) //= Ha Hr //.
Qed.

(** the outcomes of liking that the service does tell apart *)
Lemma like_outcomes (w : World) (postId userId : string) :
  (stored w postId = None →
     (BlogService.addLike blogRepository postId userId w).1
     = Throw (NotFound "Blog post not found")
     ∧ (BlogService.removeLike blogRepository postId userId w).1
       = Throw (NotFound "Blog post not found"))
  ∧ (∀ d u, healthy 2 w → stored w postId = Some d →
       Types.ObjectId_new userId = Some u → Schema.likedBy u d = true →
       (BlogService.addLike blogRepository postId userId w).1
       = Throw (Conflict "Blog already liked"))
  ∧ (∀ d u, healthy 2 w → stored w postId = Some d →
       Types.ObjectId_new userId = Some u → Schema.likedBy u d = false →
       (BlogService.removeLike blogRepository postId userId w).1
       = Throw (Conflict "Like not found")).
Proof.
  rewrite /BlogService.addLike /BlogService.removeLike /blogRepository /bind /=.
  split_and!.
  - intros Hd. by destruct (findById_absent postId w Hd) as (w' & -> & _).
  - intros d u [Hh1 Hh2]%healthy_S Hd Hu Hl.
    rewrite (findById_found _ _ d) //= (addLike_already _ _ u _ d) //.
  - intros d u [Hh1 Hh2]%healthy_S Hd Hu Hl.
    rewrite (findById_found _ _ d) //= (removeLike_absent _ _ u _ d) //.
Qed.

(** a like that succeeded is stored *)
Lemma addLike_success postId userId w :
  (BlogService.addLike blogRepository postId userId w).1 = Return true →
  ∃ d u, stored (BlogService.addLike blogRepository postId userId w).2 postId
         = Some d
         ∧ Types.ObjectId_new userId = Some u
         ∧ Schema.likedBy u d = true.
Proof.
  rewrite /BlogService.addLike /blogRepository /bind /=.
  destruct (BlogRepository.findById postId w) as [[[post|]|e] w1]; simpl;
    [|done..].
  rewrite /BlogRepository.addLike /Blog_updateOne /stored. run.
  destruct (Types.ObjectId_new postId) as [oid|]; simpl; [|done].
  destruct (Types.ObjectId_new userId) as [u|]; simpl; [|done].
  rewrite roundTrip_eq. destruct (faults w1) as [|[] fs]; simpl; [|done|].
  all: destruct (blogs w1 !! oid) as [d|]; simpl; [|done].
  all: destruct (Schema.likedBy u d) eqn:Hl; simpl; [done|].
  all: intros _; do 2 eexists; rewrite lookup_insert_eq.
  all: split; [done|]; split; [done|]; apply likedBy_push.
Qed.

(** C4. Every exposed operation keeps the likes of each post unique per
    user. Liking a post the user already likes leaves the collection as it
    was, and the guarded update reports that it did not apply. After a
    like that succeeded, the same like again is a [Conflict] and writes
    nothing. *)
Theorem likes_unique_per_user (slugify : string → string) :
  (∀ r w, LikesInvariant w → LikesInvariant (serve slugify r w).2)
  ∧ (∀ w postId userId d u,
       stored w postId = Some d → Types.ObjectId_new userId = Some u →
       Schema.likedBy u d = true →
       blogs (BlogRepository.addLike postId userId w).2 = blogs w
       ∧ (healthy 1 w →
          (BlogRepository.addLike postId userId w).1 = Return js_null))
  ∧ (∀ w w2 postId userId,
       (BlogService.addLike blogRepository postId userId w).1 = Return true →
       blogs w2 = blogs (BlogService.addLike blogRepository postId userId w).2 →
       healthy 2 w2 →
       ∃ w3, BlogService.addLike blogRepository postId userId w2
             = (Throw (Conflict "Blog already liked"), w3)
             ∧ blogs w3 = blogs w2).
Proof.
  split_and!.
  - intros r w Hinv oid d' Hd'.
    pose proof (Evolving_serve slugify r w oid d' Hd') as Hev.
    destruct (blogs w !! oid) as [d|] eqn:Hd.
    + destruct Hev as [_ Hu]. apply Hu. by apply (Hinv oid).
    + rewrite /likesUnique Hev. constructor.
  - intros w postId userId d u Hd Hu Hl. split.
    + by apply (addLike_already_blogs _ _ u _ d).
    + intros Hh. by rewrite (addLike_already _ _ u _ d).
  - intros w w2 postId userId Hok Hb [Hh1 Hh2]%healthy_S.
    destruct (addLike_success _ _ _ Hok) as (d & u & Hd & Hu & Hl).
    rewrite -(stored_blogs_eq _ w2) // in Hd.
    rewrite /BlogService.addLike /blogRepository /bind /=.
    rewrite (findById_found _ _ d) //= (addLike_already _ _ u _ d) //=.
    by eexists.
Qed.

End Likes.

(* ====================================================================== *)
(** ** The slug *)
(* ====================================================================== *)

Section Slug.
Context {js : Js.Engine} `{QueryEngine}.

(** an update keeps the post and writes no other *)
Lemma updateById_cases id updates w :
  blogs (BlogRepository.updateById id updates w).2 = blogs w
  ∨ ∃ d change,
      stored w id = Some d
      ∧ Schema.castUpdate (Schema.set_ updates) = Some change
      ∧ blogs (BlogRepository.updateById id updates w).2
        = <[Types.toHexString id := change (now w) d]> (blogs w).
Proof.
  rewrite /BlogRepository.updateById /Blog_findByIdAndUpdate /stored
          /Types.ObjectId_new.
  destruct (Schema.castUpdate (Schema.set_ updates)) as [change|] eqn:Hc;
    destruct (Types.ObjectId_isValid id); run; try by left.
  rewrite roundTrip_eq. destruct (faults w) as [|[] fs]; simpl; [|by left|].
  all: destruct (blogs w !! Types.toHexString id) as [d|]; simpl; [|by left].
  all: right; by exists d, change.
Qed.

(** C3. An update of an existing post, whatever the payload, a slug in it
    or not, keeps the post with the slug it had; and across any exposed
    operation a post that is still there has the slug it had. *)
Theorem slug_never_changes (slugify : string → string) :
  (∀ w id updates d, stored w id = Some d →
     ∃ d', stored (BlogRepository.updateById id updates w).2 id = Some d'
           ∧ IBlog.slug d' = IBlog.slug d)
  ∧ (∀ r w oid d d', blogs w !! oid = Some d →
       blogs (serve slugify r w).2 !! oid = Some d' →
       IBlog.slug d' = IBlog.slug d).
Proof.
  split.
  - intros w id updates d Hd.
    destruct (updateById_cases id updates w) as [Hb|(d0 & change & Hd0 & Hc & Hb)].
    + exists d. by rewrite (stored_blogs_eq w).
    + simplify_eq. exists (change (now w) d). split.
      * apply stored_Some in Hd as [Hv Hd]. apply stored_Some.
        by rewrite Hb lookup_insert_eq.
      * by destruct (castUpdate_set_frame _ _ (now w) d Hc) as (_ & ? & _).
  - intros r w oid d d' Hd Hd'.
    pose proof (Evolving_serve slugify r w oid d' Hd') as Hev.
    rewrite Hd in Hev. by destruct Hev.
Qed.

End Slug.

(* ====================================================================== *)
(** ** Listing *)
(* ====================================================================== *)

Lemma Math_ceil_div_pos (total limit : Z) :
  0 < limit →
  ∃ pages, Math_ceil_div total limit = Finite pages
           ∧ (pages - 1) * limit < total ≤ pages * limit.
Proof.
  intros Hl. rewrite /Math_ceil_div. destruct (Z.eqb_spec limit 0); [lia|].
  eexists. split; [done|].
  pose proof (Z.mul_div_le (- total) limit Hl).
  pose proof (Z.mul_succ_div_gt (- total) limit Hl). lia.
Qed.

Lemma failing_2_cases w :
  failing 2 w →
  (∃ fs, faults w = true :: fs) ∨ (∃ fs, faults w = false :: true :: fs).
Proof.
  rewrite /failing. destruct (faults w) as [|[] [|[] fs]]; simpl; eauto.
  - by intros ?%Exists_nil.
  - intros [[=]|[]%Exists_nil]%Exists_cons.
  - intros [[=]|[[=]|[]%Exists_nil]%Exists_cons]%Exists_cons.
Qed.

Section Listing.
Context {js : Js.Engine} `{QueryEngine}.

Lemma matching_length params w :
  List.length (matching params w)
  = List.length (List.filter (matches (filterOf params)) (documents (blogs w))).
Proof. rewrite /matching. apply Permutation_length, sortBlogs_perm. Qed.

(** the two store calls of [findAll], side by side *)
Lemma findAll_unfold params w :
  BlogRepository.findAll params w
  = try_catch
      (bind (Promise_all2
               (Blog_find (filterOf params)
                  (default "createdAt" (IQueryParams.sortBy params))
                  (default desc (IQueryParams.sortOrder params))
                  ((default 1 (IQueryParams.page params) - 1)
                   * default 10 (IQueryParams.limit params))
                  (default 10 (IQueryParams.limit params)))
               (Blog_countDocuments (filterOf params)))
         (λ found,
            ret {| data := BlogRepository.normalize <$> found.1;
                   pagination :=
                     {| pg_page := default 1 (IQueryParams.page params);
                        pg_limit := default 10 (IQueryParams.limit params);
                        pg_total := found.2;
                        pg_totalPages :=
                          Math_ceil_div found.2
                            (default 10 (IQueryParams.limit params)) |} |}))
      (λ _, bind (logger_error "Error fetching blogs: %o") (λ _, ret emptyPage))
      w.
Proof.
  rewrite /BlogRepository.findAll /filterOf.
  by destruct (default desc (IQueryParams.sortOrder params)).
Qed.

(** what the two store calls of [findAll] come to *)
Lemma store_calls f sortBy order skip limit w :
  Promise_all2 (Blog_find f sortBy order skip limit) (Blog_countDocuments f) w
  = (match faults w with
     | true :: _ => Throw (StoreExn NetworkError)
     | _ =>
         if skip <? 0 then Throw (StoreExn BadValueError)
         else
           match tail (faults w) with
           | true :: _ => Throw (StoreExn NetworkError)
           | _ =>
               let found :=
                 drop (Z.to_nat skip)
                   (sortBlogs sortBy order
                      (List.filter (matches f) (documents (blogs w)))) in
               Return
                 (if limit =? 0 then found
                  else take (Z.to_nat (Z.abs limit)) found,
                  Z.of_nat (List.length
                              (List.filter (matches f) (documents (blogs w)))))
           end
     end, tick (tick w)).
Proof.
  rewrite /Promise_all2 /Blog_find /Blog_countDocuments /bind roundTrip_eq.
  destruct (faults w) as [|[] fs] eqn:Hfs; simpl.
  - destruct (skip <? 0); rewrite /= roundTrip_eq /= Hfs //=.
  - rewrite /= roundTrip_eq /= Hfs /=. by destruct fs as [|[] fs'].
  - destruct (skip <? 0); rewrite /= roundTrip_eq /= Hfs /=;
      by destruct fs as [|[] fs'].
Qed.

Lemma findAll_returns params w :
  ∃ r w', BlogRepository.findAll params w = (Return r, w')
          ∧ blogs w' = blogs w.
Proof.
  pose proof (Silent_findAll params w) as Hs.
  rewrite findAll_unfold /try_catch in Hs |- *.
  destruct (bind _ _ w) as [[r|e] w1]; simpl in *; eauto.
Qed.

Lemma findAll_failing params w :
  failing 2 w →
  ∃ w', BlogRepository.findAll params w = (Return emptyPage, w')
        ∧ blogs w' = blogs w
        ∧ errorLog w' = (errorLog w ++ ["Error fetching blogs: %o"])%list.
Proof.
  intros Hf. rewrite findAll_unfold /try_catch /bind store_calls.
  destruct (failing_2_cases w Hf) as [[fs ->]|[fs ->]]; simpl.
  - eexists. split_and!; reflexivity.
  - destruct (_ <? 0); simpl; eexists; split_and!; reflexivity.
Qed.

Lemma findAll_ok params w :
  let page := default 1 (IQueryParams.page params) in
  let limit := default 10 (IQueryParams.limit params) in
  1 ≤ page → 0 < limit → healthy 2 w →
  BlogRepository.findAll params w
  = (Return
       {| data :=
            BlogRepository.normalize <$>
              take (Z.to_nat limit)
                   (drop (Z.to_nat ((page - 1) * limit)) (matching params w));
          pagination :=
            {| pg_page := page;
               pg_limit := limit;
               pg_total := Z.of_nat (List.length (matching params w));
               pg_totalPages :=
                 Math_ceil_div (Z.of_nat (List.length (matching params w))) limit |} |},
     tick (tick w)).
Proof.
  intros page limit Hp Hl Hh. subst page limit.
  rewrite findAll_unfold /try_catch /bind store_calls matching_length.
  destruct (Z.ltb_spec ((default 1 (IQueryParams.page params) - 1)
                         * default 10 (IQueryParams.limit params)) 0)
    as [Hneg|_]; [nia|].
  destruct (Z.eqb_spec (default 10 (IQueryParams.limit params)) 0)
    as [Hz|_]; [lia|].
  rewrite Z.abs_eq; [lia|]. rewrite /healthy in Hh.
  destruct (faults w) as [|[] [|[] fs]]; simpl in *; try done.
  all: by repeat (apply Forall_cons in Hh as [? Hh]).
Qed.

(** whatever [findAll] answers holds posts of the collection only *)
Lemma findAll_data params w r w' :
  BlogRepository.findAll params w = (Return r, w') →
  ∃ l, data r = BlogRepository.normalize <$> l
       ∧ l `sublist_of` matching params w.
Proof.
  rewrite findAll_unfold /try_catch /bind /ret /logger_error store_calls.
  assert (∀ l : list IBlog.t, take (Z.to_nat (Z.abs (default 10 (IQueryParams.limit params))))
                 (drop (Z.to_nat ((default 1 (IQueryParams.page params) - 1)
                                  * default 10 (IQueryParams.limit params))) l)
               `sublist_of` l) as Htake.
  { intros l. etrans; [apply sublist_take|apply sublist_drop]. }
  repeat case_match; simplify_eq/=; intros; simplify_eq/=.
  all: try (exists []; split; [done|apply sublist_nil_l]).
  all: eexists; (split; [done|]); rewrite /matching /filterOf.
  all: first [apply Htake|apply sublist_drop].
Qed.

End Listing.

Section ListingClaims.
Context {js : Js.Engine} `{QueryEngine}.

(** a skip below zero, which the store rejects, ends the same way *)
Lemma findAll_bad_skip params w :
  (pageOf params - 1) * limitOf params < 0 →
  (BlogRepository.findAll params w).1 = Return emptyPage.
Proof.
  rewrite /pageOf /limitOf. intros Hneg.
  rewrite findAll_unfold /try_catch /bind store_calls.
  destruct (Z.ltb_spec ((default 1 (IQueryParams.page params) - 1)
                         * default 10 (IQueryParams.limit params)) 0)
    as [_|Hpos]; [|lia].
  by destruct (faults w) as [|[] fs].
Qed.

(** C8. [findAll] returns for every query and every world, without
    writing to the collection; when one of its two round trips to the
    store fails it returns no item, a total of 0 and 0 pages, and the
    failure is logged. *)
Theorem findAll_never_throws (params : IQueryParams.t) (w : World) :
  (∃ r w', BlogRepository.findAll params w = (Return r, w')
           ∧ blogs w' = blogs w)
  ∧ (failing 2 w →
     ∃ r w', BlogRepository.findAll params w = (Return r, w')
             ∧ data r = []
             ∧ pg_total (pagination r) = 0
             ∧ pg_totalPages (pagination r) = Finite 0
             ∧ blogs w' = blogs w
             ∧ errorLog w'
               = (errorLog w ++ ["Error fetching blogs: %o"])%list).
Proof.
  split; [apply findAll_returns|]. intros Hf.
  destruct (findAll_failing params w Hf) as (w' & -> & Hb & Hl).
  by exists emptyPage, w'.
Qed.

(** C9. For a query of page at least 1 and positive page size, while the
    store answers, [findAll] skips (page - 1) * limit of the matching
    posts and returns the next ones, at most limit of them; the total is
    the number of matching posts and the number of pages is the total
    divided by the limit, rounded up. With 23 matching posts and a limit
    of 10 there are 3 pages, page 3 has 3 items, and page 4 has none
    under the same total. *)
Theorem findAll_pagination (params : IQueryParams.t) (w : World) :
  1 ≤ pageOf params → 0 < limitOf params → healthy 2 w →
  ∃ r w' pages,
    BlogRepository.findAll params w = (Return r, w')
    ∧ data r
      = BlogRepository.normalize <$>
          take (Z.to_nat (limitOf params))
               (drop (Z.to_nat ((pageOf params - 1) * limitOf params))
                     (matching params w))
    ∧ Z.of_nat (List.length (data r)) ≤ limitOf params
    ∧ pg_page (pagination r) = pageOf params
    ∧ pg_limit (pagination r) = limitOf params
    ∧ pg_total (pagination r) = Z.of_nat (List.length (matching params w))
    ∧ pg_totalPages (pagination r) = Finite pages
    ∧ (pages - 1) * limitOf params < pg_total (pagination r)
        ≤ pages * limitOf params
    ∧ (pg_total (pagination r) = 23 → limitOf params = 10 →
       pages = 3
       ∧ (pageOf params = 3 → List.length (data r) = 3%nat)
       ∧ (pageOf params = 4 →
          data r = [] ∧ pg_total (pagination r) = 23)).
Proof.
  rewrite /pageOf /limitOf. intros Hp Hl Hh.
  rewrite (findAll_ok params w Hp Hl Hh).
  set (page := default 1 (IQueryParams.page params)) in *.
  set (limit := default 10 (IQueryParams.limit params)) in *.
  set (total := List.length (matching params w)).
  destruct (Math_ceil_div_pos (Z.of_nat total) limit Hl) as (pages & Hc & Hb).
  do 2 eexists. exists pages. split; [done|]. simpl.
  split; [done|]. rewrite length_fmap length_take length_drop -/total.
  split; [lia|]. do 4 (split; [done|]). split; [lia|].
  intros Ht Hten. split; [lia|]. split.
  - intros Hpage. rewrite Hpage Hten. lia.
  - intros Hpage. split; [|done]. rewrite drop_ge; [|by rewrite take_nil].
    rewrite -/total Hpage Hten. lia.
Qed.

(** [getAll] is [findAll]: a list is never falsy *)
Lemma getAll_findAll query w :
  BlogService.getAll blogRepository query w = BlogRepository.findAll query w.
Proof.
  rewrite /BlogService.getAll /blogRepository /bind /=.
  by destruct (BlogRepository.findAll query w) as [[r|e] w'].
Qed.

Lemma matching_empty params w : blogs w = ∅ → matching params w = [].
Proof.
  intros Hb. apply Permutation_nil_r. rewrite /matching sortBlogs_perm.
  by rewrite /documents Hb map_to_list_empty.
Qed.

(** C10. [getAll] returns for every query and every world, so it never
    fails with [NotFound]; on an empty collection, and when a round trip
    of [findAll] fails, what it returns has no item. *)
Theorem getAll_never_not_found (query : IQueryParams.t) (w : World) :
  (∃ r w', BlogService.getAll blogRepository query w = (Return r, w')
           ∧ blogs w' = blogs w)
  ∧ (blogs w = ∅ →
     ∃ r w', BlogService.getAll blogRepository query w = (Return r, w')
             ∧ data r = [])
  ∧ (failing 2 w →
     ∃ r w', BlogService.getAll blogRepository query w = (Return r, w')
             ∧ data r = []).
Proof.
  rewrite getAll_findAll. split_and!.
  - apply findAll_returns.
  - intros Hb. destruct (findAll_returns query w) as (r & w' & Hr & _).
    destruct (findAll_data _ _ _ _ Hr) as (l & Hd & Hl).
    rewrite (matching_empty _ _ Hb) in Hl. apply sublist_nil_r in Hl as ->.
    by exists r, w'.
  - intros Hf. destruct (findAll_failing query w Hf) as (w' & -> & _).
    by exists emptyPage, w'.
Qed.

End ListingClaims.

(* ====================================================================== *)
(** ** The statements on concrete collections *)
(* ====================================================================== *)

Lemma healthy_nil n d : healthy n (Sample.world d []).
Proof. rewrite /healthy /= take_nil. constructor. Qed.

Lemma draft_visibility_gate_witness :
  (BlogService.getById blogRepository Sample.postId false
     (Sample.world Sample.draft [])).1
  = Throw (Forbidden "Blog post is not published")
  ∧ (BlogService.getById blogRepository Sample.postId true
       (Sample.world Sample.draft [])).1
    = Return (BlogRepository.normalize Sample.draft)
  ∧ (BlogService.getBySlug blogRepository "a-first-post" false
       (Sample.world Sample.published [])).1
    = Return (BlogRepository.normalize Sample.published)
  ∧ (BlogService.getById blogRepository Sample.userA false
       (Sample.world Sample.draft [])).1
    = Throw (NotFound "Blog post not found").
Proof.
  destruct (draft_visibility_gate (Sample.world Sample.draft [])
              Sample.postId "a-first-post") as (H1 & H2 & _).
  destruct (draft_visibility_gate (Sample.world Sample.published [])
              Sample.postId "a-first-post") as (_ & _ & _ & _ & _ & _ & H7 & _).
  destruct (draft_visibility_gate (Sample.world Sample.draft [])
              Sample.userA "a-first-post") as (_ & _ & _ & H4 & _).
  split_and!.
  - apply (H1 Sample.draft); [apply healthy_nil|reflexivity..].
  - apply (H2 Sample.draft); [apply healthy_nil|reflexivity].
  - apply (H7 Sample.published); [apply healthy_nil|reflexivity|done].
  - apply H4. reflexivity.
Defined.

Lemma like_store_failure_is_conflict_witness :
  (BlogRepository.addLike Sample.postId Sample.userA
     (tick (Sample.world Sample.published [false; true]))).1
  = Return js_false
  ∧ (BlogService.addLike blogRepository Sample.postId Sample.userA
       (Sample.world Sample.published [false; true])).1
    = Throw (Conflict "Blog already liked")
  ∧ (BlogRepository.removeLike Sample.postId Sample.userA
       (tick (Sample.world Sample.published [false; true]))).1
    = Return js_false
  ∧ (BlogService.removeLike blogRepository Sample.postId Sample.userA
       (Sample.world Sample.published [false; true])).1
    = Throw (Conflict "Like not found").
Proof.
  apply (like_store_failure_is_conflict
           (Sample.world Sample.published [false; true])
           Sample.postId Sample.userA Sample.published []).
  - vm_compute. reflexivity.
  - reflexivity.
Defined.

(** C2, as stated, fails: publishing a post scheduled for the time 5000
    at the time 1000 leaves it scheduled for 1000. *)
Lemma publish_overwrites_scheduledFor :
  ¬ (∀ (w : World) (postId : string) (d : IBlog.t),
       healthy 1 w → stored w postId = Some d →
       ∃ d', stored (BlogRepository.publish postId w).2 postId = Some d'
             ∧ IBlog.status d' = PUBLISHED
             ∧ IBlog.publishedAt d' = Some (now w)
             ∧ IBlog.scheduledFor d' = IBlog.scheduledFor d
             ∧ sameContent d d').
Proof.
  intros Hclaim.
  destruct (Hclaim (Sample.world Sample.scheduled []) Sample.postId
              Sample.scheduled (healthy_nil 1 _) eq_refl)
    as (d' & Hd' & _ & _ & Hs & _).
  vm_compute in Hd'. injection Hd' as <-. discriminate Hs.
Qed.

Lemma publish_sets_status_and_dates_witness :
  ∃ d' w',
    BlogRepository.publish Sample.postId (Sample.world Sample.scheduled [])
    = (Return (Some (BlogRepository.normalize d')), w')
    ∧ IBlog.status d' = PUBLISHED
    ∧ IBlog.publishedAt d' = Some 1000
    ∧ IBlog.scheduledFor d' = Some 1000
    ∧ IBlog.title d' = IBlog.title Sample.scheduled.
Proof.
  destruct (publish_sets_status_and_dates
              (Sample.world Sample.scheduled []) Sample.postId Sample.scheduled
              (healthy_nil 1 _) eq_refl)
    as (d' & w' & Hp & _ & _ & Hs & Hpub & Hsch & _ & Hsame).
  exists d', w'. split; [exact Hp|]. split; [exact Hs|].
  split; [exact Hpub|]. split; [exact Hsch|]. apply Hsame.
Defined.

Lemma slug_never_changes_witness :
  (∃ d', stored (BlogRepository.updateById Sample.postId Sample.rename
                   (Sample.world Sample.draft [])).2 Sample.postId = Some d'
         ∧ IBlog.slug d' = "a-first-post")
  ∧ (∀ d', blogs (serve Sample.slugify (Update Sample.postId Sample.rename)
                    (Sample.world Sample.draft [])).2 !! Sample.postId
           = Some d' →
           IBlog.slug d' = "a-first-post").
Proof.
  destruct (slug_never_changes Sample.slugify) as [Hupdate Hserve]. split.
  - apply (Hupdate (Sample.world Sample.draft []) Sample.postId Sample.rename
             Sample.draft).
    reflexivity.
  - intros d'.
    apply (Hserve (Update Sample.postId Sample.rename)
             (Sample.world Sample.draft []) Sample.postId Sample.draft d').
    reflexivity.
Defined.

Lemma likes_unique_per_user_witness :
  LikesInvariant
    (serve Sample.slugify (AddLike Sample.postId Sample.userA)
       (Sample.world Sample.liked [])).2
  ∧ (BlogRepository.addLike Sample.postId Sample.userA
       (Sample.world Sample.liked [])).1 = Return js_null
  ∧ ∃ w3,
      BlogService.addLike blogRepository Sample.postId Sample.userA
        (BlogService.addLike blogRepository Sample.postId Sample.userA
           (Sample.world Sample.published [])).2
      = (Throw (Conflict "Blog already liked"), w3)
      ∧ blogs w3
        = blogs (BlogService.addLike blogRepository Sample.postId Sample.userA
                   (Sample.world Sample.published [])).2.
Proof.
  destruct (likes_unique_per_user Sample.slugify) as (Hinv & Hagain & Htwice).
  split_and!.
  - apply Hinv. apply map_Forall_singleton.
    rewrite /likesUnique /=. apply NoDup_singleton.
  - apply (Hagain (Sample.world Sample.liked []) Sample.postId Sample.userA
             Sample.liked Sample.userA); [reflexivity..|].
    apply healthy_nil.
  - apply (Htwice (Sample.world Sample.published [])).
    + vm_compute. reflexivity.
    + reflexivity.
    + rewrite /healthy. vm_compute. constructor.
Defined.

Lemma publish_published_conflict_witness :
  ∃ w', BlogService.publish blogRepository Sample.postId
          (Sample.world Sample.published [])
        = (Throw (Conflict "Blog post already published"), w')
        ∧ blogs w' = blogs (Sample.world Sample.published [])
        ∧ stored w' Sample.postId = Some Sample.published
        ∧ errorLog w' = [].
Proof.
  apply (publish_published_conflict (Sample.world Sample.published [])
           Sample.postId Sample.published).
  - apply healthy_nil.
  - reflexivity.
  - reflexivity.
Defined.

Lemma schedule_validation_witness :
  BlogService.schedule blogRepository Sample.postId 1000
    (Sample.world Sample.draft [])
  = (Throw (BadRequest "Publish date must be in the future"),
     Sample.world Sample.draft [])
  ∧ ∃ d' w',
      BlogService.schedule blogRepository Sample.postId 5000
        (Sample.world Sample.draft [])
      = (Return (BlogRepository.normalize d'), w')
      ∧ stored w' Sample.postId = Some d'
      ∧ IBlog.status d' = SCHEDULED
      ∧ IBlog.scheduledFor d' = Some 5000.
Proof.
  split.
  - apply (schedule_validation (Sample.world Sample.draft []) Sample.postId 1000).
    simpl. lia.
  - destruct (proj2 (schedule_validation (Sample.world Sample.draft [])
                       Sample.postId 5000) Sample.draft)
      as (d' & w' & Hs & Hd & Hst & Hsch & _).
    + simpl. lia.
    + apply healthy_nil.
    + reflexivity.
    + by exists d', w'.
Defined.

Lemma findAll_never_throws_witness :
  ∃ r w', BlogRepository.findAll (Sample.pageOfTen 1)
            (Sample.world Sample.published [true]) = (Return r, w')
          ∧ data r = []
          ∧ pg_total (pagination r) = 0
          ∧ pg_totalPages (pagination r) = Finite 0
          ∧ blogs w' = blogs (Sample.world Sample.published [true])
          ∧ errorLog w' = ["Error fetching blogs: %o"].
Proof.
  apply (findAll_never_throws (Sample.pageOfTen 1)
           (Sample.world Sample.published [true])).
  rewrite /failing /=. by constructor.
Defined.

(** C9, as stated for every query, fails: the query for page 0 of a
    collection of 23 posts asks the store to skip -10 posts, which the
    store rejects, and is answered with no post, a total of 0 and 0
    pages. *)
Lemma findAll_page_zero_reports_nothing :
  ¬ (∀ (params : IQueryParams.t) (w : World),
       healthy 2 w →
       ∃ r w' pages,
         BlogRepository.findAll params w = (Return r, w')
         ∧ data r
           = BlogRepository.normalize <$>
               take (Z.to_nat (limitOf params))
                    (drop (Z.to_nat ((pageOf params - 1) * limitOf params))
                          (matching params w))
         ∧ Z.of_nat (List.length (data r)) ≤ limitOf params
         ∧ pg_page (pagination r) = pageOf params
         ∧ pg_limit (pagination r) = limitOf params
         ∧ pg_total (pagination r)
           = Z.of_nat (List.length (matching params w))
         ∧ pg_totalPages (pagination r) = Finite pages
         ∧ (pages - 1) * limitOf params < pg_total (pagination r)
             ≤ pages * limitOf params).
Proof.
  intros Hclaim.
  destruct (Hclaim (Sample.pageOfTen 0) (Sample.library 23))
    as (r & w' & pages & Hr & _ & _ & _ & _ & Ht & _).
  { rewrite /healthy /=. constructor. }
  vm_compute in Hr. injection Hr as <- _.
  vm_compute in Ht. discriminate Ht.
Qed.

Lemma findAll_pagination_witness :
  (∃ r w',
     BlogRepository.findAll (Sample.pageOfTen 3) (Sample.library 23)
     = (Return r, w')
     ∧ pg_total (pagination r) = 23
     ∧ pg_totalPages (pagination r) = Finite 3
     ∧ List.length (data r) = 3%nat)
  ∧ (∃ r w',
     BlogRepository.findAll (Sample.pageOfTen 4) (Sample.library 23)
     = (Return r, w')
     ∧ pg_total (pagination r) = 23
     ∧ pg_totalPages (pagination r) = Finite 3
     ∧ data r = []).
Proof.
  assert (healthy 2 (Sample.library 23)) as Hh.
  { rewrite /healthy /=. constructor. }
  split.
  - destruct (findAll_pagination (Sample.pageOfTen 3) (Sample.library 23))
      as (r & w' & pages & Hr & _ & _ & _ & _ & Ht & Hp & _ & H23);
      [by vm_compute..|exact Hh|].
    assert (pg_total (pagination r) = 23) as Htotal.
    { rewrite Ht. vm_compute. reflexivity. }
    destruct (H23 Htotal eq_refl) as (-> & Hthree & _).
    exists r, w'. split; [exact Hr|]. split; [exact Htotal|].
    split; [exact Hp|]. exact (Hthree eq_refl).
  - destruct (findAll_pagination (Sample.pageOfTen 4) (Sample.library 23))
      as (r & w' & pages & Hr & _ & _ & _ & _ & Ht & Hp & _ & H23);
      [by vm_compute..|exact Hh|].
    assert (pg_total (pagination r) = 23) as Htotal.
    { rewrite Ht. vm_compute. reflexivity. }
    destruct (H23 Htotal eq_refl) as (-> & _ & Hfour).
    exists r, w'. split; [exact Hr|]. split; [exact Htotal|].
    split; [exact Hp|]. exact (proj1 (Hfour eq_refl)).
Defined.

Lemma getAll_never_not_found_witness :
  (∃ r w', BlogService.getAll blogRepository (Sample.pageOfTen 1) Sample.empty
           = (Return r, w')
           ∧ data r = [])
  ∧ (∃ r w', BlogService.getAll blogRepository (Sample.pageOfTen 1)
               (Sample.world Sample.published [false; true])
             = (Return r, w')
             ∧ data r = []).
Proof.
  split.
  - destruct (getAll_never_not_found (Sample.pageOfTen 1) Sample.empty)
      as (_ & Hempty & _).
    apply Hempty. reflexivity.
  - destruct (getAll_never_not_found (Sample.pageOfTen 1)
                (Sample.world Sample.published [false; true]))
      as (_ & _ & Hfailing).
    apply Hfailing. rewrite /failing /=. apply Exists_cons_tl. by constructor.
Defined.

(* ====================================================================== *)
(** ** One write per operation *)
(* ====================================================================== *)

Section Steps.
Context {A B : Type}.

Lemma Silent_Stepping (m : M A) : Silent m → Stepping m.
Proof. intros Hm w. rewrite Hm. constructor. Qed.

Lemma Stepping_after (m : M A) (k : A → M B) :
  Silent m → (∀ a, Stepping (k a)) → Stepping (bind m k).
Proof.
  intros Hm Hk w. rewrite /bind. specialize (Hm w).
  destruct (m w) as [[a|e] w1]; simpl in *.
  - rewrite -Hm. apply Hk.
  - rewrite Hm. constructor.
Qed.

Lemma Stepping_before (m : M A) (k : A → M B) :
  Stepping m → (∀ a, Silent (k a)) → Stepping (bind m k).
Proof.
  intros Hm Hk w. rewrite /bind. specialize (Hm w).
  destruct (m w) as [[a|e] w1]; simpl in *; [|done].
  by rewrite Hk.
Qed.

Lemma Stepping_try_catch (body : M A) (handler : Exception → M A) :
  Stepping body → (∀ e, Silent (handler e)) →
  Stepping (try_catch body handler).
Proof.
  intros Hm Hk w. rewrite /try_catch. specialize (Hm w).
  destruct (body w) as [[a|e] w1]; simpl in *; [done|].
  by rewrite Hk.
Qed.

End Steps.

Lemma documents_elem_of (b : gmap string IBlog.t) (d : IBlog.t) :
  d ∈ documents b ↔ ∃ oid, b !! oid = Some d.
Proof.
  rewrite /documents list_elem_of_fmap. split.
  - intros ([oid d'] & -> & Hin). exists oid. by apply elem_of_map_to_list.
  - intros (oid & Hd). exists (oid, d). split; [done|].
    by apply elem_of_map_to_list.
Qed.

Lemma castUpdate_set_Kept `{Js.Engine} updates change t d :
  Schema.castUpdate (Schema.set_ updates) = Some change → Kept d (change t d).
Proof.
  intros Hc.
  destruct (castUpdate_set_frame _ _ t d Hc) as (? & ? & ? & Hl & Hv & ? & _).
  rewrite /Kept /likesUnique Hl Hv. split_and!; (done || lia).
Qed.

Lemma castCreate_Fresh `{Js.Engine} data oid t doc :
  Schema.castCreate data oid t = Some doc →
  IBlog._id doc = oid ∧ IBlog.viewCount doc = 0 ∧ IBlog.likes doc = []
  ∧ IBlog.createdAt doc = t ∧ IBlog.updatedAt doc = t
  ∧ IBlog.publishedAt doc = None
  ∧ IBlog.status doc = default DRAFT (ICreateBlogDto.status data)
  ∧ IBlog.visibility doc = default PUBLIC (ICreateBlogDto.visibility data)
  ∧ Some (IBlog.slug doc) = Schema.set_lower_trim <$> ICreateBlogDto.slug data
  ∧ IBlog.title doc = Js.trim (ICreateBlogDto.title data)
  ∧ IBlog.content doc = ICreateBlogDto.content data
  ∧ Some (IBlog.author doc)
    = ICreateBlogDto.author data ≫= Types.ObjectId_new.
Proof.
  rewrite /Schema.castCreate. intros Hc.
  repeat (case_match || simplify_option_eq); simplify_eq/=; done.
Qed.

Section StepFacts.
Context {js : Js.Engine} `{QueryEngine}.

Lemma Stepping_Blog_findByIdAndUpdate id update returnNew :
  (∀ change t d, Schema.castUpdate update = Some change →
     Kept d (change t d)) →
  Stepping (Blog_findByIdAndUpdate id update returnNew).
Proof.
  intros Hc w. rewrite /Blog_findByIdAndUpdate. run.
  destruct (Types.ObjectId_new id) as [oid|]; simpl; [|apply step_none].
  destruct (Schema.castUpdate update) as [change|] eqn:Hu; simpl;
    [|apply step_none].
  rewrite roundTrip_eq. destruct (faults w) as [|[] ?]; simpl;
    try apply step_none.
  all: destruct (blogs w !! oid) as [d|] eqn:Hd; simpl; try apply step_none.
  all: apply (step_write _ _ d); [exact Hd|by apply Hc].
Qed.

Lemma Stepping_Blog_findByIdAndDelete id :
  Stepping (Blog_findByIdAndDelete id).
Proof.
  intros w. rewrite /Blog_findByIdAndDelete. run.
  destruct (Types.ObjectId_new id) as [oid|]; simpl; [|apply step_none].
  rewrite roundTrip_eq. destruct (faults w) as [|[] ?]; simpl;
    try apply step_none.
  all: destruct (blogs w !! oid) as [d|] eqn:Hd; simpl; try apply step_none.
  all: apply step_delete.
Qed.

Lemma Stepping_Blog_updateOne oid guard update :
  (∀ change t d, Schema.castUpdate update = Some change → guard d = true →
     Kept d (change t d)) →
  Stepping (Blog_updateOne oid guard update).
Proof.
  intros Hc w. rewrite /Blog_updateOne. run.
  destruct (Schema.castUpdate update) as [change|] eqn:Hu; simpl;
    [|apply step_none].
  rewrite roundTrip_eq. destruct (faults w) as [|[] ?]; simpl;
    try apply step_none.
  all: destruct (blogs w !! oid) as [d|] eqn:Hd; simpl; try apply step_none.
  all: destruct (guard d) eqn:Hg; simpl; try apply step_none.
  all: apply (step_write _ _ d); [exact Hd|by apply Hc].
Qed.

Lemma Stepping_Blog_create data : Stepping (Blog_create data).
Proof.
  intros w. rewrite /Blog_create. run.
  destruct (Schema.castCreate _ _ _) as [doc|] eqn:Hc; simpl; [|apply step_none].
  apply castCreate_Fresh in Hc as (Hid & Hv & Hl & _).
  rewrite roundTrip_eq /=. destruct (faults w) as [|[] ?]; simpl;
    try apply step_none.
  all: case_bool_decide as Hin; simpl; try apply step_none.
  all: destruct (existsb _ _) eqn:Hdup; simpl; try apply step_none.
  all: apply step_insert; [by apply eq_None_not_Some|].
  all: split_and!; try done.
  all: intros o d Hd Hs.
  all: apply not_true_iff_false in Hdup; apply Hdup, existsb_exists.
  all: exists d; split; [|by rewrite Hs String.eqb_refl].
  all: apply list_elem_of_In, documents_elem_of; by exists o.
Qed.

Lemma Stepping_updateById id updates :
  Stepping (BlogRepository.updateById id updates).
Proof.
  rewrite /BlogRepository.updateById. apply Stepping_try_catch; [|by silent].
  apply Stepping_before; [|by silent].
  apply Stepping_Blog_findByIdAndUpdate. intros change t d Hc.
  by apply (castUpdate_set_Kept updates).
Qed.

Lemma Stepping_publish postId : Stepping (BlogRepository.publish postId).
Proof.
  rewrite /BlogRepository.publish.
  do 2 (apply Stepping_after; [by silent|intros ?]).
  apply Stepping_updateById.
Qed.

Lemma Stepping_create data : Stepping (BlogRepository.create data).
Proof.
  rewrite /BlogRepository.create. apply Stepping_try_catch; [|by silent].
  apply Stepping_before; [apply Stepping_Blog_create|by silent].
Qed.

Lemma Stepping_deleteById id : Stepping (BlogRepository.deleteById id).
Proof.
  rewrite /BlogRepository.deleteById. apply Stepping_try_catch; [|by silent].
  apply Stepping_before; [apply Stepping_Blog_findByIdAndDelete|by silent].
Qed.

Lemma Stepping_incrementViewCount id :
  Stepping (BlogRepository.incrementViewCount id).
Proof.
  rewrite /BlogRepository.incrementViewCount.
  apply Stepping_try_catch; [|by silent].
  apply Stepping_before; [|by silent].
  apply Stepping_Blog_findByIdAndUpdate. intros change t d [= <-].
  rewrite /Kept /likesUnique /=. split_and!; (done || lia).
Qed.

Lemma Stepping_addLike postId userId :
  Stepping (BlogRepository.addLike postId userId).
Proof.
  rewrite /BlogRepository.addLike. apply Stepping_try_catch; [|by silent].
  do 3 (apply Stepping_after; [by silent|intros ?]).
  apply Stepping_before; [|by silent].
  apply Stepping_Blog_updateOne. intros change t d [= <-] Hg.
  rewrite /Kept /=. split_and!; try (done || lia).
  apply push_like_unique. by destruct (Schema.likedBy _ _).
Qed.

Lemma Stepping_removeLike postId userId :
  Stepping (BlogRepository.removeLike postId userId).
Proof.
  rewrite /BlogRepository.removeLike. apply Stepping_try_catch; [|by silent].
  do 2 (apply Stepping_after; [by silent|intros ?]).
  apply Stepping_before; [|by silent].
  apply Stepping_Blog_updateOne. intros change t d [= <-] Hg.
  rewrite /Kept /=. split_and!; try (done || lia).
  apply pull_like_unique.
Qed.

(** every exposed operation is at most one write to the collection *)
Lemma Stepping_serve slugify (r : Request) : Stepping (serve slugify r).
Proof.
  pose proof Silent_findById. pose proof Silent_findBySlug.
  pose proof Silent_findAll.
  destruct r; rewrite /serve /discard /blogRepository;
    (apply Stepping_before; [|by silent]).
  - rewrite /BlogService.create /=. case_match; [by apply Silent_Stepping|].
    apply Stepping_before; [apply Stepping_create|by silent].
  - rewrite /BlogService.getById /=. apply Silent_Stepping. silent.
  - rewrite /BlogService.getBySlug /=. apply Silent_Stepping. silent.
  - rewrite /BlogService.getAll /=. apply Silent_Stepping. silent.
  - rewrite /BlogService.update /=.
    do 2 (case_match; [by apply Silent_Stepping|]).
    apply Stepping_after; [done|intros [post|]]; [|by apply Silent_Stepping].
    apply Stepping_before; [apply Stepping_updateById|by silent].
  - rewrite /BlogService.delete /=.
    apply Stepping_before; [apply Stepping_deleteById|by silent].
  - rewrite /BlogService.incrementViewCount /=.
    apply Stepping_before; [apply Stepping_incrementViewCount|by silent].
  - rewrite /BlogService.addLike /=.
    apply Stepping_after; [done|intros [post|]]; [|by apply Silent_Stepping].
    apply Stepping_before; [apply Stepping_addLike|by silent].
  - rewrite /BlogService.removeLike /=.
    apply Stepping_after; [done|intros [post|]]; [|by apply Silent_Stepping].
    apply Stepping_before; [apply Stepping_removeLike|by silent].
  - rewrite /BlogService.schedule /=.
    apply Stepping_after; [by silent|intros today].
    case_match; [by apply Silent_Stepping|].
    apply Stepping_after; [done|intros [post|]]; [|by apply Silent_Stepping].
    apply Stepping_before; [apply Stepping_updateById|by silent].
  - rewrite /BlogService.publish /=.
    apply Stepping_after; [done|intros [post|]]; [|by apply Silent_Stepping].
    case_match; [by apply Silent_Stepping|].
    apply Stepping_before; [apply Stepping_publish|by silent].
  - rewrite /BlogService.archive /=.
    apply Stepping_after; [done|intros [post|]]; [|by apply Silent_Stepping].
    apply Stepping_before; [apply Stepping_updateById|by silent].
Qed.

End StepFacts.

(* ====================================================================== *)
(** ** Invariants of the collection *)
(* ====================================================================== *)

Lemma Step_touches_one (b b' : gmap string IBlog.t) :
  Step b b' →
  ∀ o1 o2, b' !! o1 ≠ b !! o1 → b' !! o2 ≠ b !! o2 → o1 = o2.
Proof.
  intros [|oid d d' _ _|oid|oid d' _ _] o1 o2; [done|..].
  all: rewrite ?lookup_insert ?lookup_delete; repeat case_decide; congruence.
Qed.

Lemma Step_Kept (b b' : gmap string IBlog.t) oid d d' :
  Step b b' → b !! oid = Some d → b' !! oid = Some d' → Kept d d'.
Proof.
  assert (Kept d d) as Hrefl by (rewrite /Kept; split_and!; (done || lia)).
  intros [|o x x' Hx Hk|o|o x' Hx Hf] Hd.
  - by intros ?; simplify_eq.
  - rewrite lookup_insert. case_decide; intros ?; by simplify_eq.
  - rewrite lookup_delete. case_decide; intros ?; by simplify_eq.
  - rewrite lookup_insert. case_decide; intros ?; by simplify_eq.
Qed.

Lemma Step_SlugsUnique (b b' : gmap string IBlog.t) :
  Step b b' → SlugsUnique b → SlugsUnique b'.
Proof.
  intros [|o x x' Hx Hk|o|o x' Hx Hf] Hu o1 o2 d1 d2; [by apply Hu|..].
  - destruct Hk as (_ & Hs & _). rewrite !lookup_insert.
    repeat case_decide; intros; simplify_eq; try done.
    + apply (Hu o1 o2 x d2); congruence.
    + apply (Hu o1 o2 d1 x); congruence.
    + by apply (Hu o1 o2 d1 d2).
  - rewrite !lookup_delete. repeat case_decide; intros; simplify_eq.
    by apply (Hu o1 o2 d1 d2).
  - destruct Hf as (_ & _ & _ & Hs). rewrite !lookup_insert.
    repeat case_decide; intros; simplify_eq; try done.
    + by destruct (Hs o2 d2).
    + by destruct (Hs o1 d1).
    + by apply (Hu o1 o2 d1 d2).
Qed.

Lemma Step_WellKeyed (b b' : gmap string IBlog.t) :
  Step b b' → WellKeyed b → WellKeyed b'.
Proof.
  intros [|o x x' Hx Hk|o|o x' Hx Hf] Hw oid d; [by apply Hw|..].
  - destruct Hk as (Hid & _). rewrite lookup_insert.
    case_decide; intros; simplify_eq; [|by apply Hw].
    rewrite Hid. by apply Hw.
  - rewrite lookup_delete. case_decide; intros; simplify_eq. by apply Hw.
  - destruct Hf as (Hid & _). rewrite lookup_insert.
    case_decide; intros; simplify_eq; [done|by apply Hw].
Qed.

Lemma Step_ViewsNonNegative (b b' : gmap string IBlog.t) :
  Step b b' → ViewsNonNegative b → ViewsNonNegative b'.
Proof.
  intros [|o x x' Hx Hk|o|o x' Hx Hf] Hw oid d; [by apply Hw|..].
  - destruct Hk as (_ & _ & _ & _ & Hv & _). rewrite lookup_insert.
    case_decide; intros; simplify_eq; [|by apply (Hw oid)].
    pose proof (Hw _ _ Hx). lia.
  - rewrite lookup_delete. case_decide; intros; simplify_eq. by apply (Hw oid).
  - destruct Hf as (_ & Hv & _). rewrite lookup_insert.
    case_decide; intros; simplify_eq; [lia|by apply (Hw oid)].
Qed.

Section Invariants.
Context {js : Js.Engine} `{QueryEngine}.

(** X1. An exposed operation changes at most one post: if two identifiers
    denote something else after it than before, they are the same. *)
Theorem operation_touches_one_post (slugify : string → string)
    (r : Request) (w : World) (o1 o2 : string) :
  blogs (serve slugify r w).2 !! o1 ≠ blogs w !! o1 →
  blogs (serve slugify r w).2 !! o2 ≠ blogs w !! o2 →
  o1 = o2.
Proof. apply Step_touches_one, Stepping_serve. Qed.

(** X2. Across any exposed operation the slugs of the collection stay
    pairwise different, and each post stays stored under its own
    identifier. *)
Theorem slugs_stay_unique (slugify : string → string) (r : Request)
    (w : World) :
  (SlugsUnique (blogs w) → SlugsUnique (blogs (serve slugify r w).2))
  ∧ (WellKeyed (blogs w) → WellKeyed (blogs (serve slugify r w).2)).
Proof.
  pose proof (Stepping_serve slugify r w) as Hs. split.
  - by apply Step_SlugsUnique.
  - by apply Step_WellKeyed.
Qed.

(** X3. Across any exposed operation the views of a post that is still
    there do not go down, and no post gets a negative number of views. *)
Theorem views_never_decrease (slugify : string → string) (r : Request)
    (w : World) :
  (∀ oid d d', blogs w !! oid = Some d →
     blogs (serve slugify r w).2 !! oid = Some d' →
     IBlog.viewCount d ≤ IBlog.viewCount d')
  ∧ (ViewsNonNegative (blogs w) →
     ViewsNonNegative (blogs (serve slugify r w).2)).
Proof.
  pose proof (Stepping_serve slugify r w) as Hs. split.
  - intros oid d d' Hd Hd'.
    by destruct (Step_Kept _ _ _ _ _ Hs Hd Hd') as (_ & _ & _ & _ & ? & _).
  - by apply Step_ViewsNonNegative.
Qed.

(** X4. Across any exposed operation a post that is still there has the
    identifier, the author and the creation time it had. *)
Theorem author_and_creation_never_change (slugify : string → string)
    (r : Request) (w : World) (oid : string) (d d' : IBlog.t) :
  blogs w !! oid = Some d →
  blogs (serve slugify r w).2 !! oid = Some d' →
  IBlog._id d' = IBlog._id d
  ∧ IBlog.author d' = IBlog.author d
  ∧ IBlog.createdAt d' = IBlog.createdAt d.
Proof.
  intros Hd Hd'. pose proof (Stepping_serve slugify r w) as Hs.
  by destruct (Step_Kept _ _ _ _ _ Hs Hd Hd') as (? & _ & ? & ? & _).
Qed.

(** X5. The three reading operations never write: whatever the world and
    the outcome, the collection is as it was. *)
Theorem reads_never_write (w : World) (id slug : string)
    (includeDrafts : bool) (query : IQueryParams.t) :
  blogs (BlogService.getById blogRepository id includeDrafts w).2 = blogs w
  ∧ blogs (BlogService.getBySlug blogRepository slug includeDrafts w).2
    = blogs w
  ∧ blogs (BlogService.getAll blogRepository query w).2 = blogs w.
Proof.
  pose proof Silent_findById. pose proof Silent_findBySlug.
  split_and!.
  - assert (Silent (BlogService.getById blogRepository id includeDrafts))
      as Hs by (rewrite /BlogService.getById /blogRepository /=; silent).
    apply Hs.
  - assert (Silent (BlogService.getBySlug blogRepository slug includeDrafts))
      as Hs by (rewrite /BlogService.getBySlug /blogRepository /=; silent).
    apply Hs.
  - rewrite getAll_findAll. apply Silent_findAll.
Qed.

End Invariants.

(* ====================================================================== *)
(** ** Views and likes, exactly *)
(* ====================================================================== *)

Lemma healthy_set_blogs n b w : healthy n (set_blogs b w) ↔ healthy n w.
Proof. done. Qed.

Lemma stored_None_valid w id :
  Types.ObjectId_isValid id = true → stored w id = None →
  blogs w !! Types.toHexString id = None.
Proof. rewrite /stored /Types.ObjectId_new. by intros ->. Qed.

Lemma pull_pushed (u : string) (t : Z) (ls : list IBlogLikeMongo) :
  existsb (λ l, String.eqb (like_user l) u) ls = false →
  List.filter (λ l, negb (String.eqb (like_user l) u))
    (ls ++ [mkLikeMongo u t])%list = ls.
Proof.
  induction ls as [|l ls IH]; simpl.
  - by rewrite String.eqb_refl.
  - intros [Hl Hls]%orb_false_elim. rewrite Hl /=. by rewrite IH.
Qed.

Section Engagement.
Context {js : Js.Engine} `{QueryEngine}.

Lemma incrementViewCount_ok id w d :
  healthy 1 w → stored w id = Some d →
  BlogService.incrementViewCount blogRepository id w
  = (Return true,
     set_blogs
       (<[Types.toHexString id :=
            Schema.with_engagement (IBlog.viewCount d + 1) (IBlog.likes d)
              (now w) d]> (blogs w))
       (tick w)).
Proof.
  intros Hh [Hv Hd]%stored_Some.
  rewrite /BlogService.incrementViewCount /blogRepository /=.
  rewrite /BlogRepository.incrementViewCount /Blog_findByIdAndUpdate
          /Types.ObjectId_new Hv.
  run. rewrite roundTrip_ok //=. run. by rewrite Hd.
Qed.

(** X6. Counting a view of an existing post, while the store answers,
    succeeds and adds exactly one to its views; its likes and every other
    field but [updatedAt] stay, and so does every other post. *)
Theorem view_count_plus_one (w : World) (id : string) (d : IBlog.t) :
  healthy 1 w → stored w id = Some d →
  ∃ d' w',
    BlogService.incrementViewCount blogRepository id w = (Return true, w')
    ∧ blogs w' = <[Types.toHexString id := d']> (blogs w)
    ∧ stored w' id = Some d'
    ∧ IBlog.viewCount d' = IBlog.viewCount d + 1
    ∧ IBlog.likes d' = IBlog.likes d
    ∧ sameButEngagement d d'.
Proof.
  intros Hh Hd. rewrite (incrementViewCount_ok _ _ d) //.
  do 2 eexists. split; [done|]. split; [done|].
  split; [by apply (stored_set_blogs_insert w _ _ d)|].
  rewrite /sameButEngagement /=. done.
Qed.

(** X7. [n] views counted one after the other, while the store answers,
    add exactly [n] to the views of the post. *)
Theorem views_add_up (n : nat) (w : World) (id : string) (d : IBlog.t) :
  healthy n w → stored w id = Some d →
  ∃ d',
    stored (repeatedly n (BlogService.incrementViewCount blogRepository id) w)
           id = Some d'
    ∧ IBlog.viewCount d' = IBlog.viewCount d + Z.of_nat n.
Proof.
  rewrite /repeatedly. revert w d. induction n as [|n IH]; intros w d Hh Hd.
  - exists d. split; [done|]. simpl. lia.
  - rewrite Nat.iter_succ_r.
    apply healthy_S in Hh as [Hh1 Hhn].
    rewrite (incrementViewCount_ok _ _ d) //=.
    edestruct (IH (set_blogs
                     (<[Types.toHexString id :=
                          Schema.with_engagement (IBlog.viewCount d + 1)
                            (IBlog.likes d) (now w) d]> (blogs w))
                     (tick w))) as (d' & Hd' & Hv).
    + exact Hhn.
    + by apply (stored_set_blogs_insert w _ _ d).
    + exists d'. split; [exact Hd'|]. rewrite Hv /=. lia.
Qed.

(** X8. Counting a view of a post that is not there is [NotFound]; when
    the identifier is malformed, or the round trip fails, it is
    [InternalError]. Nothing is written in either case. *)
Theorem view_count_errors (w : World) (id : string) :
  (Types.ObjectId_isValid id = true → stored w id = None → healthy 1 w →
     (BlogService.incrementViewCount blogRepository id w).1
     = Throw (NotFound "Blog post not found")
     ∧ blogs (BlogService.incrementViewCount blogRepository id w).2 = blogs w)
  ∧ (Types.ObjectId_isValid id = false →
     (BlogService.incrementViewCount blogRepository id w).1
     = Throw (InternalError "Failed to increment view count")
     ∧ blogs (BlogService.incrementViewCount blogRepository id w).2 = blogs w)
  ∧ (∀ fs, faults w = true :: fs →
     (BlogService.incrementViewCount blogRepository id w).1
     = Throw (InternalError "Failed to increment view count")
     ∧ blogs (BlogService.incrementViewCount blogRepository id w).2 = blogs w).
Proof.
  rewrite /BlogService.incrementViewCount /blogRepository /=.
  rewrite /BlogRepository.incrementViewCount /Blog_findByIdAndUpdate
          /Types.ObjectId_new.
  split_and!.
  - intros Hv Hd Hh. apply stored_None_valid in Hd; [|done].
    rewrite Hv. run. rewrite roundTrip_ok //=. run. by rewrite Hd.
  - intros ->. by run.
  - intros fs Hf. destruct (Types.ObjectId_isValid id); run; [|done].
    by rewrite (roundTrip_failed _ fs).
Qed.

Lemma addLike_fresh postId userId u w d :
  healthy 1 w → stored w postId = Some d →
  Types.ObjectId_new userId = Some u → Schema.likedBy u d = false →
  BlogRepository.addLike postId userId w
  = (Return js_true,
     set_blogs
       (<[Types.toHexString postId :=
            Schema.with_engagement (IBlog.viewCount d)
              (IBlog.likes d ++ [mkLikeMongo u (now w)])%list (now w) d]>
          (blogs w))
       (tick w)).
Proof.
  intros Hh [Hv Hd]%stored_Some Hu Hl.
  rewrite /BlogRepository.addLike /Blog_updateOne {1}/Types.ObjectId_new Hv Hu.
  run. rewrite roundTrip_ok //=. run. by rewrite Hd Hl.
Qed.

Lemma removeLike_present postId userId u w d :
  healthy 1 w → stored w postId = Some d →
  Types.ObjectId_new userId = Some u → Schema.likedBy u d = true →
  BlogRepository.removeLike postId userId w
  = (Return js_true,
     set_blogs
       (<[Types.toHexString postId :=
            Schema.with_engagement (IBlog.viewCount d)
              (List.filter (λ l, negb (String.eqb (like_user l) u))
                           (IBlog.likes d))
              (now w) d]>
          (blogs w))
       (tick w)).
Proof.
  intros Hh [Hv Hd]%stored_Some Hu Hl.
  rewrite /BlogRepository.removeLike /Blog_updateOne {1}/Types.ObjectId_new Hv Hu.
  run. rewrite roundTrip_ok //=. run. by rewrite Hd Hl.
Qed.

(** X9. A like of a post the user does not like yet, while the store
    answers, succeeds and appends one like, of that user at the current
    time, after the likes there were; the views and every other field but
    [updatedAt] stay. *)
Theorem like_appends_one (w : World) (postId userId u : string)
    (d : IBlog.t) :
  healthy 2 w → stored w postId = Some d →
  Types.ObjectId_new userId = Some u → Schema.likedBy u d = false →
  ∃ d' w',
    BlogService.addLike blogRepository postId userId w = (Return true, w')
    ∧ blogs w' = <[Types.toHexString postId := d']> (blogs w)
    ∧ stored w' postId = Some d'
    ∧ IBlog.likes d' = (IBlog.likes d ++ [mkLikeMongo u (now w)])%list
    ∧ IBlog.viewCount d' = IBlog.viewCount d
    ∧ sameButEngagement d d'.
Proof.
  intros [Hh1 Hh2]%healthy_S Hd Hu Hl.
  rewrite /BlogService.addLike /blogRepository /bind /=.
  rewrite (findById_found _ _ d) //= (addLike_fresh _ _ u _ d) //=.
  do 2 eexists. split; [done|]. split; [done|].
  split; [by apply (stored_set_blogs_insert w _ _ d)|].
  rewrite /sameButEngagement /=. done.
Qed.

(** X10. Taking back a like of a post the user likes, while the store
    answers, succeeds and removes the likes of that user and no other,
    keeping the order of the rest; afterwards the user does not like the
    post. *)
Theorem unlike_removes_own (w : World) (postId userId u : string)
    (d : IBlog.t) :
  healthy 2 w → stored w postId = Some d →
  Types.ObjectId_new userId = Some u → Schema.likedBy u d = true →
  ∃ d' w',
    BlogService.removeLike blogRepository postId userId w = (Return true, w')
    ∧ blogs w' = <[Types.toHexString postId := d']> (blogs w)
    ∧ stored w' postId = Some d'
    ∧ IBlog.likes d'
      = List.filter (λ l, negb (String.eqb (like_user l) u)) (IBlog.likes d)
    ∧ Schema.likedBy u d' = false
    ∧ IBlog.viewCount d' = IBlog.viewCount d
    ∧ sameButEngagement d d'.
Proof.
  intros [Hh1 Hh2]%healthy_S Hd Hu Hl.
  rewrite /BlogService.removeLike /blogRepository /bind /=.
  rewrite (findById_found _ _ d) //= (removeLike_present _ _ u _ d) //=.
  do 2 eexists. split; [done|]. split; [done|].
  split; [by apply (stored_set_blogs_insert w _ _ d)|].
  split; [done|]. split; [|by rewrite /sameButEngagement /=].
  rewrite /Schema.likedBy /=. apply not_true_iff_false.
  intros (l & Hin & Heq)%existsb_exists.
  apply filter_In in Hin as [_ Hne]. by rewrite Heq in Hne.
Qed.

(** X11. A like followed by taking it back gives the post the likes it
    had: for a user who did not like the post, while the store answers
    both calls. *)
Theorem like_then_unlike (w w2 : World) (postId userId u : string)
    (d : IBlog.t) :
  healthy 2 w → stored w postId = Some d →
  Types.ObjectId_new userId = Some u → Schema.likedBy u d = false →
  blogs w2 = blogs (BlogService.addLike blogRepository postId userId w).2 →
  healthy 2 w2 →
  ∃ d' w3,
    BlogService.removeLike blogRepository postId userId w2 = (Return true, w3)
    ∧ stored w3 postId = Some d'
    ∧ IBlog.likes d' = IBlog.likes d.
Proof.
  intros [Hh1 Hh2]%healthy_S Hd Hu Hl Hb [Hk1 Hk2]%healthy_S.
  revert Hb. rewrite /BlogService.addLike /blogRepository /bind /=.
  rewrite (findById_found _ _ d) //= (addLike_fresh _ _ u _ d) //=.
  intros Hb.
  set (d1 := Schema.with_engagement (IBlog.viewCount d)
               (IBlog.likes d ++ [mkLikeMongo u (now w)])%list (now w) d)
    in *.
  assert (stored w2 postId = Some d1) as Hd1.
  { apply stored_Some in Hd as [Hv Hd]. apply stored_Some.
    by rewrite Hb lookup_insert_eq. }
  rewrite /BlogService.removeLike /bind /=.
  rewrite (findById_found _ _ d1) //= (removeLike_present _ _ u _ d1) //=;
    try (by apply likedBy_push).
  do 2 eexists. split; [done|].
  split; [by apply (stored_set_blogs_insert w2 _ _ d1)|].
  simpl. by apply pull_pushed.
Qed.

(** X12. Taking back a like the user never gave is a [Conflict] and
    writes nothing, while the store answers; on a post that is not there
    it is [NotFound]. *)
Theorem unlike_without_like (w : World) (postId userId : string) :
  (∀ d u, healthy 2 w → stored w postId = Some d →
     Types.ObjectId_new userId = Some u → Schema.likedBy u d = false →
     (BlogService.removeLike blogRepository postId userId w).1
     = Throw (Conflict "Like not found")
     ∧ blogs (BlogService.removeLike blogRepository postId userId w).2
       = blogs w)
  ∧ (stored w postId = None →
     (BlogService.removeLike blogRepository postId userId w).1
     = Throw (NotFound "Blog post not found")
     ∧ blogs (BlogService.removeLike blogRepository postId userId w).2
       = blogs w).
Proof.
  rewrite /BlogService.removeLike /blogRepository /bind /=. split.
  - intros d u [Hh1 Hh2]%healthy_S Hd Hu Hl.
    rewrite (findById_found _ _ d) //= (removeLike_absent _ _ u _ d) //.
  - intros Hd. by destruct (findById_absent postId w Hd) as (w' & -> & ? & _).
Qed.

End Engagement.

(* ====================================================================== *)
(** ** Deleting, archiving, publishing once *)
(* ====================================================================== *)

Section Removal.
Context {js : Js.Engine} `{QueryEngine}.

Lemma delete_ok id w d :
  healthy 1 w → stored w id = Some d →
  BlogService.delete blogRepository id w
  = (Return true, set_blogs (base.delete (Types.toHexString id) (blogs w)) (tick w)).
Proof.
  intros Hh [Hv Hd]%stored_Some.
  rewrite /BlogService.delete /blogRepository /=.
  rewrite /BlogRepository.deleteById /Blog_findByIdAndDelete
          /Types.ObjectId_new Hv.
  run. rewrite roundTrip_ok //=. run. by rewrite Hd.
Qed.

(** X13. Deleting an existing post, while the store answers, succeeds and
    removes that post and no other; reading it afterwards is [NotFound],
    drafts asked for or not. *)
Theorem delete_removes_post (w w2 : World) (id : string) (d : IBlog.t)
    (includeDrafts : bool) :
  healthy 1 w → stored w id = Some d →
  blogs w2 = blogs (BlogService.delete blogRepository id w).2 →
  (BlogService.delete blogRepository id w).1 = Return true
  ∧ blogs (BlogService.delete blogRepository id w).2
    = base.delete (Types.toHexString id) (blogs w)
  ∧ stored w2 id = None
  ∧ (BlogService.getById blogRepository id includeDrafts w2).1
    = Throw (NotFound "Blog post not found").
Proof.
  intros Hh Hd. rewrite (delete_ok _ _ d) //=. intros Hb.
  assert (stored w2 id = None) as Hnone.
  { apply stored_Some in Hd as [Hv _].
    by rewrite /stored /Types.ObjectId_new Hv /= Hb lookup_delete_eq. }
  split_and!; try done.
  rewrite /BlogService.getById /blogRepository /bind /=.
  by destruct (findById_absent id w2 Hnone) as (w' & -> & _).
Qed.

(** X14. Deleting a post that is not there is [NotFound]; so is a delete
    whose round trip fails, whether the post is there or not. Nothing is
    written in either case. *)
Theorem delete_failures (w : World) (id : string) :
  (stored w id = None →
     (BlogService.delete blogRepository id w).1
     = Throw (NotFound "Blog post not found")
     ∧ blogs (BlogService.delete blogRepository id w).2 = blogs w)
  ∧ (∀ fs, faults w = true :: fs →
     (BlogService.delete blogRepository id w).1
     = Throw (NotFound "Blog post not found")
     ∧ blogs (BlogService.delete blogRepository id w).2 = blogs w).
Proof.
  rewrite /BlogService.delete /blogRepository /=.
  rewrite /BlogRepository.deleteById /Blog_findByIdAndDelete /stored.
  split.
  - destruct (Types.ObjectId_new id) as [oid|]; run; [|done].
    intros Hd. rewrite roundTrip_eq.
    destruct (faults w) as [|[] fs]; simpl; by rewrite ?Hd.
  - intros fs Hf. destruct (Types.ObjectId_new id) as [oid|]; run; [|done].
    by rewrite (roundTrip_failed _ fs).
Qed.

(** X15. Archiving an existing post, while the store answers, succeeds
    whatever its status, archived included: the status becomes archived,
    [publishedAt], [scheduledFor] and the content stay. *)
Theorem archive_keeps_dates (w : World) (postId : string) (d : IBlog.t) :
  healthy 2 w → stored w postId = Some d →
  ∃ d' w',
    BlogService.archive blogRepository postId w
    = (Return (BlogRepository.normalize d'), w')
    ∧ blogs w' = <[Types.toHexString postId := d']> (blogs w)
    ∧ stored w' postId = Some d'
    ∧ IBlog.status d' = ARCHIVED
    ∧ IBlog.publishedAt d' = IBlog.publishedAt d
    ∧ IBlog.scheduledFor d' = IBlog.scheduledFor d
    ∧ sameContent d d'.
Proof.
  intros [Hh1 Hh2]%healthy_S Hd.
  rewrite /BlogService.archive /blogRepository /bind /=.
  rewrite (findById_found _ _ d) //= /BlogRepository.archive.
  rewrite (updateById_plain _ _ _ d) //=.
  do 2 eexists. split; [done|]. split; [done|].
  split; [by apply (stored_set_blogs_insert w _ _ d)|].
  rewrite /sameContent /=. done.
Qed.

(** X16. Publishing an existing post that is not published, archived
    included, succeeds while the store answers and returns it published
    at the current time; publishing it once more is a [Conflict] that
    writes nothing. *)
Theorem publish_only_once (w w2 : World) (postId : string) (d : IBlog.t) :
  healthy 2 w → stored w postId = Some d → IBlog.status d ≠ PUBLISHED →
  blogs w2 = blogs (BlogService.publish blogRepository postId w).2 →
  healthy 1 w2 →
  ∃ d',
    (BlogService.publish blogRepository postId w).1
    = Return (BlogRepository.normalize d')
    ∧ stored w2 postId = Some d'
    ∧ IBlog.status d' = PUBLISHED
    ∧ IBlog.publishedAt d' = Some (now w)
    ∧ (BlogService.publish blogRepository postId w2).1
      = Throw (Conflict "Blog post already published")
    ∧ blogs (BlogService.publish blogRepository postId w2).2 = blogs w2.
Proof.
  intros [Hh1 Hh2]%healthy_S Hd Hs.
  rewrite {1 2}/BlogService.publish /blogRepository /bind /=.
  rewrite (findById_found _ _ d) //=.
  assert (IBlogPostStatus_eqb (IBlog.status d) PUBLISHED = false) as ->
    by by destruct (IBlog.status d).
  rewrite /BlogRepository.publish. run.
  rewrite (updateById_plain _ _ _ d) //=. intros Hb Hk.
  eexists. split; [done|].
  assert (stored w2 postId
          = Some (Schema.apply_set
                    {| IUpdateBlogDto.title := None;
                       IUpdateBlogDto.slug := None;
                       IUpdateBlogDto.content := None;
                       IUpdateBlogDto.excerpt := None;
                       IUpdateBlogDto.category := None;
                       IUpdateBlogDto.tags := None;
                       IUpdateBlogDto.featuredImage := None;
                       IUpdateBlogDto.status := Some PUBLISHED;
                       IUpdateBlogDto.visibility := None;
                       IUpdateBlogDto.seo := None;
                       IUpdateBlogDto.publishedAt := Some (Some (now w));
                       IUpdateBlogDto.scheduledFor := Some (Some (now w)) |}
                    None (now w) d)) as Hd2.
  { apply stored_Some in Hd as [Hv Hd]. apply stored_Some.
    by rewrite Hb lookup_insert_eq. }
  split; [exact Hd2|]. split; [done|]. split; [done|].
  rewrite /BlogService.publish /bind /=.
  by rewrite (findById_found _ _ _ Hk Hd2) /=.
Qed.

(** X17. Scheduling an existing post for a later date, while the store
    answers, succeeds whatever its status, published included: it keeps
    [publishedAt] and the content, and a date it was scheduled for before
    is replaced. *)
Theorem schedule_keeps_publication (w : World) (postId : string)
    (publishDate : Z) (d : IBlog.t) :
  now w < publishDate → healthy 2 w → stored w postId = Some d →
  ∃ d' w',
    BlogService.schedule blogRepository postId publishDate w
    = (Return (BlogRepository.normalize d'), w')
    ∧ blogs w' = <[Types.toHexString postId := d']> (blogs w)
    ∧ IBlog.status d' = SCHEDULED
    ∧ IBlog.scheduledFor d' = Some publishDate
    ∧ IBlog.publishedAt d' = IBlog.publishedAt d
    ∧ sameContent d d'.
Proof.
  intros Hlt [Hh1 Hh2]%healthy_S Hd.
  rewrite /BlogService.schedule /blogRepository. run.
  rewrite (proj2 (Z.leb_gt _ _) Hlt) (findById_found _ _ d) //=.
  rewrite /BlogRepository.schedule (updateById_plain _ _ _ d) //=.
  do 2 eexists. split; [done|]. split; [done|].
  rewrite /sameContent /=. done.
Qed.

End Removal.

(* ====================================================================== *)
(** ** Updating *)
(* ====================================================================== *)

Lemma isValid_truthy id : Types.ObjectId_isValid id = true → Js.truthy id = true.
Proof. rewrite /Types.ObjectId_isValid. by destruct id. Qed.

Lemma keyCount_category u c :
  IUpdateBlogDto.category u = Some c →
  (IUpdateBlogDto.keyCount u =? 0)%nat = false.
Proof.
  intros Hc. apply Nat.eqb_neq. rewrite /IUpdateBlogDto.keyCount Hc. lia.
Qed.

Section Updating.
Context {js : Js.Engine} `{QueryEngine}.

(** X18. An update without an identifier, or with a payload without any
    key, is a [BadRequest], and the world is as it was: the store was not
    asked. *)
Theorem update_rejects_empty (w : World) (id : string)
    (updateData : IUpdateBlogDto.t) :
  (Js.truthy id = false →
     BlogService.update blogRepository id updateData w
     = (Throw (BadRequest "Blog ID is required"), w))
  ∧ (Js.truthy id = true → IUpdateBlogDto.keyCount updateData = 0%nat →
     BlogService.update blogRepository id updateData w
     = (Throw (BadRequest "No update data provided"), w)).
Proof.
  rewrite /BlogService.update. split.
  - by intros ->.
  - by intros -> ->.
Qed.

(** X19. An update of an existing post whose payload names a category
    that is not an object identifier (24 hexadecimal digits) is an
    [InternalError]: the cast fails before the store is asked to write,
    nothing is written, and the failure is logged. *)
Theorem update_bad_category (w : World) (id : string)
    (updateData : IUpdateBlogDto.t) (c : string) (d : IBlog.t) :
  healthy 1 w → stored w id = Some d →
  IUpdateBlogDto.category updateData = Some c →
  Types.ObjectId_isValid c = false →
  ∃ w',
    BlogService.update blogRepository id updateData w
    = (Throw (InternalError "Failed to update blog post"), w')
    ∧ blogs w' = blogs w
    ∧ faults w' = tail (faults w)
    ∧ errorLog w' = (errorLog w ++ ["Error updating blog %s: %o"])%list.
Proof.
  intros Hh Hd Hc Hv. pose proof Hd as [Hid _]%stored_Some.
  rewrite /BlogService.update /blogRepository (isValid_truthy _ Hid)
          (keyCount_category _ c) //= /bind (findById_found _ _ d) //=.
  rewrite /BlogRepository.updateById /Blog_findByIdAndUpdate
          /Schema.castUpdate Hc /Types.ObjectId_new Hid Hv.
  run. by eexists.
Qed.

Lemma castUpdate_castable updates :
  (∀ c, IUpdateBlogDto.category updates = Some c →
        Types.ObjectId_isValid c = true) →
  ∃ change, Schema.castUpdate (Schema.set_ updates) = Some change.
Proof.
  intros Hc. rewrite /Schema.castUpdate /Types.ObjectId_new.
  destruct (IUpdateBlogDto.category updates) as [c|]; [|by eexists].
  rewrite (Hc c eq_refl). by eexists.
Qed.

(** X20. An update of an existing post with a payload of at least one
    key, whose category if any is an object identifier, succeeds while
    the store answers; reading the post next returns what the update
    returned. The post keeps its slug and author, its title is the
    title of the payload if there is one, without the white space
    [trim] strips at both ends, Unicode blanks included, and its status
    the status of the payload if there is one. *)
Theorem update_then_read (w : World) (id : string)
    (updateData : IUpdateBlogDto.t) (d : IBlog.t) :
  healthy 3 w → stored w id = Some d →
  IUpdateBlogDto.keyCount updateData ≠ 0%nat →
  (∀ c, IUpdateBlogDto.category updateData = Some c →
        Types.ObjectId_isValid c = true) →
  ∃ d' w',
    BlogService.update blogRepository id updateData w
    = (Return (BlogRepository.normalize d'), w')
    ∧ stored w' id = Some d'
    ∧ (BlogService.getById blogRepository id true w').1
      = Return (BlogRepository.normalize d')
    ∧ IBlog.slug d' = IBlog.slug d
    ∧ IBlog.author d' = IBlog.author d
    ∧ IBlog.title d'
      = from_option Js.trim (IBlog.title d) (IUpdateBlogDto.title updateData)
    ∧ IBlog.status d'
      = default (IBlog.status d) (IUpdateBlogDto.status updateData).
Proof.
  intros [Hh1 [Hh2 Hh3]%healthy_S]%healthy_S Hd Hk Hc.
  pose proof Hd as [Hid _]%stored_Some.
  destruct (castUpdate_castable _ Hc) as [change Hchange].
  rewrite /BlogService.update /blogRepository (isValid_truthy _ Hid).
  rewrite (proj2 (Nat.eqb_neq _ _) Hk) /= /bind (findById_found _ _ d) //=.
  rewrite (updateById_ok _ _ change _ d) //=.
  do 2 eexists. split; [done|].
  assert (stored (set_blogs (<[Types.toHexString id := change (now w) d]>
                               (blogs w)) (tick (tick w))) id
          = Some (change (now w) d)) as Hd'.
  { by apply (stored_set_blogs_insert w _ _ d). }
  split; [exact Hd'|].
  split.
  { rewrite /BlogService.getById /bind /=.
    rewrite (findById_found _ _ (change (now w) d)) //. }
  revert Hchange. rewrite /Schema.castUpdate.
  repeat case_match; intros; simplify_eq/=; done.
Qed.

End Updating.

(* ====================================================================== *)
(** ** Creating *)
(* ====================================================================== *)

Lemma hexDigit_canonical (m : N) :
  (m < 16)%N →
  Js.isHexDigit (Types.hexDigit m) = true
  ∧ Js.lowerChar (Types.hexDigit m) = Types.hexDigit m.
Proof.
  intros Hm. destruct m as [|p]; [done|].
  do 5 (try destruct p as [p|p|]); try lia; done.
Qed.

Lemma hexOfN_canonical (digits : nat) (n : N) (acc : string) :
  Js.allHex acc = true → Types.toHexString acc = acc →
  Js.allHex (Types.hexOfN digits n acc) = true
  ∧ Types.toHexString (Types.hexOfN digits n acc) = Types.hexOfN digits n acc
  ∧ String.length (Types.hexOfN digits n acc)
    = (digits + String.length acc)%nat.
Proof.
  revert n acc. induction digits as [|k IH]; intros n acc Hh Hl; [done|].
  simpl. destruct (hexDigit_canonical (n mod 16)%N) as [Hx Hc].
  { by apply N.mod_lt. }
  destruct (IH (n / 16)%N (String (Types.hexDigit (n mod 16)%N) acc))
    as (? & ? & Hlen); simpl.
  - by rewrite Hx Hh.
  - by rewrite Hc Hl.
  - split_and!; [done..|]. rewrite Hlen /=. lia.
Qed.

(** an identifier the driver generates is well-formed and canonical *)
Lemma ObjectId_generate_canonical (n : N) :
  Types.ObjectId_new (Types.ObjectId_generate n)
  = Some (Types.ObjectId_generate n).
Proof.
  destruct (hexOfN_canonical 24 n "" eq_refl eq_refl) as (Hh & Hl & Hlen).
  rewrite /Types.ObjectId_new /Types.ObjectId_isValid
          /Types.ObjectId_generate Hh Hl Hlen. done.
Qed.

(** from here on a generated identifier is taken as a whole *)
#[local] Opaque Types.ObjectId_generate.

Lemma castCreate_valid `{Js.Engine} data oid t doc :
  Schema.castCreate data oid t = Some doc →
  10 ≤ Js.length (IBlog.title doc) ≤ 200
  ∧ 100 ≤ Js.length (IBlog.content doc)
  ∧ Js.truthy (IBlog.slug doc) = true.
Proof.
  rewrite /Schema.castCreate /Schema.required. intros Hc.
  repeat (case_match || simplify_option_eq); simplify_eq/=.
  repeat match goal with
         | Hb : _ && _ = true |- _ => apply andb_true_iff in Hb as [? ?]
         end.
  split_and!; try lia. done.
Qed.

(** the payload the service hands to the repository *)
Lemma create_slug_of_payload slugify post :
  default (slugify (ICreateBlogDto.title post)) (ICreateBlogDto.slug post)
  = match ICreateBlogDto.slug post with
    | Some s => s
    | None => slugify (ICreateBlogDto.title post)
    end.
Proof. by destruct (ICreateBlogDto.slug post). Qed.

Section Creating.
Context {js : Js.Engine} `{QueryEngine}.
Variable slugify : string → string.

(** X21. Creating a post with an empty title or an empty content is a
    [BadRequest], and the world is as it was: the store was not asked. *)
Theorem create_requires_title_and_content (w : World)
    (post : ICreateBlogDto.t) :
  Js.truthy (ICreateBlogDto.title post) = false
  ∨ Js.truthy (ICreateBlogDto.content post) = false →
  BlogService.create blogRepository slugify post w
  = (Throw (BadRequest "Title and content are required"), w).
Proof.
  rewrite /BlogService.create. intros [-> | ->]; [done|].
  by rewrite orb_true_r.
Qed.

(** what a successful [create] of the repository did *)
Lemma repository_create_Some data w e w' :
  BlogRepository.create data w = (Return (Some e), w') →
  ∃ doc,
    e = BlogRepository.normalize doc
    ∧ Schema.castCreate data (Types.ObjectId_generate (nextOid w)) (now w)
      = Some doc
    ∧ blogs w !! Types.ObjectId_generate (nextOid w) = None
    ∧ blogs w' = <[Types.ObjectId_generate (nextOid w) := doc]> (blogs w).
Proof.
  rewrite /BlogRepository.create /Blog_create. run.
  destruct (Schema.castCreate _ _ _) as [doc|]; simpl; [|done].
  rewrite roundTrip_eq /=. destruct (faults w) as [|[] fs]; simpl; [|done|].
  all: case_bool_decide as Hin; simpl; [done|].
  all: destruct (existsb _ _); simpl; [done|].
  all: intros [= <- <-]; exists doc; split_and!; try done.
  all: by apply eq_None_not_Some.
Qed.

(** X22. A post that [create] returns has no view, no like and no
    publication date, the status and visibility asked for, draft and
    public by default, the current time as creation and update time, the
    trimmed title, and as slug the given slug, or else the slugified
    title, trimmed and in the lower case of the engine. Its title has 10
    to 200 UTF-16 code units, which is what [length] counts, and its
    content at least 100. It is stored under an identifier that was free,
    and reading it next returns it. *)
Theorem create_postconditions (w w' w2 : World) (post : ICreateBlogDto.t)
    (e : IBlogPostEntity.t) :
  BlogService.create blogRepository slugify post w = (Return e, w') →
  blogs w2 = blogs w' → healthy 1 w2 →
  IBlogPostEntity.viewCount e = 0
  ∧ IBlogPostEntity.likes e = []
  ∧ IBlogPostEntity.publishedAt e = None
  ∧ IBlogPostEntity.status e = default DRAFT (ICreateBlogDto.status post)
  ∧ IBlogPostEntity.visibility e
    = default PUBLIC (ICreateBlogDto.visibility post)
  ∧ IBlogPostEntity.createdAt e = now w
  ∧ IBlogPostEntity.updatedAt e = now w
  ∧ IBlogPostEntity.title e = Js.trim (ICreateBlogDto.title post)
  ∧ IBlogPostEntity.slug e
    = Schema.set_lower_trim
        (default (slugify (ICreateBlogDto.title post))
                 (ICreateBlogDto.slug post))
  ∧ 10 ≤ Js.length (IBlogPostEntity.title e) ≤ 200
  ∧ 100 ≤ Js.length (IBlogPostEntity.content e)
  ∧ blogs w !! IBlogPostEntity.id e = None
  ∧ (BlogService.getById blogRepository (IBlogPostEntity.id e) true w2).1
    = Return e.
Proof.
  rewrite /BlogService.create /blogRepository /=. case_match; [done|].
  rewrite /bind.
  destruct (BlogRepository.create _ w) as [[[e0|]|x] w1] eqn:Hcreate;
    simpl; [|done..].
  intros [= -> ->] Hb Hh.
  apply repository_create_Some in Hcreate as (doc & -> & Hc & Hfree & Hw').
  destruct (castCreate_Fresh _ _ _ _ Hc)
    as (Hid & Hv & Hl & Hca & Hua & Hp & Hst & Hvi & Hsl & Hti & _).
  destruct (castCreate_valid _ _ _ _ Hc) as (Htl & Hcl & _).
  simpl in Hsl, Hst, Hvi, Hti. injection Hsl as Hsl.
  rewrite create_slug_of_payload /= Hv Hl Hp Hst Hvi Hca Hua Hti Hsl Hid.
  rewrite Hti in Htl.
  do 9 (split; [reflexivity|]). do 2 (split; [lia|]). split; [exact Hfree|].
  rewrite /BlogService.getById /bind /=.
  rewrite (findById_found _ _ doc); [exact Hh| |reflexivity].
  rewrite /stored ObjectId_generate_canonical /= Hb Hw'.
  apply lookup_insert_eq.
Qed.

(** X23. Creating a post whose slug, in lower case and trimmed, is the
    slug of a post of the collection is an [InternalError] and writes
    nothing. *)
Theorem create_taken_slug (w : World) (post : ICreateBlogDto.t)
    (o : string) (d : IBlog.t) :
  Js.truthy (ICreateBlogDto.title post) = true →
  Js.truthy (ICreateBlogDto.content post) = true →
  blogs w !! o = Some d →
  IBlog.slug d
  = Schema.set_lower_trim
      (default (slugify (ICreateBlogDto.title post))
               (ICreateBlogDto.slug post)) →
  (BlogService.create blogRepository slugify post w).1
  = Throw (InternalError "Failed to create blog post")
  ∧ blogs (BlogService.create blogRepository slugify post w).2 = blogs w.
Proof.
  intros Ht Hc Hd Hs. rewrite create_slug_of_payload in Hs.
  rewrite /BlogService.create /blogRepository Ht Hc /= /bind.
  rewrite /BlogRepository.create /Blog_create. run.
  destruct (Schema.castCreate _ _ _) as [doc|] eqn:Hcast; simpl; [|done].
  apply castCreate_Fresh in Hcast
    as (_ & _ & _ & _ & _ & _ & _ & _ & Hsl & _).
  simpl in Hsl. injection Hsl as Hsl.
  assert (existsb (λ d0, String.eqb (IBlog.slug d0) (IBlog.slug doc))
                  (documents (blogs w)) = true) as Hdup.
  { apply existsb_exists. exists d. split.
    - apply list_elem_of_In, documents_elem_of. by exists o.
    - rewrite Hs Hsl. apply String.eqb_refl. }
  rewrite roundTrip_eq /=. destruct (faults w) as [|[] fs]; simpl; [|done|].
  all: by rewrite Hdup orb_true_r.
Qed.


End Creating.

(* ====================================================================== *)
(** ** Listing, at the edges *)
(* ====================================================================== *)

Section ListingEdges.
Context {js : Js.Engine} `{QueryEngine}.

(** X25. A query for a page below 1, with a positive page size, gets the
    page of a failure whatever the collection holds: no item, page 1,
    limit 10, total 0 and 0 pages; the store rejected the negative skip. *)
Theorem page_below_one (params : IQueryParams.t) (w : World) :
  pageOf params < 1 → 0 < limitOf params →
  (BlogService.getAll blogRepository params w).1 = Return emptyPage
  ∧ blogs (BlogService.getAll blogRepository params w).2 = blogs w.
Proof.
  intros Hp Hl. rewrite getAll_findAll. split.
  - apply findAll_bad_skip. nia.
  - apply Silent_findAll.
Qed.

(** X26. A query with a page size of 0 gets every matching post in one
    answer, while the store answers; the number of pages it reports is
    not a number when nothing matches and infinite otherwise. *)
Theorem limit_zero_is_no_limit (params : IQueryParams.t) (w : World) :
  limitOf params = 0 → healthy 2 w →
  ∃ r w',
    BlogRepository.findAll params w = (Return r, w')
    ∧ data r = BlogRepository.normalize <$> matching params w
    ∧ pg_total (pagination r) = Z.of_nat (List.length (matching params w))
    ∧ pg_totalPages (pagination r)
      = (if pg_total (pagination r) =? 0 then NaN else PosInfinity).
Proof.
  rewrite /limitOf. intros Hl Hh.
  rewrite findAll_unfold /try_catch /bind store_calls matching_length Hl.
  rewrite Z.mul_0_r /= /Math_ceil_div /=. rewrite /healthy in Hh.
  destruct (faults w) as [|[] [|[] fs]]; simpl in *.
  all: try by repeat (apply Forall_cons in Hh as [? Hh]).
  all: do 2 eexists; (split; [done|]); simpl; rewrite /matching /filterOf.
  all: split_and!; try done.
  all: match goal with |- context [Z.of_nat ?n] => by destruct n end.
Qed.

(** nothing is left of a string of white space *)
Lemma trim_blank (s : string) :
  Forall (λ p, Js.isWhiteSpace p = true) (Js.codePoints s) → Js.trim s = "".
Proof.
  rewrite /Js.trim. intros Hs.
  assert (Js.dropLeading (Js.codePoints s) = []) as ->; [|done].
  induction Hs as [|p r Hp _ IH]; [done|].
  cbn [Js.dropLeading]. by rewrite Hp.
Qed.

(** X27. A search term all of whose code points are white space, which
    is what [trim] strips: the ASCII blanks, the no-break space, the
    other space separators, the line and paragraph separators and the
    byte order mark, does not filter: the query gets what it gets without
    a search term, in every world. *)
Theorem blank_search_is_no_search (params : IQueryParams.t) (s : string)
    (w : World) :
  Forall (λ p, Js.isWhiteSpace p = true) (Js.codePoints s) →
  BlogRepository.findAll (withSearch params (Some s)) w
  = BlogRepository.findAll (withSearch params None) w.
Proof.
  intros Hs%trim_blank. rewrite !findAll_unfold /filterOf /= Hs. done.
Qed.

Lemma page_of_pages params w (p : nat) :
  faults w = [] → 0 < limitOf params → (1 ≤ p)%nat →
  (BlogRepository.findAll (withPage params (Z.of_nat p)) w).1
  = Return
      {| data :=
           BlogRepository.normalize <$>
             take (Z.to_nat (limitOf params))
                  (drop ((p - 1) * Z.to_nat (limitOf params))
                        (matching params w));
         pagination :=
           {| pg_page := Z.of_nat p;
              pg_limit := limitOf params;
              pg_total := Z.of_nat (List.length (matching params w));
              pg_totalPages :=
                Math_ceil_div (Z.of_nat (List.length (matching params w)))
                              (limitOf params) |} |}.
Proof.
  intros Hf Hl Hp. rewrite findAll_ok /=.
  - lia.
  - exact Hl.
  - rewrite /healthy Hf /=. constructor.
  - rewrite /limitOf in Hl |- *.
    change (matching (withPage params (Z.of_nat p)) w)
      with (matching params w).
    rewrite Z2Nat.inj_mul; [lia..|].
    by replace (Z.to_nat (Z.of_nat p - 1)) with (p - 1)%nat by lia.
Qed.

(** X28. The pages of a query follow one another: with a positive page
    size, in a world whose store answers, the items of the pages 1 to [n]
    put end to end are the first [n] times limit matching posts, each
    once and in order. *)
Theorem pages_follow_one_another (params : IQueryParams.t) (w : World)
    (n : nat) :
  faults w = [] → 0 < limitOf params →
  pagesUpTo params w n
  = BlogRepository.normalize <$>
      take (n * Z.to_nat (limitOf params)) (matching params w).
Proof.
  intros Hf Hl. rewrite /pagesUpTo. induction n as [|n IH]; [done|].
  rewrite seq_S fmap_app concat_app IH /= app_nil_r.
  rewrite page_of_pages //=; [lia|].
  rewrite Nat.sub_0_r -fmap_app take_take_drop. do 2 f_equal. lia.
Qed.

End ListingEdges.

(* ====================================================================== *)
(** ** A validated slug *)
(* ====================================================================== *)

(** text of 7-bit ASCII has a code point per byte *)
Lemma codePoints_ascii (s : string) :
  Js.isAscii s = true →
  Js.codePoints s = (λ c, String c EmptyString) <$> list_ascii_of_string s.
Proof.
  induction s as [|c r IH]; [done|].
  intros [Hc Hr]%andb_true_iff. simpl. rewrite (IH Hr).
  destruct r as [|c' r']; [done|]. simpl.
  apply andb_true_iff in Hr as [Hc' _]. rewrite /Js.isContinuation.
  rewrite /Js.isAsciiChar in Hc'. apply Nat.ltb_lt in Hc'.
  destruct (Nat.leb_spec 128 (nat_of_ascii c')); [lia|done].
Qed.

Lemma join_bytes (s : string) :
  Js.join ((λ c, String c EmptyString) <$> list_ascii_of_string s) = s.
Proof. induction s as [|c r IH]; [done|]. simpl. by rewrite IH. Qed.

Lemma dropLeading_none (l : list string) :
  Forall (λ p, Js.isWhiteSpace p = false) l → Js.dropLeading l = l.
Proof.
  intros [|p r Hp _]; [done|]. cbn [Js.dropLeading]. by rewrite Hp.
Qed.

Lemma dropTrailing_none (l : list string) :
  Forall (λ p, Js.isWhiteSpace p = false) l → Js.dropTrailing l = l.
Proof.
  induction 1 as [|p r Hp _ IH]; [done|].
  cbn [Js.dropTrailing]. rewrite IH Hp. by destruct r.
Qed.

(** [trim] keeps ASCII text without white space as it is *)
Lemma trim_none (s : string) :
  Js.isAscii s = true →
  Forall (λ c, Js.isWhiteSpace (String c EmptyString) = false)
         (list_ascii_of_string s) →
  Js.trim s = s.
Proof.
  intros Ha Hw. rewrite /Js.trim (codePoints_ascii s Ha).
  assert (Forall (λ p, Js.isWhiteSpace p = false)
            ((λ c, String c EmptyString) <$> list_ascii_of_string s)) as Hp.
  { by apply Forall_fmap. }
  by rewrite (dropLeading_none _ Hp) (dropTrailing_none _ Hp) join_bytes.
Qed.

Lemma isSlugChar_plain (c : ascii) :
  Validation.isSlugChar c = true ∨ c = "-"%char →
  Js.lowerChar c = c ∧ Js.isAsciiChar c = true
  ∧ Js.isWhiteSpace (String c EmptyString) = false.
Proof.
  intros [Hc| ->]; [|done]. revert Hc.
  destruct c as [[] [] [] [] [] [] [] []]; by vm_compute.
Qed.

Lemma slugRest_plain (s : string) (inWord : bool) :
  Validation.slugRest s inWord = true →
  Js.lowerAscii s = s ∧ Js.isAscii s = true
  ∧ Forall (λ c, Js.isWhiteSpace (String c EmptyString) = false)
           (list_ascii_of_string s).
Proof.
  revert inWord. induction s as [|c r IH]; intros inWord; [done|].
  simpl. intros Hm.
  assert ((Validation.isSlugChar c = true ∨ c = "-"%char)
          ∧ ∃ b, Validation.slugRest r b = true) as [Hc [b Hr]].
  { destruct (Validation.isSlugChar c); [by eauto|].
    destruct (Ascii.eqb_spec c "-"%char); [|done].
    apply andb_true_iff in Hm as [_ Hm]. by eauto. }
  destruct (isSlugChar_plain c Hc) as (Hlow & Hascii & Hws).
  destruct (IH b Hr) as (-> & -> & Hall). rewrite Hlow Hascii.
  split_and!; try done. by constructor.
Qed.

(** X29. A slug the validation pattern accepts is not empty and comes
    out of the setters of the schema, lower case and trim, as it went in:
    it is stored as it was given. *)
Theorem validated_slug_is_canonical `{Js.Engine} (s : string) :
  Validation.slugPattern s = true →
  Js.truthy s = true ∧ Schema.set_lower_trim s = s.
Proof.
  rewrite /Validation.slugPattern /Schema.set_lower_trim.
  intros Hm. split; [by destruct s|].
  destruct (slugRest_plain s false Hm) as (Hl & Ha & Hw).
  by rewrite (trim_none s Ha Hw) (Js.toLowerCase_ascii s Ha).
Qed.

(* ====================================================================== *)
(** ** Creating through the controller *)
(* ====================================================================== *)

Section Controller.
Context {js : Js.Engine} `{QueryEngine}.
Variable slugify : string → string.

(** what a successful [create] of the service did *)
Lemma service_create_Some post w e w' :
  BlogService.create blogRepository slugify post w = (Return e, w') →
  ∃ doc, e = BlogRepository.normalize doc
         ∧ Some (IBlog.author doc)
           = ICreateBlogDto.author post ≫= Types.ObjectId_new.
Proof.
  rewrite /BlogService.create /blogRepository /=. case_match; [done|].
  rewrite /bind.
  destruct (BlogRepository.create _ w) as [[[e0|]|x] w1] eqn:Hcreate;
    simpl; [|done..].
  intros [= -> ->].
  apply repository_create_Some in Hcreate as (doc & -> & Hc & _).
  exists doc. split; [done|].
  by destruct (castCreate_Fresh _ _ _ _ Hc)
    as (_ & _ & _ & _ & _ & _ & _ & _ & _ & _ & _ & ?).
Qed.

(** X30. Creating through the controller without an authenticated user
    is [Unauthorized] and leaves the world as it was. With one, a post
    that is created has that user as author, whatever author the body
    names, and the answer carries the status 201. *)
Theorem controller_create_author (w : World) (body : ICreateBlogDto.t) :
  BlogController.create blogRepository slugify None (Some body) w
  = (Throw (ApiExn (mkApiError "Unauthorized" 401 UNAUTHORIZED)), w)
  ∧ (∀ authUser response w',
       BlogController.create blogRepository slugify (Some authUser)
         (Some body) w
       = (Return response, w') →
       IBlogPostEntity.author (res_data response)
       = Types.toHexString (auth_id authUser)
       ∧ Types.ObjectId_isValid (auth_id authUser) = true
       ∧ res_statusCode response = Some 201).
Proof.
  split; [done|]. intros authUser response w'.
  rewrite /BlogController.create /bind.
  destruct (BlogService.create _ _ _ w) as [[e|x] w1] eqn:Hcreate;
    simpl; [|done].
  intros [= <- <-].
  apply service_create_Some in Hcreate as (doc & -> & Ha).
  revert Ha. rewrite /= /Types.ObjectId_new.
  destruct (Types.ObjectId_isValid (auth_id authUser)); [|done].
  by intros [= ->].
Qed.

End Controller.

(* ====================================================================== *)
(** ** The further statements on concrete collections *)
(* ====================================================================== *)

Lemma operation_touches_one_post_witness :
  blogs (serve Sample.slugify (Update Sample.postId Sample.rename)
           (Sample.world Sample.draft [])).2 !! Sample.postId
  ≠ blogs (Sample.world Sample.draft []) !! Sample.postId
  ∧ Sample.postId = Sample.postId.
Proof.
  split; [vm_compute; discriminate|].
  apply (operation_touches_one_post Sample.slugify
           (Update Sample.postId Sample.rename)
           (Sample.world Sample.draft [])).
  - vm_compute. discriminate.
  - vm_compute. discriminate.
Defined.

Lemma slugs_stay_unique_witness :
  SlugsUnique (blogs (serve Sample.slugify (Create Sample.newPost)
                        (Sample.world Sample.draft [])).2)
  ∧ WellKeyed (blogs (serve Sample.slugify (Create Sample.newPost)
                        (Sample.world Sample.draft [])).2).
Proof.
  destruct (slugs_stay_unique Sample.slugify (Create Sample.newPost)
              (Sample.world Sample.draft [])) as [Hs Hk].
  split.
  - apply Hs. intros o1 o2 d1 d2.
    rewrite /= !lookup_singleton_Some. by intros [<- _] [<- _].
  - apply Hk. intros o d. rewrite /= lookup_singleton_Some.
    by intros [<- <-].
Defined.

Lemma views_never_decrease_witness :
  (∀ d', blogs (serve Sample.slugify (IncrementViewCount Sample.postId)
                  (Sample.world Sample.draft [])).2 !! Sample.postId
         = Some d' →
         0 ≤ IBlog.viewCount d')
  ∧ ViewsNonNegative
      (blogs (serve Sample.slugify (IncrementViewCount Sample.postId)
                (Sample.world Sample.draft [])).2).
Proof.
  destruct (views_never_decrease Sample.slugify
              (IncrementViewCount Sample.postId)
              (Sample.world Sample.draft [])) as [Hup Hnn].
  split.
  - intros d'. apply (Hup Sample.postId Sample.draft d'). reflexivity.
  - apply Hnn. intros o d. rewrite /= lookup_singleton_Some.
    by intros [_ <-].
Defined.

Lemma author_and_creation_never_change_witness :
  ∃ d', blogs (serve Sample.slugify (Update Sample.postId Sample.rename)
                 (Sample.world Sample.draft [])).2 !! Sample.postId
        = Some d'
        ∧ IBlog.title d' ≠ IBlog.title Sample.draft
        ∧ IBlog._id d' = Sample.postId
        ∧ IBlog.author d' = Sample.author
        ∧ IBlog.createdAt d' = 100.
Proof.
  eexists. split; [vm_compute; reflexivity|].
  split; [vm_compute; discriminate|].
  apply (author_and_creation_never_change Sample.slugify
           (Update Sample.postId Sample.rename)
           (Sample.world Sample.draft []) Sample.postId Sample.draft).
  - reflexivity.
  - vm_compute. reflexivity.
Defined.

Lemma view_count_plus_one_witness :
  ∃ d' w',
    BlogService.incrementViewCount blogRepository Sample.postId
      (Sample.world Sample.draft []) = (Return true, w')
    ∧ stored w' Sample.postId = Some d'
    ∧ IBlog.viewCount d' = 1.
Proof.
  destruct (view_count_plus_one (Sample.world Sample.draft []) Sample.postId
              Sample.draft (healthy_nil 1 _) eq_refl)
    as (d' & w' & Hr & _ & Hd & Hv & _).
  by exists d', w'.
Defined.

Lemma views_add_up_witness :
  ∃ d',
    stored (repeatedly 3
              (BlogService.incrementViewCount blogRepository Sample.postId)
              (Sample.world Sample.draft [])) Sample.postId = Some d'
    ∧ IBlog.viewCount d' = 3.
Proof.
  apply (views_add_up 3 (Sample.world Sample.draft []) Sample.postId
           Sample.draft (healthy_nil 3 _) eq_refl).
Defined.

Lemma view_count_errors_witness :
  (BlogService.incrementViewCount blogRepository Sample.userA
     (Sample.world Sample.draft [])).1
  = Throw (NotFound "Blog post not found")
  ∧ (BlogService.incrementViewCount blogRepository "no-such-post"
       (Sample.world Sample.draft [])).1
    = Throw (InternalError "Failed to increment view count")
  ∧ (BlogService.incrementViewCount blogRepository Sample.postId
       (Sample.world Sample.draft [true])).1
    = Throw (InternalError "Failed to increment view count").
Proof.
  split_and!.
  - apply (view_count_errors (Sample.world Sample.draft []) Sample.userA);
      [reflexivity..|apply healthy_nil].
  - apply (view_count_errors (Sample.world Sample.draft []) "no-such-post").
    reflexivity.
  - destruct (view_count_errors (Sample.world Sample.draft [true])
                Sample.postId) as (_ & _ & Hf).
    apply (Hf []). reflexivity.
Defined.

Lemma like_appends_one_witness :
  ∃ d' w',
    BlogService.addLike blogRepository Sample.postId Sample.userA
      (Sample.world Sample.published []) = (Return true, w')
    ∧ stored w' Sample.postId = Some d'
    ∧ IBlog.likes d' = [mkLikeMongo Sample.userA 1000].
Proof.
  destruct (like_appends_one (Sample.world Sample.published [])
              Sample.postId Sample.userA Sample.userA Sample.published
              (healthy_nil 2 _) eq_refl eq_refl eq_refl)
    as (d' & w' & Hr & _ & Hd & Hl & _).
  by exists d', w'.
Defined.

Lemma unlike_removes_own_witness :
  ∃ d' w',
    BlogService.removeLike blogRepository Sample.postId Sample.userA
      (Sample.world Sample.liked []) = (Return true, w')
    ∧ stored w' Sample.postId = Some d'
    ∧ IBlog.likes d' = [].
Proof.
  destruct (unlike_removes_own (Sample.world Sample.liked [])
              Sample.postId Sample.userA Sample.userA Sample.liked
              (healthy_nil 2 _) eq_refl eq_refl eq_refl)
    as (d' & w' & Hr & _ & Hd & Hl & _).
  by exists d', w'.
Defined.

Lemma like_then_unlike_witness :
  ∃ d' w3,
    BlogService.removeLike blogRepository Sample.postId Sample.userA
      (BlogService.addLike blogRepository Sample.postId Sample.userA
         (Sample.world Sample.published [])).2
    = (Return true, w3)
    ∧ stored w3 Sample.postId = Some d'
    ∧ IBlog.likes d' = [].
Proof.
  apply (like_then_unlike (Sample.world Sample.published []) _
           Sample.postId Sample.userA Sample.userA Sample.published
           (healthy_nil 2 _) eq_refl eq_refl eq_refl eq_refl).
  rewrite /healthy. vm_compute. constructor.
Defined.

Lemma unlike_without_like_witness :
  (BlogService.removeLike blogRepository Sample.postId Sample.userA
     (Sample.world Sample.published [])).1
  = Throw (Conflict "Like not found")
  ∧ (BlogService.removeLike blogRepository Sample.userA Sample.userA
       (Sample.world Sample.published [])).1
    = Throw (NotFound "Blog post not found").
Proof.
  destruct (unlike_without_like (Sample.world Sample.published [])
              Sample.postId Sample.userA) as [Hnot _].
  destruct (unlike_without_like (Sample.world Sample.published [])
              Sample.userA Sample.userA) as [_ Habsent].
  split.
  - apply (Hnot Sample.published Sample.userA);
      [apply healthy_nil|reflexivity..].
  - apply Habsent. reflexivity.
Defined.

Lemma delete_removes_post_witness :
  (BlogService.delete blogRepository Sample.postId
     (Sample.world Sample.draft [])).1 = Return true
  ∧ (BlogService.getById blogRepository Sample.postId true
       (BlogService.delete blogRepository Sample.postId
          (Sample.world Sample.draft [])).2).1
    = Throw (NotFound "Blog post not found").
Proof.
  destruct (delete_removes_post (Sample.world Sample.draft []) _
              Sample.postId Sample.draft true (healthy_nil 1 _) eq_refl
              eq_refl) as (Hr & _ & _ & Hg).
  by split.
Defined.

Lemma delete_failures_witness :
  (BlogService.delete blogRepository Sample.userA
     (Sample.world Sample.draft [])).1
  = Throw (NotFound "Blog post not found")
  ∧ (BlogService.delete blogRepository Sample.postId
       (Sample.world Sample.draft [true])).1
    = Throw (NotFound "Blog post not found")
  ∧ blogs (BlogService.delete blogRepository Sample.postId
             (Sample.world Sample.draft [true])).2
    = blogs (Sample.world Sample.draft [true]).
Proof.
  destruct (delete_failures (Sample.world Sample.draft []) Sample.userA)
    as [Habsent _].
  destruct (delete_failures (Sample.world Sample.draft [true]) Sample.postId)
    as [_ Hfault].
  split; [apply Habsent; reflexivity|].
  apply (Hfault []). reflexivity.
Defined.

Lemma archive_keeps_dates_witness :
  ∃ d' w',
    BlogService.archive blogRepository Sample.postId
      (Sample.world Sample.published [])
    = (Return (BlogRepository.normalize d'), w')
    ∧ IBlog.status d' = ARCHIVED
    ∧ IBlog.publishedAt d' = Some 500.
Proof.
  destruct (archive_keeps_dates (Sample.world Sample.published [])
              Sample.postId Sample.published (healthy_nil 2 _) eq_refl)
    as (d' & w' & Hr & _ & _ & Hs & Hp & _).
  by exists d', w'.
Defined.

Lemma publish_only_once_witness :
  ∃ d',
    (BlogService.publish blogRepository Sample.postId
       (Sample.world Sample.draft [])).1
    = Return (BlogRepository.normalize d')
    ∧ IBlog.status d' = PUBLISHED
    ∧ (BlogService.publish blogRepository Sample.postId
         (BlogService.publish blogRepository Sample.postId
            (Sample.world Sample.draft [])).2).1
      = Throw (Conflict "Blog post already published").
Proof.
  destruct (publish_only_once (Sample.world Sample.draft [])
              (BlogService.publish blogRepository Sample.postId
                 (Sample.world Sample.draft [])).2
              Sample.postId Sample.draft (healthy_nil 2 _) eq_refl)
    as (d' & Hr & _ & Hs & _ & Hc & _).
  - discriminate.
  - reflexivity.
  - rewrite /healthy. vm_compute. constructor.
  - by exists d'.
Defined.

Lemma schedule_keeps_publication_witness :
  ∃ d' w',
    BlogService.schedule blogRepository Sample.postId 5000
      (Sample.world Sample.published [])
    = (Return (BlogRepository.normalize d'), w')
    ∧ IBlog.status d' = SCHEDULED
    ∧ IBlog.scheduledFor d' = Some 5000
    ∧ IBlog.publishedAt d' = Some 500.
Proof.
  destruct (schedule_keeps_publication (Sample.world Sample.published [])
              Sample.postId 5000 Sample.published)
    as (d' & w' & Hr & _ & Hs & Hsch & Hp & _).
  - simpl. lia.
  - apply healthy_nil.
  - reflexivity.
  - by exists d', w'.
Defined.

Lemma update_rejects_empty_witness :
  BlogService.update blogRepository "" Sample.rename
    (Sample.world Sample.draft [])
  = (Throw (BadRequest "Blog ID is required"), Sample.world Sample.draft [])
  ∧ BlogService.update blogRepository Sample.postId IUpdateBlogDto.empty
      (Sample.world Sample.draft [])
    = (Throw (BadRequest "No update data provided"),
       Sample.world Sample.draft []).
Proof.
  destruct (update_rejects_empty (Sample.world Sample.draft []) ""
              Sample.rename) as [Hid _].
  destruct (update_rejects_empty (Sample.world Sample.draft []) Sample.postId
              IUpdateBlogDto.empty) as [_ Hkeys].
  split; [apply Hid; reflexivity|apply Hkeys; reflexivity].
Defined.

Lemma update_bad_category_witness :
  ∃ w',
    BlogService.update blogRepository Sample.postId Sample.recategorise
      (Sample.world Sample.draft [])
    = (Throw (InternalError "Failed to update blog post"), w')
    ∧ blogs w' = blogs (Sample.world Sample.draft []).
Proof.
  destruct (update_bad_category (Sample.world Sample.draft []) Sample.postId
              Sample.recategorise "123e4567-e89b-42d3-a456-426614174000"
              Sample.draft (healthy_nil 1 _) eq_refl eq_refl eq_refl)
    as (w' & Hr & Hb & _).
  by exists w'.
Defined.

Lemma update_then_read_witness :
  ∃ d' w',
    BlogService.update blogRepository Sample.postId Sample.retitle
      (Sample.world Sample.draft [])
    = (Return (BlogRepository.normalize d'), w')
    ∧ (BlogService.getById blogRepository Sample.postId true w').1
      = Return (BlogRepository.normalize d')
    ∧ IBlog.slug d' = "a-first-post"
    ∧ IBlog.title d' = "Une idée fixe".
Proof.
  destruct (update_then_read (Sample.world Sample.draft []) Sample.postId
              Sample.retitle Sample.draft (healthy_nil 3 _) eq_refl)
    as (d' & w' & Hr & _ & Hg & Hs & _ & Ht & _).
  - vm_compute. discriminate.
  - intros c. discriminate.
  - exists d', w'. split; [exact Hr|]. split; [exact Hg|].
    split; [exact Hs|]. rewrite Ht. vm_compute. reflexivity.
Defined.

Lemma create_requires_title_and_content_witness :
  BlogService.create blogRepository Sample.slugify
    {| ICreateBlogDto.title := "";
       ICreateBlogDto.slug := None;
       ICreateBlogDto.content := ICreateBlogDto.content Sample.newPost;
       ICreateBlogDto.excerpt := None;
       ICreateBlogDto.author := Some Sample.author;
       ICreateBlogDto.category := Sample.category;
       ICreateBlogDto.tags := None;
       ICreateBlogDto.featuredImage := None;
       ICreateBlogDto.status := None;
       ICreateBlogDto.visibility := None;
       ICreateBlogDto.seo := None;
       ICreateBlogDto.scheduledFor := None |} Sample.empty
  = (Throw (BadRequest "Title and content are required"), Sample.empty).
Proof.
  apply create_requires_title_and_content. left. reflexivity.
Defined.

Lemma create_postconditions_witness :
  ∃ e w',
    BlogService.create blogRepository Sample.slugify Sample.accented
      Sample.empty = (Return e, w')
    ∧ IBlogPostEntity.viewCount e = 0
    ∧ IBlogPostEntity.likes e = []
    ∧ IBlogPostEntity.status e = DRAFT
    ∧ IBlogPostEntity.title e = "Café crème"
    ∧ Js.length (IBlogPostEntity.title e) = 10
    ∧ IBlogPostEntity.slug e = "cafe-creme"
    ∧ (BlogService.getById blogRepository (IBlogPostEntity.id e) true w').1
      = Return e.
Proof.
  destruct (BlogService.create blogRepository Sample.slugify Sample.accented
              Sample.empty) as [[e|x] w'] eqn:Hcreate.
  - assert (healthy 1 w') as Hh.
    { vm_compute in Hcreate. injection Hcreate as _ <-.
      rewrite /healthy /=. constructor. }
    destruct (create_postconditions Sample.slugify Sample.empty w' w'
                Sample.accented e Hcreate eq_refl Hh)
      as (Hv & Hl & _ & Hs & _ & _ & _ & Ht & Hsl & _ & _ & _ & Hg).
    exists e, w'. split; [reflexivity|]. split; [exact Hv|].
    split; [exact Hl|]. split; [exact Hs|].
    split; [rewrite Ht; vm_compute; reflexivity|].
    split; [rewrite Ht; vm_compute; reflexivity|].
    split; [exact Hsl|]. exact Hg.
  - vm_compute in Hcreate. discriminate Hcreate.
Defined.

Lemma create_taken_slug_witness :
  (BlogService.create blogRepository Sample.slugify Sample.clash
     (Sample.world Sample.draft [])).1
  = Throw (InternalError "Failed to create blog post")
  ∧ blogs (BlogService.create blogRepository Sample.slugify Sample.clash
             (Sample.world Sample.draft [])).2
    = blogs (Sample.world Sample.draft []).
Proof.
  apply (create_taken_slug Sample.slugify (Sample.world Sample.draft [])
           Sample.clash Sample.postId Sample.draft); reflexivity.
Defined.


Lemma page_below_one_witness :
  (BlogService.getAll blogRepository (Sample.pageOfTen 0)
     (Sample.library 23)).1 = Return emptyPage
  ∧ blogs (BlogService.getAll blogRepository (Sample.pageOfTen 0)
             (Sample.library 23)).2 = blogs (Sample.library 23).
Proof.
  apply (page_below_one (Sample.pageOfTen 0) (Sample.library 23)).
  - vm_compute. reflexivity.
  - vm_compute. reflexivity.
Defined.

Lemma limit_zero_is_no_limit_witness :
  ∃ r w',
    BlogRepository.findAll Sample.unbounded (Sample.library 23)
    = (Return r, w')
    ∧ List.length (data r) = 23%nat
    ∧ pg_totalPages (pagination r) = PosInfinity.
Proof.
  destruct (limit_zero_is_no_limit Sample.unbounded (Sample.library 23))
    as (r & w' & Hr & Hd & Ht & Hp).
  - reflexivity.
  - rewrite /healthy /=. constructor.
  - exists r, w'. split; [exact Hr|]. split.
    + rewrite Hd length_fmap. vm_compute. reflexivity.
    + rewrite Hp Ht. vm_compute. reflexivity.
Defined.

Lemma blank_search_is_no_search_witness :
  BlogRepository.findAll
    (withSearch (Sample.pageOfTen 1)
       (Some (Sample.nbsp ++ " " ++ Js.utf8 0x3000)%string))
    (Sample.library 23)
  = BlogRepository.findAll
      (withSearch (Sample.pageOfTen 1) None) (Sample.library 23).
Proof.
  apply (blank_search_is_no_search (Sample.pageOfTen 1)
           (Sample.nbsp ++ " " ++ Js.utf8 0x3000)%string (Sample.library 23)).
  vm_compute. repeat constructor.
Defined.

Lemma pages_follow_one_another_witness :
  pagesUpTo (Sample.pageOfTen 1) (Sample.library 23) 3
  = BlogRepository.normalize <$>
      matching (Sample.pageOfTen 1) (Sample.library 23).
Proof.
  rewrite (pages_follow_one_another (Sample.pageOfTen 1) (Sample.library 23)
             3 eq_refl).
  - vm_compute. reflexivity.
  - vm_compute. reflexivity.
Defined.

Lemma validated_slug_is_canonical_witness :
  Js.truthy "a-first-post" = true
  ∧ Schema.set_lower_trim "a-first-post" = "a-first-post".
Proof.
  apply (validated_slug_is_canonical "a-first-post"). reflexivity.
Defined.

Lemma controller_create_author_witness :
  ∃ response w',
    BlogController.create blogRepository Sample.slugify
      (Some (mkAuthUser "64B7F0C2A1D3E4F5A6B7C8E0")) (Some Sample.newPost)
      Sample.empty
    = (Return response, w')
    ∧ IBlogPostEntity.author (res_data response) = Sample.userA
    ∧ res_statusCode response = Some 201.
Proof.
  destruct (BlogController.create blogRepository Sample.slugify
              (Some (mkAuthUser "64B7F0C2A1D3E4F5A6B7C8E0"))
              (Some Sample.newPost) Sample.empty)
    as [[response|x] w'] eqn:Hcreate.
  - destruct (controller_create_author Sample.slugify Sample.empty
                Sample.newPost) as [_ Hauthor].
    destruct (Hauthor _ _ _ Hcreate) as (Ha & _ & Hs).
    exists response, w'. split; [reflexivity|]. split; [exact Ha|exact Hs].
  - vm_compute in Hcreate. discriminate Hcreate.
Defined.
